(** * voice_clone.py: subtitle parsing, reference lookup and batch orchestration

    A shallow embedding of [src/voice_clone.py] and the properties of its
    batch subsystem.

    Conventions of the embedding.
    - A Python [str] is a [string]; a character is a code point below 256, so
      the only decimal digits are 0-9 and the white space characters are the
      ones listed in [is_space].
    - A Python [int] is a [Z].
    - The interpreter's cap on the length of decimal conversions
      ([sys.set_int_max_str_digits]) is taken as switched off.
    - The filesystem is a finite map from path strings to nodes; paths are
      compared as written.
    - [print] appends a structured message to the output and never fails;
      every [print] of the source has its own constructor.
    - The speech engine, [load_wav] and [torchaudio.save] are outside the
      repository; they are the fields of [engine]. What they raise is an
      [Exception]; an interrupt from outside is not part of the model.
    - [args] is the namespace of a run started with [--srt], where
      [args.srt] is a string. [main] also hands a namespace with
      [args.srt = None] to [process_batch_mode], when [--text] is given and
      empty; [process_batch_mode_from_main] takes that namespace in.
    - Embedded are [parse_srt], [find_reference_audio],
      [synthesize_with_cosyvoice], [process_batch_mode] and
      [process_single_mode]. The command line ([parse_args]), the loading of
      the model ([initialize_cosyvoice]) and [main] are not: they consist of
      calls to [argparse], [torch] and the constructor of the model. *)

From Stdlib Require Import ZArith NArith Ascii String DecimalString DecimalPos
  List Lia.
From stdpp Require Import base option list gmap strings.

Local Open Scope Z_scope.
Local Open Scope string_scope.
Local Open Scope list_scope.

(** ** Python string primitives *)

Module Py.

Definition newline : ascii := "010"%char.

(** [str.isspace] on one character, which is also the class [\s] of [re]
    for [str] patterns. *)
Definition is_space (c : ascii) : bool :=
  let n := N_of_ascii c in
  (((9 <=? n) && (n <=? 13)) || ((28 <=? n) && (n <=? 32))
   || (n =? 133) || (n =? 160))%N.

Fixpoint lstrip (s : string) : string :=
  match s with
  | EmptyString => EmptyString
  | String c s' => if is_space c then lstrip s' else s
  end.

Fixpoint rstrip (s : string) : string :=
  match s with
  | EmptyString => EmptyString
  | String c s' =>
      match rstrip s' with
      | EmptyString => if is_space c then EmptyString else String c EmptyString
      | r => String c r
      end
  end.

(** [s.strip()] *)
Definition strip (s : string) : string := rstrip (lstrip s).

(** [s.split(sep)] for a one-character separator: never the empty list. *)
Fixpoint split (sep : ascii) (s : string) : list string :=
  match s with
  | EmptyString => [EmptyString]
  | String c s' =>
      if Ascii.eqb c sep then EmptyString :: split sep s'
      else match split sep s' with
           | [] => [String c EmptyString]
           | l :: ls => String c l :: ls
           end
  end.

(** [sep.join(parts)] *)
Fixpoint join (sep : string) (parts : list string) : string :=
  match parts with
  | [] => EmptyString
  | [p] => p
  | p :: ps => p +:+ sep +:+ join sep ps
  end.

(** [s[:n]] *)
Definition prefix (n : nat) (s : string) : string := substring 0 n s.

(** *** [re.split(r'\n\s*\n', s)] *)

(** The tail [\s*\n] of the pattern, matched at the head of [s] the way the
    backtracking matcher does: [\s*] first takes the character and tries the
    rest; when that fails it gives the character back, which then has to be
    the closing newline. The result is what follows the match. *)
Fixpoint match_blank_tail (s : string) : option string :=
  match s with
  | EmptyString => None
  | String c s' =>
      if is_space c then
        match match_blank_tail s' with
        | Some r => Some r
        | None => if Ascii.eqb c newline then Some s' else None
        end
      else None
  end.

(** Number of characters the separator that starts at a newline takes after
    that newline. *)
Definition blank_tail_length (s : string) : option nat :=
  match match_blank_tail s with
  | Some r => Some (String.length s - String.length r)%nat
  | None => None
  end.

(** The scan of [re.split]: [skip] characters still belong to the separator
    just matched, [cur] is the piece being collected (reversed). *)
Fixpoint re_split_scan (skip : nat) (cur : string) (s : string) : list string :=
  match s with
  | EmptyString => [String.rev cur]
  | String c s' =>
      match skip with
      | S k => re_split_scan k cur s'
      | O =>
          if Ascii.eqb c newline then
            match blank_tail_length s' with
            | Some n => String.rev cur :: re_split_scan n EmptyString s'
            | None => re_split_scan O (String c cur) s'
            end
          else re_split_scan O (String c cur) s'
      end
  end.

Definition re_split_blank (s : string) : list string :=
  re_split_scan O EmptyString s.

(** *** [int(s)] in base 10; [None] stands for [ValueError] *)

Definition digit_of (c : ascii) : option Z :=
  let n := N_of_ascii c in
  if ((48 <=? n) && (n <=? 57))%N then Some (Z.of_N n - 48) else None.

Definition underscore : ascii := "_"%char.

(** Digits, with single underscores allowed between two digits. *)
Fixpoint int_digits (acc : Z) (after_underscore : bool) (s : string) : option Z :=
  match s with
  | EmptyString => if after_underscore then None else Some acc
  | String c s' =>
      if Ascii.eqb c underscore then
        if after_underscore then None else int_digits acc true s'
      else
        match digit_of c with
        | Some d => int_digits (10 * acc + d) false s'
        | None => None
        end
  end.

Definition int_unsigned (s : string) : option Z :=
  match s with
  | EmptyString => None
  | String c _ => if Ascii.eqb c underscore then None else int_digits 0 false s
  end.

Definition int (s : string) : option Z :=
  match strip s with
  | String "+" s' => int_unsigned s'
  | String "-" s' => Z.opp <$> int_unsigned s'
  | s' => int_unsigned s'
  end.

(** *** Formatting of integers *)

(** [str(z)], the [{z}] of an f-string *)
Definition str_of_int (z : Z) : string := NilZero.string_of_int (Z.to_int z).

Fixpoint zeros (n : nat) : string :=
  match n with
  | O => EmptyString
  | S k => String "0" (zeros k)
  end.

(** [{z:03d}]: the sign first, then zeros up to a width of three, then the
    digits. *)
Definition format_03d (z : Z) : string :=
  let sign := if (z <? 0)%Z then "-" else "" in
  let digits := str_of_int (Z.abs z) in
  sign +:+ zeros (3 - String.length sign - String.length digits) +:+ digits.

(** *** Truth value of a string and of an optional string *)

Definition truthy (s : string) : bool :=
  match s with EmptyString => false | _ => true end.

Definition truthy_opt (o : option string) : bool :=
  match o with Some s => truthy s | None => false end.

(** [o is not None] *)
Definition is_not_none {A} (o : option A) : bool :=
  match o with Some _ => true | None => false end.

(** *** [os.path.join(a, b)] on POSIX *)

Definition starts_with_sep (s : string) : bool :=
  match s with String "/" _ => true | _ => false end.

Fixpoint ends_with_sep (s : string) : bool :=
  match s with
  | EmptyString => false
  | String c EmptyString => Ascii.eqb c "/"
  | String _ s' => ends_with_sep s'
  end.

Definition path_join (a b : string) : string :=
  if starts_with_sep b then b
  else if negb (truthy a) || ends_with_sep a then a +:+ b
  else a +:+ "/" +:+ b.

End Py.

(** ** Data model *)

(** One parsed subtitle, the dict with keys ['id'], ['timestamp'], ['text']. *)
Module Subtitle.
Record t := mk { id : Z; timestamp : string; text : string }.
End Subtitle.

(** The fields of the [argparse] namespace that batch mode reads. The options
    [--reference-dir] and [--audio-path] have no default: each is [None]
    unless it was given. *)
Record args := {
  srt : string;
  reference_dir : option string;
  audio_path : option string;
  prompt_text : string;
  audio_prefix : string;
  output_prefix : string;
  output : string;
  instruct : string;
  skip_existing : bool;
  seed : Z
}.

(** A tensor of samples, as far as this program looks into one. *)
Definition tensor := list Z.

Inductive node :=
| Dir
| TextFile (content : string)
| AudioFile (samples : tensor) (rate : Z).

(** Every exception of the model is a subclass of [Exception]. *)
Inductive exn :=
| ValueError (detail : string)
| TypeError (detail : string)
| OSError (detail : string)
| EngineError (detail : string).

(** One constructor per [print] of the source. *)
Inductive msg :=
| ParsingSrt (srt_file : string)
| WarnMalformedBlock (head : string) (e : exn)
| ParsedCount (n : nat)
| Separator (leading_newline : bool)
| Dashes
| BatchTitle
| ErrSrtMissing (srt_file : string)
| ErrReferenceMissing (audio : option string) (dir : option string)
| ErrNoSubtitles
| Processing (total : nat)
| EntryHeader (idx total : nat) (subtitle_id : Z)
| EntryText (head : string) (ellipsis : bool)
| WarnNoReference (subtitle_id : Z)
| SkipExisting (output_filename : string)
| InstructMode (instruct_text : string)
| Saved (output_filename : string)
| ErrEntry (subtitle_id : Z) (e : exn)
| SummaryTitle
| SummaryTotal (total : nat)
| SummarySuccess (n : nat)
| SummarySkipped (n : nat)
| SummaryErrors (n : nat)
| SummaryRate (success_count total : nat).

(** Calls that leave the program, in the order they are made; an inference
    call is listed with the seed that is installed when it is made. *)
Inductive call :=
| LoadWav (path : string) (rate : Z)
| SetSeed (seed : Z)
| ZeroShot (installed : option Z) (text prompt_text : string)
| Instruct2 (installed : option Z) (text instruct_text : string)
| Save (path : string) (samples : tensor) (rate : Z).

Record world := {
  fs : gmap string node;
  stdout : list msg;
  rng : option Z;
  calls : list call
}.

(** What the first [next] on a generator of the engine does. *)
Inductive gen :=
| GenYield (tts_speech : tensor)
| GenStop
| GenRaise (e : exn).

(** The parts outside the repository: the loaded model ([sample_rate] and the
    two inference generators), [load_wav], and whether [torchaudio.save]
    fails. A field may look at the whole world, the installed seed
    included. *)
Record engine := {
  sample_rate : Z;
  load_wav : world -> string -> Z -> exn + tensor;
  inference_zero_shot : world -> string -> string -> tensor -> gen;
  inference_instruct2 : world -> string -> string -> tensor -> gen;
  save_error : world -> string -> tensor -> Z -> option exn
}.

(** ** Effects: state and exceptions *)

Inductive res (A : Type) :=
| Ok (a : A)
| Raise (e : exn).
Arguments Ok {A} a.
Arguments Raise {A} e.

Definition M (A : Type) : Type := world -> res A * world.

Definition ret {A} (a : A) : M A := fun w => (Ok a, w).

Definition bind {A B} (m : M A) (k : A -> M B) : M B :=
  fun w => match m w with
           | (Ok a, w') => k a w'
           | (Raise e, w') => (Raise e, w')
           end.

Definition raise {A} (e : exn) : M A := fun w => (Raise e, w).

(** [try: body except Exception as e: handler] *)
Definition try_except {A} (body : M A) (handler : exn -> M A) : M A :=
  fun w => match body w with
           | (Ok a, w') => (Ok a, w')
           | (Raise e, w') => handler e w'
           end.

Declare Scope py_scope.
Delimit Scope py_scope with py.
Notation "x <- m ;; k" := (bind m (fun x => k))
  (at level 20, m at level 99, k at level 200, only parsing) : py_scope.
Notation "m ;; k" := (bind m (fun _ => k))
  (at level 100, k at level 200, only parsing, right associativity) : py_scope.
Local Open Scope py_scope.

(** The world after the messages [ms] have been printed. *)
Definition emit (w : world) (ms : list msg) : world :=
  {| fs := fs w; stdout := stdout w ++ ms; rng := rng w; calls := calls w |}.

Definition print (m : msg) : M unit := fun w => (Ok tt, emit w [m]).

Definition record_call (c : call) : M unit :=
  fun w => (Ok tt, {| fs := fs w; stdout := stdout w; rng := rng w;
                      calls := calls w ++ [c] |}).

(** A [for] loop over a list whose body updates the loop's variables [s]. *)
Fixpoint for_each {A S} (body : A -> S -> M S) (l : list A) (s : S) : M S :=
  match l with
  | [] => ret s
  | a :: l' => s' <- body a s ;; for_each body l' s'
  end.

(** *** The filesystem *)

Definition path_exists (store : gmap string node) (p : string) : bool :=
  bool_decide (is_Some (store !! p)).

Definition path_isdir (store : gmap string node) (p : string) : bool :=
  match store !! p with Some Dir => true | _ => false end.

Definition os_path_exists (p : string) : M bool :=
  fun w => (Ok (path_exists (fs w) p), w).

(** [os.path.join(a, b)] where [a] may be [None]. *)
Definition os_path_join (a : option string) (b : string) : M string :=
  match a with
  | Some a' => ret (Py.path_join a' b)
  | None => raise (TypeError "expected str, bytes or os.PathLike object, not NoneType")
  end.

(** Text mode turns every line ending into a newline. *)
Fixpoint universal_newlines (s : string) : string :=
  match s with
  | EmptyString => EmptyString
  | String c s' =>
      if Ascii.eqb c "013" then
        match s' with
        | String c' s'' =>
            if Ascii.eqb c' Py.newline then String Py.newline (universal_newlines s'')
            else String Py.newline (universal_newlines s')
        | EmptyString => String Py.newline EmptyString
        end
      else String c (universal_newlines s')
  end.

(** [open(path, 'r', encoding='utf-8')] followed by [read()] *)
Definition read_text (path : string) : M string :=
  fun w => match fs w !! path with
           | Some (TextFile content) => (Ok (universal_newlines content), w)
           | Some Dir => (Raise (OSError "IsADirectoryError"), w)
           | Some (AudioFile _ _) => (Raise (ValueError "UnicodeDecodeError"), w)
           | None => (Raise (OSError "FileNotFoundError"), w)
           end.

(** ** [parse_srt] *)

(** The body of the loop over the blocks; [subtitles] is the list built so
    far. *)
Definition parse_block (block : string) (subtitles : list Subtitle.t)
  : M (list Subtitle.t) :=
  let lines := Py.split Py.newline (Py.strip block) in
  if (3 <=? length lines)%nat then
    match Py.int (Py.strip (nth 0 lines EmptyString)) with
    | Some subtitle_id =>
        let timestamp := Py.strip (nth 1 lines EmptyString) in
        let text := Py.strip (Py.join " " (drop 2 lines)) in
        ret (subtitles ++ [Subtitle.mk subtitle_id timestamp text])
    | None =>
        print (WarnMalformedBlock (Py.prefix 50 block)
                 (ValueError (Py.strip (nth 0 lines EmptyString)))) ;;
        ret subtitles
    end
  else ret subtitles.

(** The part of [parse_srt] after the file has been read. *)
Definition parse_content (content : string) : M (list Subtitle.t) :=
  let blocks := Py.re_split_blank (Py.strip content) in
  subtitles <- for_each parse_block blocks [] ;;
  print (ParsedCount (length subtitles)) ;;
  ret subtitles.

Definition parse_srt (srt_file : string) : M (list Subtitle.t) :=
  print (ParsingSrt srt_file) ;;
  content <- read_text srt_file ;;
  parse_content content.

(** ** [find_reference_audio] *)

Definition patterns (audio_prefix : string) (subtitle_id : Z) : list string :=
  [ audio_prefix +:+ "_" +:+ Py.format_03d subtitle_id +:+ ".wav";
    audio_prefix +:+ "_" +:+ Py.format_03d subtitle_id +:+ ".mp3";
    audio_prefix +:+ "_" +:+ Py.str_of_int subtitle_id +:+ ".wav";
    audio_prefix +:+ "_" +:+ Py.str_of_int subtitle_id +:+ ".mp3";
    audio_prefix +:+ Py.format_03d subtitle_id +:+ ".wav";
    audio_prefix +:+ Py.format_03d subtitle_id +:+ ".mp3";
    audio_prefix +:+ Py.str_of_int subtitle_id +:+ ".wav";
    audio_prefix +:+ Py.str_of_int subtitle_id +:+ ".mp3";
    audio_prefix +:+ "_" +:+ Py.format_03d subtitle_id +:+ ".mp4";
    audio_prefix +:+ "_" +:+ Py.format_03d subtitle_id +:+ ".m4a" ].

(** The loop over the patterns, left by [return] at the first hit. *)
Fixpoint first_existing (reference_dir : option string) (ps : list string)
  : M (option string) :=
  match ps with
  | [] => ret None
  | pattern :: ps' =>
      audio_path <- os_path_join reference_dir pattern ;;
      found <- os_path_exists audio_path ;;
      if found then ret (Some audio_path) else first_existing reference_dir ps'
  end.

Definition find_reference_audio (reference_dir : option string)
    (subtitle_id : Z) (audio_prefix : string) : M (option string) :=
  first_existing reference_dir (patterns audio_prefix subtitle_id).

(** ** [synthesize_with_cosyvoice] *)

Definition call_load_wav (cosyvoice : engine) (path : string) (rate : Z)
  : M tensor :=
  record_call (LoadWav path rate) ;;
  fun w => match load_wav cosyvoice w path rate with
           | inr t => (Ok t, w)
           | inl e => (Raise e, w)
           end.

Definition set_all_random_seed (s : Z) : M unit :=
  record_call (SetSeed s) ;;
  fun w => (Ok tt, {| fs := fs w; stdout := stdout w; rng := Some s;
                      calls := calls w |}).

(** [torchaudio.save]: it fails with the store as it was, or leaves the audio
    at [path]. *)
Definition torchaudio_save (cosyvoice : engine) (path : string)
    (samples : tensor) (rate : Z) : M unit :=
  record_call (Save path samples rate) ;;
  fun w => match save_error cosyvoice w path samples rate with
           | Some e => (Raise e, w)
           | None =>
               (Ok tt, {| fs := <[path := AudioFile samples rate]> (fs w);
                          stdout := stdout w; rng := rng w; calls := calls w |})
           end.

Definition synthesize_with_cosyvoice (cosyvoice : engine)
    (text prompt_text prompt_audio_path output_path instruct_text : string)
    (seed : Z) : M unit :=
  prompt_speech_16k <- call_load_wav cosyvoice prompt_audio_path 16000 ;;
  set_all_random_seed seed ;;
  inference_gen <-
    (if Py.truthy instruct_text then
       print (InstructMode instruct_text) ;;
       (fun w => record_call (Instruct2 (rng w) text instruct_text) w) ;;
       fun w => (Ok (inference_instruct2 cosyvoice w text instruct_text
                       prompt_speech_16k), w)
     else
       (fun w => record_call (ZeroShot (rng w) text prompt_text) w) ;;
       fun w => (Ok (inference_zero_shot cosyvoice w text prompt_text
                       prompt_speech_16k), w)) ;;
  match inference_gen with
  | GenYield tts_speech =>
      torchaudio_save cosyvoice output_path tts_speech (sample_rate cosyvoice)
  | GenStop => ret tt
  | GenRaise e => raise e
  end.

(** ** [process_batch_mode] *)

(** The three counters of the loop. *)
Record counters := {
  success_count : nat;
  skip_count : nat;
  error_count : nat
}.

Definition add_success (c : counters) : counters :=
  {| success_count := S (success_count c); skip_count := skip_count c;
     error_count := error_count c |}.

Definition add_skip (c : counters) : counters :=
  {| success_count := success_count c; skip_count := S (skip_count c);
     error_count := error_count c |}.

Definition add_error (c : counters) : counters :=
  {| success_count := success_count c; skip_count := skip_count c;
     error_count := S (error_count c) |}.

Definition output_filename_of (a : args) (subtitle_id : Z) : string :=
  output_prefix a +:+ "_" +:+ Py.format_03d subtitle_id +:+ ".wav".

Definition output_path_of (a : args) (subtitle_id : Z) : string :=
  Py.path_join (output a) (output_filename_of a subtitle_id).

(** [enumerate(l, start)] *)
Fixpoint enumerate {A} (start : nat) (l : list A) : list (nat * A) :=
  match l with
  | [] => []
  | x :: l' => (start, x) :: enumerate (S start) l'
  end.

(** The step "find reference audio" of the loop body. *)
Definition reference_for (a : args) (use_single_audio : bool) (subtitle_id : Z)
  : M (option string) :=
  if use_single_audio then ret (audio_path a)
  else find_reference_audio (reference_dir a) subtitle_id (audio_prefix a).

(** The body of the loop over the subtitles. *)
Definition process_subtitle (a : args) (cosyvoice : engine) (total : nat)
    (use_single_audio : bool) (item : nat * Subtitle.t) (c : counters)
  : M counters :=
  let idx := fst item in
  let subtitle_id := Subtitle.id (snd item) in
  let text := Subtitle.text (snd item) in
  print (EntryHeader idx total subtitle_id) ;;
  print (EntryText (Py.prefix 80 text) (80 <? String.length text)%nat) ;;
  ref_audio <- reference_for a use_single_audio subtitle_id ;;
  match ref_audio with
  | Some ref_path =>
      if Py.truthy ref_path then
        try_except
          (let output_filename := output_filename_of a subtitle_id in
           let output_path := Py.path_join (output a) output_filename in
           present <-
             (if skip_existing a then os_path_exists output_path
              else ret false) ;;
           if present then
             print (SkipExisting output_filename) ;;
             ret (add_skip c)
           else
             synthesize_with_cosyvoice cosyvoice text (prompt_text a) ref_path
               output_path (instruct a) (seed a + subtitle_id) ;;
             print (Saved output_filename) ;;
             ret (add_success c))
          (fun e =>
             print (ErrEntry subtitle_id e) ;;
             ret (add_error c))
      else
        print (WarnNoReference subtitle_id) ;;
        ret (add_error c)
  | None =>
      print (WarnNoReference subtitle_id) ;;
      ret (add_error c)
  end.

Definition no_counts : counters :=
  {| success_count := 0; skip_count := 0; error_count := 0 |}.

(** The [for] statement of [process_batch_mode]. *)
Definition process_subtitles (a : args) (cosyvoice : engine)
    (subtitles : list Subtitle.t) (c : counters) : M counters :=
  for_each
    (process_subtitle a cosyvoice (length subtitles)
       (Py.is_not_none (audio_path a)))
    (enumerate 1 subtitles) c.

(** The prints after the loop. *)
Definition print_summary (total : nat) (c : counters) : M unit :=
  print (Separator true) ;;
  print SummaryTitle ;;
  print (Separator false) ;;
  print (SummaryTotal total) ;;
  print (SummarySuccess (success_count c)) ;;
  print (SummarySkipped (skip_count c)) ;;
  print (SummaryErrors (error_count c)) ;;
  if (0 <? total)%nat then print (SummaryRate (success_count c) total)
  else ret tt.

(** Whether the check of the reference stops the run:
    [args.reference_dir and not os.path.isdir(args.reference_dir)], and then
    [not (args.audio_path and os.path.exists(args.audio_path))]. *)
Definition reference_missing (a : args) (store : gmap string node) : bool :=
  match reference_dir a with
  | Some d =>
      Py.truthy d && negb (path_isdir store d)
      && negb (match audio_path a with
               | Some p => Py.truthy p && path_exists store p
               | None => false
               end)
  | None => false
  end.

Definition process_batch_mode (a : args) (cosyvoice : engine) : M unit :=
  print (Separator true) ;;
  print BatchTitle ;;
  print (Separator false) ;;
  srt_present <- os_path_exists (srt a) ;;
  if negb srt_present then print (ErrSrtMissing (srt a))
  else
    missing <- (fun w => (Ok (reference_missing a (fs w)), w)) ;;
    if missing then print (ErrReferenceMissing (audio_path a) (reference_dir a))
    else
      subtitles <- parse_srt (srt a) ;;
      match subtitles with
      | [] => print ErrNoSubtitles
      | _ :: _ =>
          let total := length subtitles in
          print (Processing total) ;;
          print Dashes ;;
          c <- process_subtitles a cosyvoice subtitles no_counts ;;
          print_summary total c
      end.

(** The namespace [a] with the subtitle path [p]. *)
Definition with_srt (a : args) (p : string) : args :=
  {| srt := p; reference_dir := reference_dir a; audio_path := audio_path a;
     prompt_text := prompt_text a; audio_prefix := audio_prefix a;
     output_prefix := output_prefix a; output := output a;
     instruct := instruct a; skip_existing := skip_existing a;
     seed := seed a |}.

(** [process_batch_mode] on every namespace [main] can hand it: [args.srt]
    is the path given with [--srt], or [None] when the run was started with
    an empty [--text], which sends [main] down the batch branch; then
    [os.path.exists(args.srt)] raises after the banner. *)
Definition process_batch_mode_from_main (srt_option : option string) (a : args)
    (cosyvoice : engine) : M unit :=
  match srt_option with
  | Some p => process_batch_mode (with_srt a p) cosyvoice
  | None =>
      print (Separator true) ;;
      print BatchTitle ;;
      print (Separator false) ;;
      raise (TypeError "stat: path should be string, bytes, os.PathLike or integer, not NoneType")
  end.

(** ** [process_single_mode] *)

(** The namespace as single mode reads it: the fields shared with batch mode,
    the text, and the reference, which is [None] when another reference
    option was given on the command line. *)
Record single_args := {
  common : args;
  text : string;
  reference : option string
}.

(** The lines that only single mode prints. *)
Inductive single_msg :=
| SingleTitle
| ErrReferenceFileMissing (reference : string)
| TextLine (text : string)
| ReferenceLine (reference : string)
| PromptTextLine (prompt_text : string)
| InstructLine (instruct : string)
| SavedPath (output_path : string)
| ErrSingle (e : exn).

(** A single-mode session: the world the callee works on, every line shown
    so far in the order of the prints, and the tracebacks on the error
    stream. *)
Record session := {
  inner : world;
  shown : list (msg + single_msg);
  stderr : list exn
}.

(** The session after the lines [ls] have been printed. *)
Definition display (t : session) (ls : list (msg + single_msg)) : session :=
  {| inner := inner t; shown := shown t ++ ls; stderr := stderr t |}.

(** The session after a callee has taken the world from [inner t] to [w]:
    what the callee printed is shown. *)
Definition after_call (t : session) (w : world) : session :=
  {| inner := w;
     shown := shown t ++ (inl <$> drop (length (stdout (inner t))) (stdout w));
     stderr := stderr t |}.

(** [traceback.print_exc()] *)
Definition print_exc (t : session) (e : exn) : session :=
  {| inner := inner t; shown := shown t; stderr := stderr t ++ [e] |}.

(** The one output path of single mode. *)
Definition single_output_path (a : single_args) : string :=
  Py.path_join (output (common a)) "output_single.wav".

Definition process_single_mode (a : single_args) (cosyvoice : engine)
    (t : session) : res unit * session :=
  let t1 := display t [inl (Separator true); inr SingleTitle;
                       inl (Separator false)] in
  match reference a with
  | None =>
      (Raise (TypeError "stat: path should be string, bytes, os.PathLike or integer, not NoneType"),
       t1)
  | Some ref =>
      if negb (path_exists (fs (inner t1)) ref) then
        (Ok tt, display t1 [inr (ErrReferenceFileMissing ref)])
      else
        let t2 :=
          display t1
            ([inr (TextLine (text a)); inr (ReferenceLine ref)]
             ++ (if Py.truthy (prompt_text (common a))
                 then [inr (PromptTextLine (prompt_text (common a)))]
                 else [])
             ++ (if Py.truthy (instruct (common a))
                 then [inr (InstructLine (instruct (common a)))]
                 else [])) in
        let output_filename := "output_single.wav" in
        let output_path := Py.path_join (output (common a)) output_filename in
        let run :=
          synthesize_with_cosyvoice cosyvoice (text a)
            (prompt_text (common a)) ref output_path (instruct (common a))
            (seed (common a)) (inner t2) in
        let t3 := after_call t2 run.2 in
        match run.1 with
        | Ok _ => (Ok tt, display t3 [inr (SavedPath output_path)])
        | Raise e => (Ok tt, print_exc (display t3 [inr (ErrSingle e)]) e)
        end
  end.

(** * Vocabulary of the properties *)

(** ** Blocks, entries and warnings of a document *)

(** The blocks of a document, as [parse_srt] cuts them. *)
Definition blocks_of (content : string) : list string :=
  Py.re_split_blank (Py.strip content).

(** What a block contributes to the result: at least three lines, of which
    the first, stripped, reads as an integer; the second, stripped, is the
    timestamp; the others, joined by single spaces and stripped, are the
    text. *)
Definition entry_of_block (block : string) : option Subtitle.t :=
  match Py.split Py.newline (Py.strip block) with
  | first :: second :: third :: more =>
      match Py.int (Py.strip first) with
      | Some n =>
          Some (Subtitle.mk n (Py.strip second)
                  (Py.strip (Py.join " " (third :: more))))
      | None => None
      end
  | _ => None
  end.

(** What a block contributes to the output: a warning when it has three lines
    or more and its first line does not read as an integer. *)
Definition warning_of_block (block : string) : option msg :=
  match Py.split Py.newline (Py.strip block) with
  | first :: _ :: _ :: _ =>
      match Py.int (Py.strip first) with
      | Some _ => None
      | None =>
          Some (WarnMalformedBlock (Py.prefix 50 block)
                  (ValueError (Py.strip first)))
      end
  | _ => None
  end.

(** The subtitles and the warnings of a raw file content. *)
Definition subtitles_of (raw : string) : list Subtitle.t :=
  omap entry_of_block (blocks_of (universal_newlines raw)).

Definition warnings_of (raw : string) : list msg :=
  omap warning_of_block (blocks_of (universal_newlines raw)).

(** ** What one can read off the output and the calls *)

(** The three ways the loop counts an entry. *)
Inductive outcome := Success | Skipped | Error.

#[global] Instance outcome_eq_dec : EqDecision outcome.
Proof. solve_decision. Defined.

(** The counters after one more outcome. *)
Definition bump (o : outcome) (c : counters) : counters :=
  match o with
  | Success => add_success c
  | Skipped => add_skip c
  | Error => add_error c
  end.

(** What the output tells about the entries: the header line of an entry,
    and the line that goes with the counter that was moved. *)
Inductive event :=
| Attempt (idx : nat) (subtitle_id : Z)
| Recorded (o : outcome).

Definition event_of_msg (m : msg) : option event :=
  match m with
  | EntryHeader idx _ subtitle_id => Some (Attempt idx subtitle_id)
  | Saved _ => Some (Recorded Success)
  | SkipExisting _ => Some (Recorded Skipped)
  | WarnNoReference _ | ErrEntry _ _ => Some (Recorded Error)
  | _ => None
  end.

Definition events (out : list msg) : list event := omap event_of_msg out.

(** The seeds installed by [set_all_random_seed], in the order of the
    calls. *)
Definition seed_of_call (c : call) : option Z :=
  match c with SetSeed s => Some s | _ => None end.

Definition seeds (cs : list call) : list Z := omap seed_of_call cs.

(** The requests to the engine: the installed seed and the text of each
    inference call, in the order of the calls. *)
Definition request_of_call (c : call) : option (option Z * string) :=
  match c with
  | ZeroShot installed text _ | Instruct2 installed text _ =>
      Some (installed, text)
  | _ => None
  end.

Definition requests (cs : list call) : list (option Z * string) :=
  omap request_of_call cs.

(** The two lines that open the pass for one subtitle. *)
Definition entry_lines (total idx : nat) (s : Subtitle.t) : list msg :=
  [EntryHeader idx total (Subtitle.id s);
   EntryText (Py.prefix 80 (Subtitle.text s))
     (80 <? String.length (Subtitle.text s))%nat].

(** The first three lines of a batch run. *)
Definition banner : list msg := [Separator true; BatchTitle; Separator false].

(** The lines of the summary. *)
Definition summary_lines (total : nat) (c : counters) : list msg :=
  [Separator true; SummaryTitle; Separator false; SummaryTotal total;
   SummarySuccess (success_count c); SummarySkipped (skip_count c);
   SummaryErrors (error_count c)]
  ++ (if (0 <? total)%nat then [SummaryRate (success_count c) total] else []).

(** ** Counting outcomes *)

(** The counters after the outcomes [os], in their order. *)
Definition tally (os : list outcome) (c : counters) : counters :=
  foldl (fun c o => bump o c) c os.

(** How often the outcome [o] occurs in [os]. *)
Definition count_outcome (o : outcome) (os : list outcome) : nat :=
  length (filter (fun x => x = o) os).

(** What the output shows of a batch: each subtitle attempted, followed by
    its outcome. *)
Fixpoint batch_events (items : list (nat * Subtitle.t)) (os : list outcome)
  : list event :=
  match items, os with
  | item :: items', o :: os' =>
      Attempt item.1 (Subtitle.id item.2) :: Recorded o :: batch_events items' os'
  | _, _ => []
  end.

(** The counters of a run that skipped [n] entries and did nothing else. *)
Definition all_skipped (n : nat) : counters :=
  {| success_count := 0; skip_count := n; error_count := 0 |}.

(** ** References and stores *)

(** A batch job names a reference directory or a shared reference audio. *)
Definition reference_given (a : args) : bool :=
  Py.is_not_none (reference_dir a) || Py.is_not_none (audio_path a).

(** The store [store'] has every path of [store]. *)
Definition keeps_paths (store store' : gmap string node) : Prop :=
  forall p, path_exists store p = true -> path_exists store' p = true.

(** A world with the store [store], no output yet and no call made. *)
Definition world_of (store : gmap string node) : world :=
  {| fs := store; stdout := []; rng := None; calls := [] |}.

(** The lookup for [subtitle_id] gives a usable path in [store]. *)
Definition resolves (a : args) (u : bool) (subtitle_id : Z)
    (store : gmap string node) : Prop :=
  exists p, (reference_for a u subtitle_id (world_of store)).1 = Ok (Some p) /\
            Py.truthy p = true.

(** ** Claims that fail as they are stated *)

(** The entry of a block when its lines are taken as they stand: the first
    read as an integer, the second kept as it is, the others joined by single
    spaces. *)
Definition verbatim_entry_of_block (block : string) : option Subtitle.t :=
  match Py.split Py.newline block with
  | first :: second :: third :: more =>
      match Py.int first with
      | Some n => Some (Subtitle.mk n second (Py.join " " (third :: more)))
      | None => None
      end
  | _ => None
  end.

(** The claim about the parser, on one document: the entries are the
    verbatim entries of its blocks. *)
Definition parse_keeps_lines_verbatim (content : string) : Prop :=
  forall w,
    (parse_content content w).1
    = Ok (omap verbatim_entry_of_block (blocks_of content)).

(** The output has a warning for [block]. *)
Definition diagnosed (block : string) (out : list msg) : Prop :=
  exists e, WarnMalformedBlock (Py.prefix 50 block) e ∈ out.

(** The claim about the warnings, on one document: every block that yields
    no entry has its warning. *)
Definition every_failed_block_is_diagnosed (content : string) : Prop :=
  forall w block,
    block ∈ blocks_of content ->
    entry_of_block block = None ->
    diagnosed block (stdout (parse_content content w).2).

(** The claim about a second run, on one batch: after a first run, a second
    one in the world the first left behind writes nothing and skips every
    entry. *)
Definition second_run_skips_all (a : args) (cosyvoice : engine)
    (subtitles : list Subtitle.t) (w : world) : Prop :=
  skip_existing a = true ->
  let first := process_subtitles a cosyvoice subtitles no_counts w in
  let second := process_subtitles a cosyvoice subtitles no_counts first.2 in
  fs second.2 = fs first.2 /\ second.1 = Ok (all_skipped (length subtitles)).

(** The claim about the rate, on one summary: a rate is printed, and it is 0
    when there is no entry and [success_count / total] otherwise. *)
Definition summary_reports_rate (total : nat) (c : counters) : Prop :=
  forall w, exists n d,
    SummaryRate n d ∈ stdout (print_summary total c w).2 /\
    match total with
    | O => n = 0%nat
    | S _ => d <> 0%nat /\ (n * total = success_count c * d)%nat
    end.

(** * Inputs to run *)

(** The one-character string of a newline. *)
Definition nl : string := String Py.newline EmptyString.

(** A document from its lines. *)
Definition document (lines : list string) : string := Py.join nl lines.

(** No file, no output, no call. *)
Definition empty_world : world :=
  {| fs := ∅; stdout := []; rng := None; calls := [] |}.

(** An engine that loads what the store holds, answers with the reference
    samples, and always manages to save. *)
Definition example_engine : engine :=
  {| sample_rate := 24000;
     load_wav := fun w p _ =>
       match fs w !! p with
       | Some (AudioFile samples _) => inr samples
       | _ => inl (OSError "cannot open the reference")
       end;
     inference_zero_shot := fun _ _ _ speech => GenYield speech;
     inference_instruct2 := fun _ _ _ speech => GenYield speech;
     save_error := fun _ _ _ _ => None |}.

(** A batch job over the directory [refs], with [skip_existing] set. *)
Definition example_args : args :=
  {| srt := "subs.srt"; reference_dir := Some "refs"; audio_path := None;
     prompt_text := ""; audio_prefix := "segment"; output_prefix := "clone";
     output := "out"; instruct := ""; skip_existing := true; seed := 42 |}.

Definition example_subtitle (n : Z) : Subtitle.t :=
  Subtitle.mk n "00:00:01,000 --> 00:00:02,000" "Hello".

(** References for the ids 1, 2, 4 and 5; none for 3. *)
Definition example_store : gmap string node :=
  list_to_map
    [("refs", Dir);
     ("refs/segment_001.wav", AudioFile [1] 16000);
     ("refs/segment_002.wav", AudioFile [2] 16000);
     ("refs/segment_004.wav", AudioFile [4] 16000);
     ("refs/segment_005.wav", AudioFile [5] 16000)].

Definition five_subtitles : list Subtitle.t :=
  map example_subtitle [1; 2; 3; 4; 5].

Definition four_subtitles : list Subtitle.t :=
  map example_subtitle [1; 2; 4; 5].

(** The world after a first run over the entries 1, 2, 4 and 5. *)
Definition after_first_run : world :=
  (process_subtitles example_args example_engine four_subtitles no_counts
     (world_of example_store)).2.

(** One block whose timestamp line ends in a space. *)
Definition padded_timestamp_document : string :=
  document ["1"; "00:00:01,000 --> 00:00:02,000 "; "Hello"].

(** One block of two lines. *)
Definition two_line_document : string :=
  document ["1"; "00:00:01,000 --> 00:00:02,000"].

Definition two_entry_document : string :=
  document ["1"; "00:00:01,000 --> 00:00:02,000"; "Hello"; "";
            "2"; "00:00:02,000 --> 00:00:03,000"; "World"].

Definition two_entry_store : gmap string node :=
  <["subs.srt" := TextFile two_entry_document]> example_store.

(** Three blocks: the id 1 twice, and the id -3. *)
Definition repeated_id_document : string :=
  document ["1"; "00:00:01,000 --> 00:00:02,000"; "first"; "";
            "1"; "00:00:02,000 --> 00:00:03,000"; "again"; "";
            "-3"; "00:00:03,000 --> 00:00:04,000"; "below zero"].

(** A second entry with the id 1. *)
Definition later_subtitle : Subtitle.t :=
  Subtitle.mk 1 "00:00:02,000 --> 00:00:03,000" "once more".

(** An engine whose audio is the length of the text. *)
Definition text_length_engine : engine :=
  {| sample_rate := 24000;
     load_wav := fun _ _ _ => inr [];
     inference_zero_shot := fun _ text _ _ =>
       GenYield [Z.of_nat (String.length text)];
     inference_instruct2 := fun _ text _ _ =>
       GenYield [Z.of_nat (String.length text)];
     save_error := fun _ _ _ _ => None |}.

(** The job of [example_args] without [skip_existing]. *)
Definition overwriting_args : args :=
  {| srt := "subs.srt"; reference_dir := Some "refs"; audio_path := None;
     prompt_text := ""; audio_prefix := "segment"; output_prefix := "clone";
     output := "out"; instruct := ""; skip_existing := false; seed := 42 |}.

Definition first_output_present : gmap string node :=
  <["out/clone_001.wav" := AudioFile [1] 24000]> example_store.

Definition third_output_present : gmap string node :=
  <["out/clone_003.wav" := AudioFile [3] 24000]> example_store.

(** The same job with another base seed. *)
Definition other_seed_args : args :=
  {| srt := "subs.srt"; reference_dir := Some "refs"; audio_path := None;
     prompt_text := ""; audio_prefix := "segment"; output_prefix := "clone";
     output := "out"; instruct := ""; skip_existing := true; seed := 7 |}.

(** Batch mode with a shared reference audio that is not on disk. *)
Definition shared_audio_args : args :=
  {| srt := "subs.srt"; reference_dir := None;
     audio_path := Some "missing.wav"; prompt_text := "";
     audio_prefix := "segment"; output_prefix := "clone"; output := "out";
     instruct := ""; skip_existing := false; seed := 42 |}.

Definition one_entry_store : gmap string node :=
  {["subs.srt" := TextFile
      (document ["1"; "00:00:01,000 --> 00:00:02,000"; "Hello"])]}.

(** Batch mode started with the reference option of single mode: neither a
    reference directory nor a shared reference audio. *)
Definition single_reference_args : args :=
  {| srt := "subs.srt"; reference_dir := None; audio_path := None;
     prompt_text := ""; audio_prefix := "segment"; output_prefix := "clone";
     output := "out"; instruct := ""; skip_existing := false; seed := 42 |}.

(** * Vocabulary of the further properties *)

(** ** Printed integers *)

(** The value of a run of decimal digits read after the value [acc]. *)
Fixpoint uint_value (acc : Z) (d : Decimal.uint) : Z :=
  match d with
  | Decimal.Nil => acc
  | Decimal.D0 d' => uint_value (10 * acc) d'
  | Decimal.D1 d' => uint_value (10 * acc + 1) d'
  | Decimal.D2 d' => uint_value (10 * acc + 2) d'
  | Decimal.D3 d' => uint_value (10 * acc + 3) d'
  | Decimal.D4 d' => uint_value (10 * acc + 4) d'
  | Decimal.D5 d' => uint_value (10 * acc + 5) d'
  | Decimal.D6 d' => uint_value (10 * acc + 6) d'
  | Decimal.D7 d' => uint_value (10 * acc + 7) d'
  | Decimal.D8 d' => uint_value (10 * acc + 8) d'
  | Decimal.D9 d' => uint_value (10 * acc + 9) d'
  end.

(** A character of a printed integer: a digit or the minus sign. *)
Definition numeral_char (c : ascii) : bool :=
  match Py.digit_of c with Some _ => true | None => Ascii.eqb c "-" end.

(** A string of such characters. *)
Fixpoint numeral (s : string) : bool :=
  match s with
  | EmptyString => true
  | String c s' => numeral_char c && numeral s'
  end.

(** The ten names that [find_reference_audio] tries, without the prefix. *)
Definition numbered_tails (subtitle_id : Z) : list string :=
  [ "_" +:+ Py.format_03d subtitle_id +:+ ".wav";
    "_" +:+ Py.format_03d subtitle_id +:+ ".mp3";
    "_" +:+ Py.str_of_int subtitle_id +:+ ".wav";
    "_" +:+ Py.str_of_int subtitle_id +:+ ".mp3";
    Py.format_03d subtitle_id +:+ ".wav";
    Py.format_03d subtitle_id +:+ ".mp3";
    Py.str_of_int subtitle_id +:+ ".wav";
    Py.str_of_int subtitle_id +:+ ".mp3";
    "_" +:+ Py.format_03d subtitle_id +:+ ".mp4";
    "_" +:+ Py.format_03d subtitle_id +:+ ".m4a" ].

(** A name that carries the id [n]: an optional underscore, the printed id,
    a dot and an extension. *)
Definition carries_id (n : Z) (name : string) : Prop :=
  exists (u : bool) (digits ext : string),
    name = (if u then "_" else "") +:+ digits +:+ String "." ext /\
    numeral digits = true /\ Py.int digits = Some n.

(** ** White space and lines *)

(** No white space at all. *)
Fixpoint no_space (s : string) : bool :=
  match s with
  | EmptyString => true
  | String c s' => negb (Py.is_space c) && no_space s'
  end.

(** Not empty, and the first character is no white space. *)
Definition starts_nonspace (s : string) : bool :=
  match s with
  | EmptyString => false
  | String c _ => negb (Py.is_space c)
  end.

(** Not empty, and the last character is no white space. *)
Fixpoint last_nonspace (s : string) : bool :=
  match s with
  | EmptyString => false
  | String c EmptyString => negb (Py.is_space c)
  | String _ s' => last_nonspace s'
  end.

(** On one line. *)
Fixpoint no_newline (s : string) : bool :=
  match s with
  | EmptyString => true
  | String c s' => negb (Ascii.eqb c Py.newline) && no_newline s'
  end.

(** Nothing but white space. *)
Fixpoint all_space (s : string) : bool :=
  match s with
  | EmptyString => true
  | String c s' => Py.is_space c && all_space s'
  end.

(** Every newline of [s] is followed by a character that is not white
    space. *)
Fixpoint tight (s : string) : bool :=
  match s with
  | EmptyString => true
  | String c s' =>
      (if Ascii.eqb c Py.newline then starts_nonspace s' else true) && tight s'
  end.

(** A line of a block: not empty, no newline, no white space at either end. *)
Definition clean (s : string) : bool :=
  starts_nonspace s && last_nonspace s && no_newline s.

(** A field as the parser leaves it: stripped, and on one line. *)
Definition trimmed_line (s : string) : Prop :=
  Py.strip s = s /\ no_newline s = true.

(** The same text with the line endings of Windows. *)
Fixpoint to_crlf (s : string) : string :=
  match s with
  | EmptyString => EmptyString
  | String c s' =>
      if Ascii.eqb c Py.newline then String "013" (String Py.newline (to_crlf s'))
      else String c (to_crlf s')
  end.

(** No carriage return. *)
Fixpoint no_return (s : string) : bool :=
  match s with
  | EmptyString => true
  | String c s' => negb (Ascii.eqb c "013") && no_return s'
  end.

(** ** Subtitle files written out *)

(** Blocks behind a first one, each after its separator: a newline, white
    space, a newline. *)
Fixpoint glue (rest : list (string * string)) : string :=
  match rest with
  | [] => EmptyString
  | (ws, b) :: rest' => nl +:+ ws +:+ nl +:+ b +:+ glue rest'
  end.

(** A gap of white space, and a block that starts with no white space and
    has no blank line inside. *)
Definition separated (p : string * string) : bool :=
  all_space p.1 && tight p.2 && starts_nonspace p.2.

(** One subtitle as it is written in a file: the id, the timestamp line and
    the lines of the text. *)
Record cue := { cue_id : Z; cue_time : string; cue_lines : list string }.

(** The block of a cue, line by line. *)
Definition cue_block (c : cue) : string :=
  Py.join nl (Py.str_of_int (cue_id c) :: cue_time c :: cue_lines c).

(** The entry a cue stands for. *)
Definition cue_entry (c : cue) : Subtitle.t :=
  Subtitle.mk (cue_id c) (cue_time c) (Py.join " " (cue_lines c)).

(** The timestamp and at least one line of text, all of them clean. *)
Definition cue_ok (c : cue) : bool :=
  clean (cue_time c) && forallb clean (cue_lines c)
  && negb (bool_decide (cue_lines c = [])).

(** A gap of white space and a cue as above. *)
Definition gap_and_cue_ok (p : string * cue) : bool :=
  all_space p.1 && cue_ok p.2.

(** The text of a file: a first cue, and more cues, each behind a newline,
    some white space and another newline. *)
Definition srt_text (c0 : cue) (more : list (string * cue)) : string :=
  cue_block c0 +:+ glue (prod_map id cue_block <$> more).

(** ** Calls *)

(** The inference call that [synthesize_with_cosyvoice] makes. *)
Definition inference_call (text prompt ins : string) (sd : Z) : call :=
  if Py.truthy ins then Instruct2 (Some sd) text ins
  else ZeroShot (Some sd) text prompt.

(** The reference files that were loaded, with the rate asked for. *)
Definition load_of_call (c : call) : option (string * Z) :=
  match c with LoadWav path rate => Some (path, rate) | _ => None end.

Definition loads (cs : list call) : list (string * Z) :=
  omap load_of_call cs.

(** ** The worlds of one synthesis *)

(** The world in which [load_wav] is asked for the reference by a synthesis
    that starts in [w]: the call is made, nothing else has changed. *)
Definition world_at_load (ref_path : string) (w : world) : world :=
  {| fs := fs w; stdout := stdout w; rng := rng w;
     calls := calls w ++ [LoadWav ref_path 16000] |}.

(** The world in which the engine is asked for the speech: the reference is
    loaded, the seed is installed, the instruct line is printed when there
    is an instruction, and the inference call is made. *)
Definition world_at_inference (text prompt ref_path ins : string) (sd : Z)
    (w : world) : world :=
  {| fs := fs w;
     stdout := stdout w ++ (if Py.truthy ins then [InstructMode ins] else []);
     rng := Some sd;
     calls := calls w ++ [LoadWav ref_path 16000; SetSeed sd;
                          inference_call text prompt ins sd] |}.

(** What the first [next] on the generator of the inference call gives, for
    the loaded reference [speech]. *)
Definition first_result (cosyvoice : engine) (text prompt ins : string)
    (speech : tensor) (w : world) : gen :=
  if Py.truthy ins then inference_instruct2 cosyvoice w text ins speech
  else inference_zero_shot cosyvoice w text prompt speech.

(** The world in which [torchaudio.save] is called with the samples [t]. *)
Definition world_at_save (out : string) (t : tensor) (rate : Z) (w : world)
  : world :=
  {| fs := fs w; stdout := stdout w; rng := rng w;
     calls := calls w ++ [Save out t rate] |}.

(** The world after that call has left the samples at [out]. *)
Definition world_saved (out : string) (t : tensor) (rate : Z) (w : world)
  : world :=
  {| fs := <[out := AudioFile t rate]> (fs w); stdout := stdout w;
     rng := rng w; calls := calls w ++ [Save out t rate] |}.

(** A synthesis that starts in [w] comes to save the samples [t]: the
    reference loads, the first result of the generator is [t], and the save
    does not fail. *)
Definition synthesises_to (cosyvoice : engine)
    (text prompt ref_path out ins : string) (sd : Z) (w : world) (t : tensor)
  : Prop :=
  let asked := world_at_inference text prompt ref_path ins sd w in
  exists speech,
    load_wav cosyvoice (world_at_load ref_path w) ref_path 16000 = inr speech /\
    first_result cosyvoice text prompt ins speech asked = GenYield t /\
    save_error cosyvoice (world_at_save out t (sample_rate cosyvoice) asked)
      out t (sample_rate cosyvoice) = None.

(** ** The end of a single-mode run *)

(** How a single-mode run ends: the last line it shows, and what it adds to
    the error stream. *)
Definition verdict (a : single_args) (r : string) (before after : session)
  : Prop :=
  last (shown after) = Some (inr (ErrReferenceFileMissing r)) /\
  stderr after = stderr before \/
  last (shown after) = Some (inr (SavedPath (single_output_path a))) /\
  stderr after = stderr before \/
  exists e, last (shown after) = Some (inr (ErrSingle e)) /\
            stderr after = stderr before ++ [e].

(** ** Reading what is no text file *)

(** What [open] and [read] raise for a node that is no text file. *)
Definition read_error (n : node) : option exn :=
  match n with
  | Dir => Some (OSError "IsADirectoryError")
  | AudioFile _ _ => Some (ValueError "UnicodeDecodeError")
  | TextFile _ => None
  end.

(** ** Inputs for the further properties *)

(** Two cues, the first with two lines of text. *)
Definition hello_cue : cue :=
  {| cue_id := 1; cue_time := "00:00:01,000 --> 00:00:02,000";
     cue_lines := ["Hello"; "there"] |}.

Definition world_cue : cue :=
  {| cue_id := 12; cue_time := "00:00:02,000 --> 00:00:03,000";
     cue_lines := ["World"] |}.

(** Two cues with a line of one space between them, written with CRLF. *)
Definition crlf_store : gmap string node :=
  {["subs.srt" := TextFile (to_crlf (srt_text hello_cue [(" ", world_cue)]))]}.

(** An engine whose generators yield nothing. *)
Definition silent_engine : engine :=
  {| sample_rate := 24000;
     load_wav := fun _ _ _ => inr [];
     inference_zero_shot := fun _ _ _ _ => GenStop;
     inference_instruct2 := fun _ _ _ _ => GenStop;
     save_error := fun _ _ _ _ => None |}.

(** A directory where the subtitle file should be. *)
Definition directory_store : gmap string node :=
  list_to_map [("subs.srt", Dir); ("refs", Dir)].

(** Single mode with the reference of the first segment. *)
Definition single_example : single_args :=
  {| common := example_args; text := "Hello";
     reference := Some "refs/segment_001.wav" |}.

(** Single mode started with a reference option of batch mode. *)
Definition no_reference_example : single_args :=
  {| common := example_args; text := "Hello"; reference := None |}.

(** A session that starts with the store [store] and nothing shown. *)
Definition fresh_session (store : gmap string node) : session :=
  {| inner := world_of store; shown := []; stderr := [] |}.

(** * Tactics *)

(** Membership in an explicit list of calls, case by case. *)
Ltac split_member H :=
  first
    [ apply elem_of_nil in H; destruct H
    | apply elem_of_cons in H as [H|H];
      [ first [discriminate H | injection H as ? ? ?; subst] | split_member H ] ].

(** The cases of one call of [synthesize_with_cosyvoice], once the messages
    and the calls of the case are given. *)
Ltac close_synthesize :=
  cbn; rewrite <- ?app_assoc, ?app_nil_r; cbn;
  split_and!; try (intros ? ? ? ?; split); auto;
  try (match goal with H : Save _ _ _ ∈ _ |- _ => split_member H end);
  try (left; split; reflexivity); try (right; split; reflexivity);
  try reflexivity; try discriminate; eauto.

(** * Properties *)

(** ** Running the effects *)

Lemma bind_ok {A B} (m : M A) (k : A -> M B) w a w' :
  m w = (Ok a, w') -> bind m k w = k a w'.
Proof. intros H. unfold bind. now rewrite H. Qed.

Lemma emit_nil w : emit w [] = w.
Proof. destruct w. unfold emit. cbn. now rewrite app_nil_r. Qed.

Lemma emit_emit w ms1 ms2 : emit (emit w ms1) ms2 = emit w (ms1 ++ ms2).
Proof. unfold emit. cbn. now rewrite app_assoc. Qed.

Lemma events_app out1 out2 : events (out1 ++ out2) = events out1 ++ events out2.
Proof. apply omap_app. Qed.

Lemma seeds_app cs1 cs2 : seeds (cs1 ++ cs2) = seeds cs1 ++ seeds cs2.
Proof. apply omap_app. Qed.

Lemma requests_app cs1 cs2 :
  requests (cs1 ++ cs2) = requests cs1 ++ requests cs2.
Proof. apply omap_app. Qed.

(** ** The Python primitives on examples *)

Example strip_example : Py.strip "  a b  " = "a b".
Proof. reflexivity. Qed.

Example split_example :
  Py.split Py.newline (document ["a"; ""; "bc"]) = ["a"; ""; "bc"].
Proof. reflexivity. Qed.

(** Two separators, the second at the very end: three pieces, the last one
    empty. *)
Example re_split_example :
  Py.re_split_blank (document ["a"; ""; " "; "b"; "c"; " "; ""])
  = ["a"; document ["b"; "c"]; ""].
Proof. reflexivity. Qed.

Example int_examples :
  Py.int <$> ["12"; "-1_2"; "1__2"; "_1"; "+007"; ""; "-"; "1 2"; " 12 "; "1.5"]
  = [Some 12; Some (-12); None; None; Some 7; None; None; None; Some 12; None].
Proof. reflexivity. Qed.

Example format_examples :
  Py.format_03d <$> [5; -5; 1234; 0; -123]
  = ["005"; "-05"; "1234"; "000"; "-123"].
Proof. reflexivity. Qed.

Example path_join_examples :
  (Py.path_join "a" "b", Py.path_join "a/" "b", Py.path_join "" "b",
   Py.path_join "a" "/b")
  = ("a/b", "a/b", "b", "/b").
Proof. reflexivity. Qed.

(** ** The reference lookup *)

Section Lookup.

Variable dir : string.
Variable w : world.

Let present (p : string) : bool := path_exists (fs w) p.

(** The loop returns the head of the candidates that exist, and leaves the
    world alone. *)
Lemma first_existing_head ps :
  first_existing (Some dir) ps w
  = (Ok (head (filter (fun p => present p = true) (map (Py.path_join dir) ps))), w).
Proof.
  induction ps as [|p ps IH]; [reflexivity|].
  cbn [first_existing map]. unfold bind, os_path_join, ret, os_path_exists.
  rewrite filter_cons. fold (present (Py.path_join dir p)).
  destruct (present (Py.path_join dir p)) eqn:E.
  - rewrite decide_True by reflexivity. reflexivity.
  - rewrite decide_False by discriminate. exact IH.
Qed.

Lemma head_filter_Some {A} (P : A -> Prop) `{!forall x, Decision (P x)}
    (l : list A) (x : A) :
  head (filter P l) = Some x <->
  exists i, l !! i = Some x /\ P x /\
            forall j y, (j < i)%nat -> l !! j = Some y -> ~ P y.
Proof.
  induction l as [|a l IH]; cbn.
  - split; [discriminate|]. intros (i & Hi & _). now rewrite lookup_nil in Hi.
  - destruct (decide (P a)) as [Ha|Ha]; cbn.
    + split.
      * intros [= ->]. exists 0%nat. repeat split; auto. intros j y Hj. lia.
      * intros (i & Hi & Hx & Hmin). destruct i as [|i]; [now inversion Hi|].
        exfalso. apply (Hmin 0%nat a); [lia|reflexivity|exact Ha].
    + rewrite IH. split.
      * intros (i & Hi & Hx & Hmin). exists (S i). repeat split; auto.
        intros [|j] y Hj Hy; cbn in Hy.
        -- now inversion Hy; subst.
        -- apply (Hmin j); [lia|exact Hy].
      * intros (i & Hi & Hx & Hmin). destruct i as [|i].
        -- inversion Hi; subst. contradiction.
        -- exists i. repeat split; auto. intros j y Hj Hy.
           apply (Hmin (S j)); [lia|exact Hy].
Qed.

Lemma head_filter_None {A} (P : A -> Prop) `{!forall x, Decision (P x)}
    (l : list A) :
  head (filter P l) = None <-> forall y, y ∈ l -> ~ P y.
Proof.
  induction l as [|a l IH]; cbn.
  - split; [|reflexivity]. intros _ y Hy. now apply elem_of_nil in Hy.
  - destruct (decide (P a)) as [Ha|Ha]; cbn.
    + split; [discriminate|]. intros Hall. exfalso.
      apply (Hall a); [left|exact Ha].
    + rewrite IH. split.
      * intros Hall y Hy. apply elem_of_cons in Hy as [->|Hy]; auto.
      * intros Hall y Hy. apply Hall. now right.
Qed.

End Lookup.

Lemma path_exists_insert store p n : path_exists (<[p := n]> store) p = true.
Proof.
  unfold path_exists. apply bool_decide_eq_true. rewrite lookup_insert_eq. eauto.
Qed.

(** C3. [find_reference_audio] returns the first candidate, in the order of
    [patterns], that exists on the filesystem, and nothing when none exists;
    the call changes nothing, so a second call returns the same. In a
    directory that holds both [segment_005.wav] and [segment5.mp3], id 5 with
    prefix [segment] gives the path of [segment_005.wav]. *)
Theorem find_reference_audio_first_match
    (d : string) (subtitle_id : Z) (audio_prefix : string) (w : world) :
  let candidates := map (Py.path_join d) (patterns audio_prefix subtitle_id) in
  let lookup := find_reference_audio (Some d) subtitle_id audio_prefix in
  (exists r,
      lookup w = (Ok r, w) /\
      (r1 <- lookup ;; r2 <- lookup ;; ret (r1, r2)) w = (Ok (r, r), w) /\
      (forall path, r = Some path <->
         exists i, candidates !! i = Some path /\
                   path_exists (fs w) path = true /\
                   forall j q, (j < i)%nat -> candidates !! j = Some q ->
                               path_exists (fs w) q = false) /\
      (r = None <->
         forall q, q ∈ candidates -> path_exists (fs w) q = false)) /\
  (forall n1 n2,
      let w5 := {| fs := <[Py.path_join d "segment_005.wav" := n1]>
                           (<[Py.path_join d "segment5.mp3" := n2]> (fs w));
                   stdout := stdout w; rng := rng w; calls := calls w |} in
      find_reference_audio (Some d) 5 "segment" w5
      = (Ok (Some (Py.path_join d "segment_005.wav")), w5)).
Proof.
  intros candidates lookup. split.
  - pose proof (first_existing_head d w (patterns audio_prefix subtitle_id)) as Hrun.
    fold candidates in Hrun.
    set (r := head (filter (fun p => path_exists (fs w) p = true) candidates)) in *.
    exists r. split; [exact Hrun|]. split; [|split].
    + unfold lookup, find_reference_audio.
      rewrite (bind_ok _ _ _ _ _ Hrun), (bind_ok _ _ _ _ _ Hrun). reflexivity.
    + intros path. unfold r. rewrite head_filter_Some.
      split; intros (i & Hi & Hp & Hmin); exists i; repeat split; auto.
      * intros j q Hj Hq. apply not_true_is_false. eauto.
      * intros j q Hj Hq. rewrite (Hmin j q Hj Hq). discriminate.
    + unfold r. rewrite head_filter_None. split; intros Hall q Hq.
      * apply not_true_is_false. eauto.
      * rewrite (Hall q Hq). discriminate.
  - intros n1 n2 w5. unfold find_reference_audio.
    change (patterns "segment" 5) with
      ("segment_005.wav" :: tail (patterns "segment" 5)).
    cbn [first_existing]. unfold bind, os_path_join, ret, os_path_exists.
    cbn [fs w5]. now rewrite path_exists_insert.
Qed.

(** ** The separator of [re.split] *)

Lemma length_append_string (s1 s2 : string) :
  String.length (s1 +:+ s2) = (String.length s1 + String.length s2)%nat.
Proof. induction s1 as [|c s1 IH]; simpl; [reflexivity|now f_equal]. Qed.

Lemma match_blank_tail_suffix s r :
  Py.match_blank_tail s = Some r ->
  exists pre, s = pre +:+ r /\ (0 < String.length pre)%nat.
Proof.
  revert r. induction s as [|c s IH]; intros r; cbn; [discriminate|].
  destruct (Py.is_space c); [|discriminate].
  destruct (Py.match_blank_tail s) as [r'|] eqn:E.
  - intros [= <-]. destruct (IH r' eq_refl) as (pre & -> & _).
    exists (String c pre). cbn. split; [reflexivity|lia].
  - destruct (Ascii.eqb c Py.newline); [|discriminate].
    intros [= <-]. exists (String c EmptyString). cbn. split; [reflexivity|lia].
Qed.

Lemma re_split_scan_skip pre cur r :
  Py.re_split_scan (String.length pre) cur (pre +:+ r) = Py.re_split_scan 0 cur r.
Proof. induction pre as [|c pre IH]; cbn; [reflexivity|exact IH]. Qed.

(** The scan, one character at a time: at a newline where the pattern
    matches, the piece is closed and the scan goes on behind the match;
    anywhere else the character joins the piece. *)
Lemma re_split_scan_step cur c s :
  Py.re_split_scan 0 cur (String c s)
  = if Ascii.eqb c Py.newline then
      match Py.match_blank_tail s with
      | Some r => String.rev cur :: Py.re_split_scan 0 EmptyString r
      | None => Py.re_split_scan 0 (String c cur) s
      end
    else Py.re_split_scan 0 (String c cur) s.
Proof.
  cbn [Py.re_split_scan]. destruct (Ascii.eqb c Py.newline); [|reflexivity].
  unfold Py.blank_tail_length.
  destruct (Py.match_blank_tail s) as [r|] eqn:E; [|reflexivity].
  destruct (match_blank_tail_suffix s r E) as (pre & -> & _).
  rewrite length_append_string.
  replace (String.length pre + String.length r - String.length r)%nat
    with (String.length pre) by lia.
  now rewrite re_split_scan_skip.
Qed.

(** ** The subtitle parser *)

Lemma parse_block_run block subtitles w :
  parse_block block subtitles w
  = (Ok (subtitles ++ option_list (entry_of_block block)),
     emit w (option_list (warning_of_block block))).
Proof.
  unfold parse_block, entry_of_block, warning_of_block.
  destruct (Py.split Py.newline (Py.strip block)) as [|l0 [|l1 [|l2 more]]];
    cbn -[Py.int Py.strip Py.join Py.prefix];
    try (unfold ret; now rewrite emit_nil, app_nil_r).
  destruct (Py.int (Py.strip l0)) as [n|]; cbn -[Py.strip Py.join Py.prefix].
  - unfold ret. now rewrite emit_nil.
  - unfold bind, print, ret. now rewrite app_nil_r.
Qed.

Lemma parse_blocks_run blocks subtitles w :
  for_each parse_block blocks subtitles w
  = (Ok (subtitles ++ omap entry_of_block blocks),
     emit w (omap warning_of_block blocks)).
Proof.
  revert subtitles w. induction blocks as [|b bs IH]; intros subtitles w.
  - cbn. unfold ret. now rewrite emit_nil, app_nil_r.
  - cbn [for_each]. rewrite (bind_ok _ _ _ _ _ (parse_block_run b subtitles w)).
    rewrite IH, emit_emit, <- app_assoc. f_equal. f_equal. f_equal.
    + cbn. now destruct (entry_of_block b).
    + cbn. now destruct (warning_of_block b).
Qed.

Lemma parse_content_run content w :
  let subtitles := omap entry_of_block (blocks_of content) in
  parse_content content w
  = (Ok subtitles,
     emit w (omap warning_of_block (blocks_of content)
             ++ [ParsedCount (length subtitles)])).
Proof.
  intros subtitles. unfold parse_content. fold (blocks_of content).
  rewrite (bind_ok _ _ _ _ _ (parse_blocks_run (blocks_of content) [] w)).
  cbn [app]. fold subtitles. unfold bind, print, ret. now rewrite emit_emit.
Qed.

(** C2, as stated, fails: a timestamp line that ends in a space is not kept as
    it is, the parser strips it. *)
Lemma parse_strips_the_timestamp :
  ~ parse_keeps_lines_verbatim padded_timestamp_document.
Proof.
  intros H. specialize (H empty_world). vm_compute in H. discriminate H.
Qed.

(** C2, amended. For every document [parse_content] returns, in the order of
    the blocks, one entry for each block that has at least three lines and
    whose first line, stripped, reads as an integer: the id is that integer,
    the timestamp is the second line stripped, the text is the other lines
    joined by single spaces and then stripped. Any other block is left out
    and the blocks after it are still parsed. The result is empty exactly
    when no block is of that form, as for the empty document. *)
Theorem parse_content_entries (content : string) (w : world) :
  (exists w',
      parse_content content w
      = (Ok (omap entry_of_block (blocks_of content)), w') /\
      fs w' = fs w) /\
  (forall block e,
      entry_of_block block = Some e <->
      exists first second third more,
        Py.split Py.newline (Py.strip block)
        = first :: second :: third :: more /\
        Py.int (Py.strip first) = Some (Subtitle.id e) /\
        Subtitle.timestamp e = Py.strip second /\
        Subtitle.text e = Py.strip (Py.join " " (third :: more))) /\
  (omap entry_of_block (blocks_of content) = [] <->
   Forall (fun block => entry_of_block block = None) (blocks_of content)) /\
  omap entry_of_block (blocks_of "") = [].
Proof.
  split; [|split; [|split]].
  - eexists. split; [apply parse_content_run|reflexivity].
  - intros block e. unfold entry_of_block.
    destruct (Py.split Py.newline (Py.strip block))
      as [|first [|second [|third more]]].
    1-3: split; [discriminate|]; intros (? & ? & ? & ? & [=] & _).
    split.
    + destruct (Py.int (Py.strip first)) as [n|] eqn:E; [|discriminate].
      intros [= <-]. now exists first, second, third, more.
    + intros (f & s & t & m & [= <- <- <- <-] & Hid & Hts & Htx).
      rewrite Hid. destruct e as [i ts tx]. cbn in *. now subst.
  - induction (blocks_of content) as [|b bs IH]; cbn.
    + split; [constructor|reflexivity].
    + destruct (entry_of_block b) eqn:E; cbn.
      * split; [discriminate|]. intros HF. inversion HF; congruence.
      * rewrite IH. split; [now constructor|]. intros HF. now inversion HF.
  - reflexivity.
Qed.

(** C7, as stated, fails: a block of two lines is left out and nothing is
    printed about it. *)
Lemma short_block_is_not_diagnosed :
  ~ every_failed_block_is_diagnosed two_line_document.
Proof.
  intros H.
  destruct (H empty_world two_line_document) as [e He].
  - change (blocks_of two_line_document) with [two_line_document]. left.
  - reflexivity.
  - vm_compute in He. apply list_elem_of_singleton in He. discriminate He.
Qed.

(** C7, amended. The warnings that [parse_content] prints are, in the order
    of the blocks, one for each block that has at least three lines and whose
    first line, stripped, does not read as an integer; a block of fewer than
    three lines is left out with no message. Either way the blocks after it
    are parsed. *)
Theorem parse_content_diagnostics (content : string) (w : world) :
  (exists w',
      parse_content content w
      = (Ok (omap entry_of_block (blocks_of content)), w') /\
      stdout w'
      = stdout w ++ omap warning_of_block (blocks_of content)
        ++ [ParsedCount (length (omap entry_of_block (blocks_of content)))]) /\
  (forall block m,
      warning_of_block block = Some m <->
      exists first second third more,
        Py.split Py.newline (Py.strip block)
        = first :: second :: third :: more /\
        Py.int (Py.strip first) = None /\
        m = WarnMalformedBlock (Py.prefix 50 block)
              (ValueError (Py.strip first))) /\
  (forall block m, warning_of_block block = Some m -> entry_of_block block = None) /\
  (forall block,
      (length (Py.split Py.newline (Py.strip block)) < 3)%nat ->
      entry_of_block block = None /\ warning_of_block block = None).
Proof.
  split; [|split; [|split]].
  - eexists. split; [apply parse_content_run|reflexivity].
  - intros block m. unfold warning_of_block.
    destruct (Py.split Py.newline (Py.strip block))
      as [|first [|second [|third more]]].
    1-3: split; [discriminate|]; intros (? & ? & ? & ? & [=] & _).
    split.
    + destruct (Py.int (Py.strip first)) as [n|] eqn:E; [discriminate|].
      intros [= <-]. now exists first, second, third, more.
    + intros (f & s & t & k & [= <- <- <- <-] & Hid & ->). now rewrite Hid.
  - intros block m. unfold warning_of_block, entry_of_block.
    destruct (Py.split Py.newline (Py.strip block))
      as [|first [|second [|third more]]]; try discriminate.
    now destruct (Py.int (Py.strip first)).
  - intros block Hlen. unfold warning_of_block, entry_of_block.
    destruct (Py.split Py.newline (Py.strip block))
      as [|first [|second [|third more]]]; try (split; reflexivity).
    cbn in Hlen. lia.
Qed.

Lemma parse_content_diagnostics_witness :
  (length (Py.split Py.newline (Py.strip two_line_document)) < 3)%nat /\
  entry_of_block two_line_document = None /\
  warning_of_block two_line_document = None.
Proof.
  split; [vm_compute; lia|].
  apply (parse_content_diagnostics two_line_document empty_world).
  vm_compute; lia.
Defined.

(** ** One call of [synthesize_with_cosyvoice] *)

Lemma synthesize_effect cosyvoice text prompt ref_path out ins sd w :
  exists ms cs,
    let run := synthesize_with_cosyvoice cosyvoice text prompt ref_path out ins sd w in
    stdout run.2 = stdout w ++ ms /\ events ms = [] /\
    calls run.2 = calls w ++ cs /\
    (seeds cs = [] /\ requests cs = [] \/
     seeds cs = [sd] /\ requests cs = [(Some sd, text)]) /\
    (forall p t r, Save p t r ∈ cs ->
       p = out /\ (run.1 = Ok tt -> fs run.2 = <[out := AudioFile t r]> (fs w))) /\
    (fs run.2 = fs w \/
     exists t r, run.1 = Ok tt /\ fs run.2 = <[out := AudioFile t r]> (fs w)).
Proof.
  unfold synthesize_with_cosyvoice, call_load_wav, set_all_random_seed,
    torchaudio_save, record_call, bind, ret, raise, print, emit.
  cbn.
  destruct (load_wav cosyvoice _ ref_path 16000) as [e|speech]; cbn.
  { exists [], [LoadWav ref_path 16000]. close_synthesize. }
  destruct (Py.truthy ins); cbn.
  - destruct (inference_instruct2 cosyvoice _ text ins speech) as [t| |e]; cbn.
    + destruct (save_error cosyvoice _ out t (sample_rate cosyvoice)) as [e|].
      all: exists [InstructMode ins],
             [LoadWav ref_path 16000; SetSeed sd; Instruct2 (Some sd) text ins;
              Save out t (sample_rate cosyvoice)].
      all: close_synthesize.
    + exists [InstructMode ins],
        [LoadWav ref_path 16000; SetSeed sd; Instruct2 (Some sd) text ins].
      close_synthesize.
    + exists [InstructMode ins],
        [LoadWav ref_path 16000; SetSeed sd; Instruct2 (Some sd) text ins].
      close_synthesize.
  - destruct (inference_zero_shot cosyvoice _ text prompt speech) as [t| |e]; cbn.
    + destruct (save_error cosyvoice _ out t (sample_rate cosyvoice)) as [e|].
      all: exists [],
             [LoadWav ref_path 16000; SetSeed sd; ZeroShot (Some sd) text prompt;
              Save out t (sample_rate cosyvoice)].
      all: close_synthesize.
    + exists [], [LoadWav ref_path 16000; SetSeed sd; ZeroShot (Some sd) text prompt].
      close_synthesize.
    + exists [], [LoadWav ref_path 16000; SetSeed sd; ZeroShot (Some sd) text prompt].
      close_synthesize.
Qed.

(** One call of [synthesize_with_cosyvoice], by what the engine answers. *)
Lemma synthesize_run cosyvoice text prompt ref_path out ins sd w :
  let asked := world_at_inference text prompt ref_path ins sd w in
  let rate := sample_rate cosyvoice in
  synthesize_with_cosyvoice cosyvoice text prompt ref_path out ins sd w
  = match load_wav cosyvoice (world_at_load ref_path w) ref_path 16000 with
    | inl e => (Raise e, world_at_load ref_path w)
    | inr speech =>
        match first_result cosyvoice text prompt ins speech asked with
        | GenYield t =>
            match save_error cosyvoice (world_at_save out t rate asked)
                    out t rate with
            | Some e => (Raise e, world_at_save out t rate asked)
            | None => (Ok tt, world_saved out t rate asked)
            end
        | GenStop => (Ok tt, asked)
        | GenRaise e => (Raise e, asked)
        end
    end.
Proof.
  cbv zeta.
  unfold synthesize_with_cosyvoice, call_load_wav, set_all_random_seed,
    torchaudio_save, record_call, bind, ret, raise, print, emit,
    world_at_load, world_at_inference, world_at_save, world_saved,
    first_result, inference_call.
  cbn [fs stdout rng calls].
  destruct (load_wav cosyvoice _ ref_path 16000) as [e|speech]; [reflexivity|].
  destruct (Py.truthy ins); cbn [fs stdout rng calls];
    rewrite <- ?app_assoc, ?app_nil_r; cbn [app].
  - now destruct (inference_instruct2 cosyvoice _ text ins speech).
  - now destruct (inference_zero_shot cosyvoice _ text prompt speech).
Qed.

(** ** The reference of one subtitle *)

Lemma reference_for_world a u subtitle_id w :
  (reference_for a u subtitle_id w).2 = w.
Proof.
  unfold reference_for. destruct u; [reflexivity|].
  unfold find_reference_audio. destruct (reference_dir a) as [d|].
  - now rewrite first_existing_head.
  - reflexivity.
Qed.

Lemma reference_for_given a subtitle_id w :
  reference_given a = true ->
  exists ref,
    reference_for a (Py.is_not_none (audio_path a)) subtitle_id w = (Ok ref, w).
Proof.
  unfold reference_given, reference_for. intros Hg.
  destruct (audio_path a) as [p|]; cbn [Py.is_not_none] in *.
  - now exists (Some p).
  - rewrite orb_false_r in Hg. destruct (reference_dir a) as [d|]; [|discriminate].
    unfold find_reference_audio. rewrite first_existing_head. eauto.
Qed.

Lemma reference_for_store a u subtitle_id w :
  (reference_for a u subtitle_id w).1
  = (reference_for a u subtitle_id (world_of (fs w))).1.
Proof.
  unfold reference_for. destruct u; [reflexivity|].
  unfold find_reference_audio. destruct (reference_dir a) as [d|].
  - now rewrite !first_existing_head.
  - reflexivity.
Qed.

(** ** One pass through the loop body *)

Section Step.

Variables (a : args) (cosyvoice : engine) (total : nat) (u : bool).
Variables (idx : nat) (s : Subtitle.t).

Let subtitle_id := Subtitle.id s.
Let out := output_path_of a subtitle_id.
Let fname := output_filename_of a subtitle_id.

(** The body with the plumbing of the effects removed. *)
Lemma process_subtitle_eq c w :
  process_subtitle a cosyvoice total u (idx, s) c w
  = let w0 := emit w (entry_lines total idx s) in
    match reference_for a u subtitle_id w0 with
    | (Raise e, w1) => (Raise e, w1)
    | (Ok (Some p), w1) =>
        if Py.truthy p then
          if skip_existing a && path_exists (fs w1) out then
            (Ok (add_skip c), emit w1 [SkipExisting fname])
          else
            match synthesize_with_cosyvoice cosyvoice (Subtitle.text s)
                    (prompt_text a) p out (instruct a)
                    (seed a + subtitle_id) w1 with
            | (Ok _, w2) => (Ok (add_success c), emit w2 [Saved fname])
            | (Raise e, w2) => (Ok (add_error c), emit w2 [ErrEntry subtitle_id e])
            end
        else (Ok (add_error c), emit w1 [WarnNoReference subtitle_id])
    | (Ok None, w1) => (Ok (add_error c), emit w1 [WarnNoReference subtitle_id])
    end.
Proof.
  unfold process_subtitle, entry_lines.
  cbn -[reference_for synthesize_with_cosyvoice].
  unfold bind at 1 2. unfold print at 1 2. rewrite emit_emit. cbn [app].
  unfold bind at 1.
  destruct (reference_for _ _ _ _) as [[[p|]|e] w1]; try reflexivity.
  destruct (Py.truthy p); [|reflexivity].
  unfold try_except, bind, os_path_exists, ret, print.
  fold subtitle_id. fold fname.
  change out with (Py.path_join (output a) fname).
  destruct (skip_existing a); cbn -[synthesize_with_cosyvoice].
  - destruct (path_exists (fs w1) (Py.path_join (output a) fname));
      [reflexivity|].
    now destruct (synthesize_with_cosyvoice _ _ _ _ _ _ _ _) as [[[]|e] w2].
  - now destruct (synthesize_with_cosyvoice _ _ _ _ _ _ _ _) as [[[]|e] w2].
Qed.

(** The lookup reads the filesystem and nothing else. *)
Lemma reference_for_fs w1 w2 :
  fs w1 = fs w2 ->
  (reference_for a u subtitle_id w1).1 = (reference_for a u subtitle_id w2).1.
Proof.
  intros Hfs. unfold reference_for. destruct u; [reflexivity|].
  unfold find_reference_audio. destruct (reference_dir a) as [d|].
  - rewrite !first_existing_head. cbn. now rewrite Hfs.
  - reflexivity.
Qed.

(** What one pass leaves behind: its lines, its calls, the store, and the
    counter it moved. *)
Lemma process_subtitle_step c w :
  let run := process_subtitle a cosyvoice total u (idx, s) c w in
  exists ms cs,
    stdout run.2 = stdout w ++ entry_lines total idx s ++ ms /\
    calls run.2 = calls w ++ cs /\
    (seeds cs = [] /\ requests cs = [] \/
   seeds cs = [seed a + subtitle_id] /\
   requests cs = [(Some (seed a + subtitle_id), Subtitle.text s)]) /\
    (forall p t r, Save p t r ∈ cs ->
       p = out /\
       (run.1 = Ok (add_success c) ->
        fs run.2 = <[out := AudioFile t r]> (fs w))) /\
    (fs run.2 = fs w \/
     exists t r, run.1 = Ok (add_success c) /\
                 fs run.2 = <[out := AudioFile t r]> (fs w)) /\
    match run.1 with
    | Raise e => (reference_for a u subtitle_id w).1 = Raise e
    | Ok c' =>
        exists o, c' = bump o c /\ events ms = [Recorded o] /\
          (o <> Error ->
           exists p, (reference_for a u subtitle_id w).1 = Ok (Some p) /\
                     Py.truthy p = true) /\
          (o = Skipped ->
           skip_existing a = true /\ path_exists (fs w) out = true /\
           cs = [] /\ fs run.2 = fs w)
    end.
Proof.
  intros run. unfold run. rewrite process_subtitle_eq. cbv zeta.
  set (w0 := emit w (entry_lines total idx s)).
  pose proof (reference_for_world a u subtitle_id w0) as Hw.
  pose proof (reference_for_fs w0 w eq_refl) as Hr.
  destruct (reference_for a u subtitle_id w0) as [[[p|]|e] w1];
    cbn [fst snd] in Hw, Hr; subst w1.
  - destruct (Py.truthy p) eqn:Hp.
    + destruct (skip_existing a && path_exists (fs w0) out) eqn:Hskip.
      * exists [SkipExisting fname], []. cbn. rewrite app_nil_r, <- app_assoc.
        apply andb_true_iff in Hskip as [Hs He].
        split_and!; auto.
        { intros p0 t r Hin. now apply elem_of_nil in Hin. }
        exists Skipped. split_and!; eauto.
      * destruct (synthesize_effect cosyvoice (Subtitle.text s) (prompt_text a)
                    p out (instruct a) (seed a + subtitle_id) w0)
          as (ms & cs & Hout & Hev & Hcalls & Hseeds & Hsave & Hfs).
        cbv zeta in *.
        destruct (synthesize_with_cosyvoice _ _ _ _ _ _ _ _) as [[[]|e] w2];
          cbn [fst snd] in *.
        -- exists (ms ++ [Saved fname]), cs. cbn.
           rewrite Hout. cbn. rewrite <- !app_assoc. split_and!; auto.
           ++ intros p0 t r Hin. destruct (Hsave p0 t r Hin) as [-> Hw2].
              split; [reflexivity|]. intros _. now apply Hw2.
           ++ destruct Hfs as [Hfs|(t & r & _ & Hfs)]; [now left|right].
              now exists t, r.
           ++ exists Success. rewrite events_app, Hev. cbn.
              split_and!; eauto; discriminate.
        -- exists (ms ++ [ErrEntry subtitle_id e]), cs. cbn.
           rewrite Hout. cbn. rewrite <- !app_assoc. split_and!; auto.
           ++ intros p0 t r Hin. destruct (Hsave p0 t r Hin) as [-> _].
              split; [reflexivity|]. intros [=]. lia.
           ++ destruct Hfs as [Hfs|(t & r & [=] & _)]. now left.
           ++ exists Error. rewrite events_app, Hev. cbn.
              split_and!; eauto; try discriminate; try congruence.
    + exists [WarnNoReference subtitle_id], []. cbn.
      rewrite app_nil_r, <- app_assoc. split_and!; auto.
      { intros p0 t r Hin. now apply elem_of_nil in Hin. }
      exists Error. split_and!; eauto; try discriminate; try congruence.
  - exists [WarnNoReference subtitle_id], []. cbn.
    rewrite app_nil_r, <- app_assoc. split_and!; auto.
    { intros p0 t r Hin. now apply elem_of_nil in Hin. }
    exists Error. split_and!; eauto; try discriminate; try congruence.
  - exists [], []. cbn. rewrite !app_nil_r. split_and!; auto.
    intros p0 t r Hin. now apply elem_of_nil in Hin.
Qed.

End Step.

(** A pass whose reference is usable and whose output is not skipped, when
    the synthesis comes to save [t]: the entry is a success and [t] is at
    the output path. *)
Lemma process_subtitle_saves a cosyvoice total u idx s c w p t :
  let out := output_path_of a (Subtitle.id s) in
  let start := emit w (entry_lines total idx s) in
  (reference_for a u (Subtitle.id s) w).1 = Ok (Some p) ->
  Py.truthy p = true ->
  skip_existing a && path_exists (fs w) out = false ->
  synthesises_to cosyvoice (Subtitle.text s) (prompt_text a) p out
    (instruct a) (seed a + Subtitle.id s) start t ->
  process_subtitle a cosyvoice total u (idx, s) c w
  = (Ok (add_success c),
     emit (world_saved out t (sample_rate cosyvoice)
             (world_at_inference (Subtitle.text s) (prompt_text a) p
                (instruct a) (seed a + Subtitle.id s) start))
       [Saved (output_filename_of a (Subtitle.id s))]).
Proof.
  intros out start Href Hp Hskip (speech & Hload & Hgen & Hsave).
  rewrite process_subtitle_eq. cbv zeta. fold start.
  pose proof (reference_for_world a u (Subtitle.id s) start) as Hw.
  pose proof (reference_for_store a u (Subtitle.id s) start) as Hr.
  change (fs start) with (fs w) in Hr.
  rewrite <- (reference_for_store a u (Subtitle.id s) w), Href in Hr.
  destruct (reference_for a u (Subtitle.id s) start) as [r w1].
  cbn [fst snd] in Hw, Hr. subst w1 r. rewrite Hp.
  change (fs start) with (fs w). fold out. rewrite Hskip.
  rewrite synthesize_run. cbv zeta. now rewrite Hload, Hgen, Hsave.
Qed.

(** C9. An entry whose reference lookup yields nothing is recorded as an
    error before the output path is looked at: the pass prints the warning,
    adds one to the error counter, and leaves the store and the calls as
    they were, whatever [skip_existing] is and whether or not the output
    file of the entry exists. *)
Theorem unresolved_reference_is_error
    (a : args) (cosyvoice : engine) (total : nat) (u : bool) (idx : nat)
    (s : Subtitle.t) (c : counters) (w : world) (ref : option string) :
  (reference_for a u (Subtitle.id s) w).1 = Ok ref ->
  Py.truthy_opt ref = false ->
  exists w',
    process_subtitle a cosyvoice total u (idx, s) c w = (Ok (add_error c), w') /\
    stdout w'
    = stdout w ++ entry_lines total idx s ++ [WarnNoReference (Subtitle.id s)] /\
    fs w' = fs w /\ calls w' = calls w.
Proof.
  intros Href Hfalsy. rewrite process_subtitle_eq. cbv zeta.
  set (w0 := emit w (entry_lines total idx s)).
  pose proof (reference_for_world a u (Subtitle.id s) w0) as Hw.
  pose proof (reference_for_fs a u s w0 w eq_refl) as Hr.
  rewrite Href in Hr.
  destruct (reference_for a u (Subtitle.id s) w0) as [r w1].
  cbn [fst snd] in Hw, Hr. subst w1 r.
  assert (Hend : exists w',
             (Ok (add_error c), emit w0 [WarnNoReference (Subtitle.id s)])
             = (Ok (add_error c), w') /\
             stdout w' = stdout w ++ entry_lines total idx s
                         ++ [WarnNoReference (Subtitle.id s)] /\
             fs w' = fs w /\ calls w' = calls w).
  { eexists. split; [reflexivity|]. cbn. now rewrite <- app_assoc. }
  destruct ref as [p|]; [|exact Hend].
  cbn in Hfalsy. rewrite Hfalsy. exact Hend.
Qed.

Lemma unresolved_reference_is_error_witness :
  skip_existing example_args = true /\
  path_exists third_output_present (output_path_of example_args 3) = true /\
  exists w',
    process_subtitle example_args example_engine 5 false
      (3%nat, example_subtitle 3) no_counts (world_of third_output_present)
    = (Ok (add_error no_counts), w') /\
    stdout w'
    = stdout (world_of third_output_present)
      ++ entry_lines 5 3 (example_subtitle 3) ++ [WarnNoReference 3] /\
    fs w' = fs (world_of third_output_present) /\
    calls w' = calls (world_of third_output_present).
Proof.
  split; [reflexivity|]. split; [reflexivity|].
  apply (unresolved_reference_is_error example_args example_engine 5 false 3
           (example_subtitle 3) no_counts (world_of third_output_present) None).
  - reflexivity.
  - reflexivity.
Defined.

(** ** The loop over the subtitles *)

Lemma tally_counts os c :
  success_count (tally os c) = (success_count c + count_outcome Success os)%nat /\
  skip_count (tally os c) = (skip_count c + count_outcome Skipped os)%nat /\
  error_count (tally os c) = (error_count c + count_outcome Error os)%nat.
Proof.
  revert c. induction os as [|o os IH]; intros c.
  - cbn. lia.
  - cbn [tally foldl]. fold (tally os (bump o c)).
    destruct (IH (bump o c)) as (H1 & H2 & H3). rewrite H1, H2, H3.
    unfold count_outcome. rewrite !filter_cons.
    destruct o; cbn; repeat case_decide; try congruence; cbn; lia.
Qed.

Lemma count_outcome_total os :
  (count_outcome Success os + count_outcome Skipped os + count_outcome Error os
   = length os)%nat.
Proof.
  unfold count_outcome. induction os as [|o os IH]; [reflexivity|].
  rewrite !filter_cons.
  destruct o; repeat case_decide; try congruence; cbn; lia.
Qed.

Lemma length_enumerate {A} (start : nat) (l : list A) :
  length (enumerate start l) = length l.
Proof. revert start. induction l; intros; cbn; auto. Qed.

Lemma enumerate_subtitles {A} (start : nat) (l : list A) :
  (enumerate start l).*2 = l.
Proof. revert start. induction l as [|x l IH]; intros; cbn; [|rewrite IH]; auto. Qed.

Section Loop.

Variables (a : args) (cosyvoice : engine) (total : nat) (u : bool).

Let body := process_subtitle a cosyvoice total u.

(** When the lookup cannot raise, every subtitle is attempted and gets one
    outcome, and the loop comes to its end. *)
Lemma for_each_outcomes items c w :
  (forall subtitle_id w0, exists ref,
      (reference_for a u subtitle_id w0).1 = Ok ref) ->
  exists os w',
    for_each body items c w = (Ok (tally os c), w') /\
    length os = length items /\
    events (stdout w') = events (stdout w) ++ batch_events items os.
Proof.
  intros Href. revert c w. induction items as [|[idx s] items IH]; intros c w.
  - exists [], w. cbn. now rewrite app_nil_r.
  - cbn [for_each]. unfold bind.
    destruct (process_subtitle_step a cosyvoice total u idx s c w)
      as (ms & cs & Hout & _ & _ & _ & _ & Hres).
    cbv zeta in Hout, Hres. fold body in Hout, Hres.
    destruct (body (idx, s) c w) as [[c1|e] w1]; cbn [fst snd] in *.
    + destruct Hres as (o & -> & Hev & _).
      destruct (IH (bump o c) w1) as (os & w' & Hrun & Hlen & Hevs).
      exists (o :: os), w'. split_and!.
      * exact Hrun.
      * cbn. now rewrite Hlen.
      * rewrite Hevs, Hout, !events_app, Hev. cbn. now rewrite <- app_assoc.
    + destruct (Href (Subtitle.id s) w) as [ref Hok]. congruence.
Qed.

(** Every seed installed during the loop is [seed a] plus the id of a
    subtitle of the list, in the order of the list, and the engine is asked
    for the text of that subtitle under that seed. *)
Lemma for_each_seeds items c w :
  exists reached,
    reached `sublist_of` items.*2 /\
    seeds (calls (for_each body items c w).2)
    = seeds (calls w) ++ map (fun s => seed a + Subtitle.id s) reached /\
    requests (calls (for_each body items c w).2)
    = requests (calls w)
      ++ map (fun s => (Some (seed a + Subtitle.id s), Subtitle.text s)) reached.
Proof.
  revert c w. induction items as [|[idx s] items IH]; intros c w.
  - exists []. cbn. split; [constructor|now rewrite !app_nil_r].
  - cbn [for_each]. unfold bind.
    destruct (process_subtitle_step a cosyvoice total u idx s c w)
      as (ms & cs & _ & Hcalls & Hseeds & _).
    cbv zeta in Hcalls. fold body in Hcalls.
    destruct (body (idx, s) c w) as [[c1|e] w1]; cbn [fst snd] in *.
    + destruct (IH c1 w1) as (reached & Hsub & Hrun & Hreq).
      rewrite Hrun, Hreq, Hcalls, seeds_app, requests_app, <- !app_assoc.
      destruct Hseeds as [[-> ->] | [-> ->]].
      * exists reached. split; [now apply sublist_cons|split; reflexivity].
      * exists (s :: reached). split; [now apply sublist_skip|split; reflexivity].
    + rewrite Hcalls, seeds_app, requests_app.
      destruct Hseeds as [[-> ->] | [-> ->]].
      * exists []. split; [apply sublist_nil_l|split; reflexivity].
      * exists [s]. split; [apply sublist_skip, sublist_nil_l|split; reflexivity].
Qed.

End Loop.

(** The loop of a batch job with a reference: it ends, and the output and
    the counters show one outcome for each entry. *)
Lemma process_subtitles_outcomes
    (a : args) (cosyvoice : engine) (subtitles : list Subtitle.t)
    (c0 : counters) (w : world) :
  reference_given a = true ->
  exists os w',
    process_subtitles a cosyvoice subtitles c0 w = (Ok (tally os c0), w') /\
    length os = length subtitles /\
    events (stdout w')
    = events (stdout w) ++ batch_events (enumerate 1 subtitles) os.
Proof.
  intros Hg. unfold process_subtitles.
  destruct (for_each_outcomes a cosyvoice (length subtitles)
              (Py.is_not_none (audio_path a)) (enumerate 1 subtitles) c0 w)
    as (os & w' & Hrun & Hlen & Hev).
  { intros subtitle_id w0.
    destruct (reference_for_given a subtitle_id w0 Hg) as [ref Href].
    exists ref. now rewrite Href. }
  rewrite length_enumerate in Hlen. now exists os, w'.
Qed.

(** X20. In a batch run with a reference directory or a shared reference
    audio, the loop comes to its end whatever happens to single entries, and
    the output shows every entry attempted once, in order, each followed by
    exactly one outcome; each counter is the number of outcomes of its kind,
    so the three add up to the number of entries. *)
Theorem batch_records_one_outcome_per_entry
    (a : args) (cosyvoice : engine) (subtitles : list Subtitle.t) (w : world) :
  reference_given a = true ->
  exists os c w',
    process_subtitles a cosyvoice subtitles no_counts w = (Ok c, w') /\
    length os = length subtitles /\
    events (stdout w')
    = events (stdout w) ++ batch_events (enumerate 1 subtitles) os /\
    success_count c = count_outcome Success os /\
    skip_count c = count_outcome Skipped os /\
    error_count c = count_outcome Error os /\
    (success_count c + skip_count c + error_count c = length subtitles)%nat.
Proof.
  intros Hg.
  destruct (process_subtitles_outcomes a cosyvoice subtitles no_counts w Hg)
    as (os & w' & Hrun & Hlen & Hev).
  destruct (tally_counts os no_counts) as (H1 & H2 & H3). cbn in H1, H2, H3.
  exists os, (tally os no_counts), w'. split_and!; auto.
  rewrite H1, H2, H3, <- Hlen. apply count_outcome_total.
Qed.

Lemma batch_records_one_outcome_per_entry_witness :
  reference_given example_args = true /\
  exists os c w',
    process_subtitles example_args example_engine five_subtitles no_counts
      (world_of example_store) = (Ok c, w') /\
    length os = length five_subtitles /\
    events (stdout w')
    = events (stdout (world_of example_store))
      ++ batch_events (enumerate 1 five_subtitles) os /\
    success_count c = count_outcome Success os /\
    skip_count c = count_outcome Skipped os /\
    error_count c = count_outcome Error os /\
    (success_count c + skip_count c + error_count c = length five_subtitles)%nat.
Proof.
  split; [reflexivity|].
  apply (batch_records_one_outcome_per_entry example_args example_engine
           five_subtitles (world_of example_store)).
  reflexivity.
Defined.

(** C1, at the input where the code departs from it: a batch run with
    neither a reference directory nor a shared reference audio (the command
    line [--srt subs.srt --reference voice.wav]) over a file of two
    entries. The checks pass; the lookup for the first entry, which is
    outside the [try], raises out of the loop: the first entry is attempted
    and gets no outcome, the second is never attempted, no call is made and
    no counter is reported. *)
Theorem entry_left_without_outcome :
  let run := process_batch_mode single_reference_args example_engine
               (world_of two_entry_store) in
  reference_given single_reference_args = false /\
  reference_missing single_reference_args two_entry_store = false /\
  Subtitle.id <$> subtitles_of two_entry_document = [1; 2] /\
  run.1 = Raise (TypeError "expected str, bytes or os.PathLike object, not NoneType") /\
  events (stdout run.2) = [Attempt 1 1] /\
  calls run.2 = [].
Proof. vm_compute. split_and!; reflexivity. Qed.

(** Five entries, the third without a reference: five outcomes, an error for
    id 3 and a success for every other id. *)
Example five_entries_one_missing_reference :
  let run := process_subtitles example_args example_engine five_subtitles
               no_counts (world_of example_store) in
  run.1 = Ok {| success_count := 4; skip_count := 0; error_count := 1 |} /\
  events (stdout run.2)
  = batch_events (enumerate 1 five_subtitles)
      [Success; Success; Error; Success; Success].
Proof. vm_compute. split; reflexivity. Qed.

(** C4. Every seed installed at the synthesis boundary during the loop is
    [seed a] plus the id of the subtitle being synthesised, and every request
    to the engine is for the text of such a subtitle under that seed, in the
    order of the subtitles. So the base seed and the id fix the seed; another
    base seed gives another seed for every id, and the difference between
    the seeds of two entries does not depend on the base seed. *)
Theorem batch_seeds
    (a : args) (cosyvoice : engine) (subtitles : list Subtitle.t)
    (c : counters) (w : world) :
  (exists reached,
      reached `sublist_of` subtitles /\
      seeds (calls (process_subtitles a cosyvoice subtitles c w).2)
      = seeds (calls w) ++ map (fun s => seed a + Subtitle.id s) reached /\
      requests (calls (process_subtitles a cosyvoice subtitles c w).2)
      = requests (calls w)
        ++ map (fun s => (Some (seed a + Subtitle.id s), Subtitle.text s))
             reached) /\
  (forall (a' : args) (s t : Subtitle.t),
      let seed_of (x : args) (e : Subtitle.t) := seed x + Subtitle.id e in
      (seed a' = seed a -> seed_of a' s = seed_of a s) /\
      (seed a' <> seed a -> seed_of a' s <> seed_of a s) /\
      seed_of a' s - seed_of a' t = seed_of a s - seed_of a t).
Proof.
  split.
  - unfold process_subtitles.
    destruct (for_each_seeds a cosyvoice (length subtitles)
                (Py.is_not_none (audio_path a)) (enumerate 1 subtitles) c w)
      as (reached & Hsub & Hrun & Hreq).
    rewrite enumerate_subtitles in Hsub. now exists reached.
  - intros a' s t seed_of. unfold seed_of. split_and!; intros; lia.
Qed.

Lemma batch_seeds_witness :
  seed other_seed_args <> seed example_args /\
  seed other_seed_args + Subtitle.id (example_subtitle 1)
  <> seed example_args + Subtitle.id (example_subtitle 1).
Proof.
  split; [cbn; lia|].
  destruct (batch_seeds example_args example_engine five_subtitles no_counts
              (world_of example_store)) as [_ Hshift].
  apply (Hshift other_seed_args (example_subtitle 1) (example_subtitle 1)).
  cbn. lia.
Defined.

Example seeds_of_the_five_entries :
  requests (calls (process_subtitles example_args example_engine five_subtitles
                     no_counts (world_of example_store)).2)
  = [(Some 43, "Hello"); (Some 44, "Hello"); (Some 46, "Hello");
     (Some 47, "Hello")].
Proof. vm_compute. reflexivity. Qed.

(** ** Running the batch again *)

Lemma path_exists_insert_mono store q n p :
  path_exists store p = true -> path_exists (<[q := n]> store) p = true.
Proof.
  unfold path_exists. rewrite !bool_decide_eq_true. intros Hp.
  destruct (decide (q = p)) as [->|Hne].
  - rewrite lookup_insert_eq. eauto.
  - now rewrite lookup_insert_ne.
Qed.

Lemma truthy_append_r x y : Py.truthy y = true -> Py.truthy (x +:+ y) = true.
Proof. destruct x; cbn; auto. Qed.

Lemma truthy_path_join d b : Py.truthy b = true -> Py.truthy (Py.path_join d b) = true.
Proof.
  intros Hb. unfold Py.path_join. destruct (Py.starts_with_sep b); [exact Hb|].
  destruct (negb (Py.truthy d) || Py.ends_with_sep d);
    repeat apply truthy_append_r; exact Hb.
Qed.

Lemma patterns_truthy audio_prefix subtitle_id :
  Forall (fun p => Py.truthy p = true) (patterns audio_prefix subtitle_id).
Proof.
  unfold patterns.
  repeat (apply Forall_cons; split);
    [repeat first [reflexivity | apply truthy_append_r].. | apply Forall_nil].
  all: exact I.
Qed.

Lemma resolves_keeps a u subtitle_id store store' :
  keeps_paths store store' ->
  resolves a u subtitle_id store -> resolves a u subtitle_id store'.
Proof.
  intros Hkeep (p & Hp & Ht). unfold resolves, reference_for in *.
  destruct u; [now exists p|].
  unfold find_reference_audio in *. destruct (reference_dir a) as [d|];
    [|discriminate].
  rewrite first_existing_head in *. cbn [fst fs world_of] in *.
  injection Hp as Hp. apply head_filter_Some in Hp as (i & Hi & Hex & _).
  destruct (head (filter (fun q => path_exists store' q = true)
                    (map (Py.path_join d)
                       (patterns (audio_prefix a) subtitle_id)))) as [q|] eqn:E.
  - exists q. split; [reflexivity|].
    apply head_filter_Some in E as (j & Hj & _).
    apply list_lookup_fmap_Some in Hj as (b & -> & Hb).
    apply truthy_path_join.
    pose proof (patterns_truthy (audio_prefix a) subtitle_id) as Hall.
    rewrite Forall_forall in Hall. apply Hall.
    eapply list_elem_of_lookup_2. exact Hb.
  - exfalso. rewrite head_filter_None in E. apply (E p).
    + eapply list_elem_of_lookup_2. exact Hi.
    + apply Hkeep. exact Hex.
Qed.

Lemma keeps_paths_refl store : keeps_paths store store.
Proof. intros p Hp. exact Hp. Qed.

Lemma keeps_paths_trans s1 s2 s3 :
  keeps_paths s1 s2 -> keeps_paths s2 s3 -> keeps_paths s1 s3.
Proof. intros H12 H23 p Hp. apply H23, H12, Hp. Qed.

Lemma error_count_bump o c :
  (error_count c <= error_count (bump o c))%nat /\
  (error_count (bump o c) = error_count c -> o <> Error).
Proof. destruct o; cbn; split; try lia; intros; try discriminate. Qed.

Lemma tally_all_skipped n c :
  tally (replicate n Skipped) c
  = {| success_count := success_count c; skip_count := skip_count c + n;
       error_count := error_count c |}.
Proof.
  revert c. induction n as [|n IH]; intros c.
  - destruct c. cbn. now rewrite Nat.add_0_r.
  - cbn [replicate tally foldl]. fold (tally (replicate n Skipped) (bump Skipped c)).
    rewrite IH. cbn. f_equal. lia.
Qed.

Section Rerun.

Variables (a : args) (cosyvoice : engine) (total : nat) (u : bool).

Let body := process_subtitle a cosyvoice total u.

(** A run of the loop only adds files; when it ends with the error counter
    where it started, every subtitle of the list still has a usable
    reference afterwards. *)
Lemma for_each_first_run items c w c' w' :
  for_each body items c w = (Ok c', w') ->
  (error_count c <= error_count c')%nat /\
  keeps_paths (fs w) (fs w') /\
  (error_count c' = error_count c ->
   forall item, item ∈ items -> resolves a u (Subtitle.id item.2) (fs w')).
Proof.
  revert c w. induction items as [|[idx s] items IH]; intros c w Hrun.
  - cbn in Hrun. injection Hrun as <- <-. split_and!; [lia|apply keeps_paths_refl|].
    intros _ item Hin. now apply elem_of_nil in Hin.
  - cbn [for_each] in Hrun. unfold bind in Hrun.
    destruct (process_subtitle_step a cosyvoice total u idx s c w)
      as (ms & cs & _ & _ & _ & _ & Hfs & Hres).
    cbv zeta in Hfs, Hres. fold body in Hfs, Hres.
    destruct (body (idx, s) c w) as [[c1|e] w1]; [|discriminate Hrun].
    cbn [fst snd] in *.
    destruct Hres as (o & -> & _ & Hresolved & _).
    destruct (IH _ _ Hrun) as (Hle & Hkeep & Hrest).
    destruct (error_count_bump o c) as [Hle1 Hne].
    assert (Hkeep1 : keeps_paths (fs w) (fs w1)).
    { destruct Hfs as [->|(t & r & _ & ->)]; [apply keeps_paths_refl|].
      intros p Hp. now apply path_exists_insert_mono. }
    split_and!; [lia|eapply keeps_paths_trans; eauto|].
    intros Heq item Hin. apply elem_of_cons in Hin as [->|Hin].
    + cbn [snd]. apply (resolves_keeps a u _ (fs w)).
      * eapply keeps_paths_trans; eauto.
      * destruct Hresolved as (p & Hp & Ht); [apply Hne; lia|].
        exists p. split; [|exact Ht]. now rewrite <- reference_for_store.
    + apply Hrest; [lia|exact Hin].
Qed.

(** With [skip_existing] set, a list whose subtitles all have a usable
    reference and an output file on disk is skipped entry by entry, with
    no call and no change to the store. *)
Lemma for_each_all_skipped items c w :
  skip_existing a = true ->
  (forall item, item ∈ items ->
     resolves a u (Subtitle.id item.2) (fs w) /\
     path_exists (fs w) (output_path_of a (Subtitle.id item.2)) = true) ->
  exists w',
    for_each body items c w
    = (Ok (tally (replicate (length items) Skipped) c), w') /\
    fs w' = fs w /\ calls w' = calls w /\
    events (stdout w')
    = events (stdout w)
      ++ batch_events items (replicate (length items) Skipped).
Proof.
  intros Hskip. revert c w.
  induction items as [|[idx s] items IH]; intros c w Hall.
  - exists w. cbn. now rewrite app_nil_r.
  - destruct (Hall (idx, s)) as [(p & Hp & Ht) Hout]; [left|].
    cbn [snd] in Hp, Hout.
    cbn [for_each]. unfold bind. unfold body at 1.
    rewrite process_subtitle_eq. cbv zeta.
    set (w0 := emit w (entry_lines total idx s)).
    pose proof (reference_for_world a u (Subtitle.id s) w0) as Hw.
    pose proof (reference_for_store a u (Subtitle.id s) w0) as Hr.
    change (fs w0) with (fs w) in Hr. rewrite Hp in Hr.
    destruct (reference_for a u (Subtitle.id s) w0) as [r w1].
    cbn [fst snd] in Hw, Hr. subst w1 r. rewrite Ht.
    change (fs w0) with (fs w). rewrite Hskip, Hout. cbn [andb].
    set (w1 := emit w0 _).
    destruct (IH (add_skip c) w1) as (w' & Hrun & Hfs & Hcalls & Hev).
    { intros item Hin. apply Hall. now right. }
    exists w'. split_and!.
    + exact Hrun.
    + exact Hfs.
    + exact Hcalls.
    + rewrite Hev. unfold w1, w0. cbn. rewrite !events_app, <- !app_assoc.
      reflexivity.
Qed.

End Rerun.

(** C5, as stated, fails: an entry without a reference is an error in the
    first run and an error again in the second. *)
Lemma second_run_repeats_the_error :
  ~ second_run_skips_all example_args example_engine five_subtitles
      (world_of example_store).
Proof.
  intros H. destruct (H eq_refl) as [_ Hsecond].
  vm_compute in Hsecond. discriminate Hsecond.
Qed.

(** C5, amended. With [skip_existing] set, after a first run that recorded no
    error and left the output file of every entry on disk, a second run over
    the same entries makes no call to the engine, changes no file, and
    records every entry as skipped. *)
Theorem second_run_skips_everything
    (a : args) (cosyvoice : engine) (subtitles : list Subtitle.t)
    (w : world) (c1 : counters) (w1 : world) :
  skip_existing a = true ->
  process_subtitles a cosyvoice subtitles no_counts w = (Ok c1, w1) ->
  error_count c1 = 0%nat ->
  forallb (fun s => path_exists (fs w1) (output_path_of a (Subtitle.id s)))
    subtitles = true ->
  exists w2,
    process_subtitles a cosyvoice subtitles no_counts w1
    = (Ok (all_skipped (length subtitles)), w2) /\
    fs w2 = fs w1 /\ calls w2 = calls w1 /\
    events (stdout w2)
    = events (stdout w1)
      ++ batch_events (enumerate 1 subtitles)
           (replicate (length subtitles) Skipped).
Proof.
  intros Hskip Hfirst Herr Hout. unfold process_subtitles in *.
  apply for_each_first_run in Hfirst as (_ & _ & Hres).
  destruct (for_each_all_skipped a cosyvoice (length subtitles)
              (Py.is_not_none (audio_path a)) (enumerate 1 subtitles)
              no_counts w1 Hskip) as (w2 & Hrun & Hfs & Hcalls & Hev).
  { intros item Hin. split; [now apply Hres|].
    rewrite forallb_forall in Hout. apply Hout.
    apply list_elem_of_In. rewrite <- (enumerate_subtitles 1 subtitles).
    apply list_elem_of_fmap. now exists item. }
  rewrite length_enumerate in Hrun, Hev. rewrite tally_all_skipped in Hrun.
  exists w2. split_and!; auto.
Qed.

Lemma second_run_skips_everything_witness :
  exists w2,
    process_subtitles example_args example_engine four_subtitles no_counts
      after_first_run
    = (Ok (all_skipped (length four_subtitles)), w2) /\
    fs w2 = fs after_first_run /\ calls w2 = calls after_first_run /\
    events (stdout w2)
    = events (stdout after_first_run)
      ++ batch_events (enumerate 1 four_subtitles)
           (replicate (length four_subtitles) Skipped).
Proof.
  apply (second_run_skips_everything example_args example_engine
           four_subtitles (world_of example_store)
           {| success_count := 4; skip_count := 0; error_count := 0 |}
           after_first_run).
  - reflexivity.
  - vm_compute. reflexivity.
  - reflexivity.
  - vm_compute. reflexivity.
Defined.

(** ** The whole of [process_batch_mode] *)

Lemma print_summary_run total c w :
  print_summary total c w = (Ok tt, emit w (summary_lines total c)).
Proof.
  unfold print_summary, summary_lines, bind, print, ret.
  rewrite !emit_emit. cbn [app]. destruct (0 <? total)%nat.
  - now rewrite emit_emit.
  - reflexivity.
Qed.

Lemma parse_srt_run path raw w :
  fs w !! path = Some (TextFile raw) ->
  parse_srt path w
  = (Ok (subtitles_of raw),
     emit w ([ParsingSrt path] ++ warnings_of raw
             ++ [ParsedCount (length (subtitles_of raw))])).
Proof.
  intros Hfile. unfold parse_srt, bind, print, read_text.
  cbn [fs emit]. rewrite Hfile. rewrite parse_content_run. cbv zeta.
  now rewrite emit_emit.
Qed.

Lemma events_warnings blocks : events (omap warning_of_block blocks) = [].
Proof.
  induction blocks as [|b bs IH]; [reflexivity|]. cbn.
  destruct (warning_of_block b) as [m|] eqn:E; [|exact IH].
  unfold warning_of_block in E.
  destruct (Py.split Py.newline (Py.strip b)) as [|? [|? [|? ?]]];
    try discriminate.
  destruct (Py.int _); [discriminate|]. injection E as <-. exact IH.
Qed.

(** The run once the subtitle file is there and the reference check has
    passed. *)
Lemma process_batch_mode_run a cosyvoice w raw :
  fs w !! srt a = Some (TextFile raw) ->
  reference_missing a (fs w) = false ->
  process_batch_mode a cosyvoice w
  = let n := length (subtitles_of raw) in
    let w1 := emit w (banner ++ [ParsingSrt (srt a)] ++ warnings_of raw
                      ++ [ParsedCount n]) in
    match subtitles_of raw with
    | [] => (Ok tt, emit w1 [ErrNoSubtitles])
    | _ :: _ =>
        match process_subtitles a cosyvoice (subtitles_of raw) no_counts
                (emit w1 [Processing n; Dashes]) with
        | (Ok c, w2) => (Ok tt, emit w2 (summary_lines n c))
        | (Raise e, w2) => (Raise e, w2)
        end
    end.
Proof.
  intros Hfile Hcheck. unfold process_batch_mode.
  unfold bind at 1 2 3. unfold print at 1 2 3. rewrite !emit_emit. cbn [app].
  unfold bind at 1. unfold os_path_exists at 1. cbn [fs emit].
  unfold path_exists. rewrite Hfile.
  rewrite bool_decide_eq_true_2 by eauto. cbn [negb].
  unfold bind at 1. cbn beta. cbn [fs emit]. rewrite Hcheck.
  unfold bind at 1. rewrite (parse_srt_run _ raw) by exact Hfile.
  rewrite emit_emit. cbv zeta. unfold banner. cbn [app].
  destruct (subtitles_of raw) as [|s0 rest] eqn:Hsubs.
  - unfold print. now rewrite emit_emit.
  - unfold bind at 1 2. unfold print at 1 2. rewrite !emit_emit.
    unfold bind at 1. cbn [app].
    destruct (process_subtitles _ _ _ _ _) as [[c|e] w2]; [|reflexivity].
    apply print_summary_run.
Qed.

(** The summary block on its own, for a total of 0, has no rate line. No
    batch run gets there: a run without entries returns before the loop. *)
Lemma no_rate_for_an_empty_total : ~ summary_reports_rate 0 no_counts.
Proof.
  intros H. destruct (H empty_world) as (n & d & Hin & _).
  vm_compute in Hin. split_member Hin.
Qed.

(** X21. A batch run that gets past its checks (the subtitle file is
    there, the reference check passes, at least one entry is parsed) and has
    a reference directory or a shared reference audio always ends with the
    summary: the total, which is the number of entries and of outcomes, the
    three counters, which are the numbers of outcomes of each kind, and the
    rate of [success_count] over the total. The rate is printed only for a
    total above 0; for a total of 0 the summary stops after the counters. *)
Theorem batch_prints_the_summary
    (a : args) (cosyvoice : engine) (w : world) (raw : string) :
  reference_given a = true ->
  fs w !! srt a = Some (TextFile raw) ->
  reference_missing a (fs w) = false ->
  (0 < length (subtitles_of raw))%nat ->
  (exists os c before w',
      process_batch_mode a cosyvoice w = (Ok tt, w') /\
      length os = length (subtitles_of raw) /\
      events before
      = events (stdout w) ++ batch_events (enumerate 1 (subtitles_of raw)) os /\
      success_count c = count_outcome Success os /\
      skip_count c = count_outcome Skipped os /\
      error_count c = count_outcome Error os /\
      (success_count c + skip_count c + error_count c
       = length (subtitles_of raw))%nat /\
      stdout w'
      = before
        ++ [Separator true; SummaryTitle; Separator false;
            SummaryTotal (length (subtitles_of raw));
            SummarySuccess (success_count c); SummarySkipped (skip_count c);
            SummaryErrors (error_count c);
            SummaryRate (success_count c) (length (subtitles_of raw))]) /\
  (forall c0 w0,
      print_summary 0 c0 w0
      = (Ok tt,
         emit w0 [Separator true; SummaryTitle; Separator false;
                  SummaryTotal 0; SummarySuccess (success_count c0);
                  SummarySkipped (skip_count c0);
                  SummaryErrors (error_count c0)])).
Proof.
  intros Hg Hfile Hcheck Hlen. split; [|intros; apply print_summary_run].
  rewrite (process_batch_mode_run a cosyvoice w raw Hfile Hcheck). cbv zeta.
  set (n := length (subtitles_of raw)) in *.
  destruct (subtitles_of raw) as [|s0 rest] eqn:Hsubs; [cbn in Hlen; lia|].
  set (w1 := emit (emit w _) _).
  destruct (process_subtitles_outcomes a cosyvoice (s0 :: rest) no_counts w1 Hg)
    as (os & w2 & Hrun & Hos & Hev).
  destruct (tally_counts os no_counts) as (H1 & H2 & H3). cbn in H1, H2, H3.
  rewrite Hrun.
  exists os, (tally os no_counts), (stdout w2),
    (emit w2 (summary_lines n (tally os no_counts))).
  split_and!; auto.
  2: { rewrite H1, H2, H3. fold n in Hos. rewrite <- Hos.
       apply count_outcome_total. }
  rewrite Hev. f_equal. unfold w1. cbn [stdout emit].
    rewrite !events_app. unfold warnings_of. rewrite events_warnings.
    unfold banner, events. cbn. now rewrite !app_nil_r.
Qed.

Lemma batch_prints_the_summary_witness :
  exists os c before w',
    process_batch_mode example_args example_engine (world_of two_entry_store)
    = (Ok tt, w') /\
    length os = length (subtitles_of two_entry_document) /\
    events before
    = events (stdout (world_of two_entry_store))
      ++ batch_events (enumerate 1 (subtitles_of two_entry_document)) os /\
    success_count c = count_outcome Success os /\
    skip_count c = count_outcome Skipped os /\
    error_count c = count_outcome Error os /\
    (success_count c + skip_count c + error_count c
     = length (subtitles_of two_entry_document))%nat /\
    stdout w'
    = before
      ++ [Separator true; SummaryTitle; Separator false;
          SummaryTotal (length (subtitles_of two_entry_document));
          SummarySuccess (success_count c); SummarySkipped (skip_count c);
          SummaryErrors (error_count c);
          SummaryRate (success_count c)
            (length (subtitles_of two_entry_document))].
Proof.
  apply (batch_prints_the_summary example_args example_engine
           (world_of two_entry_store) two_entry_document).
  - reflexivity.
  - reflexivity.
  - reflexivity.
  - vm_compute. lia.
Defined.

(** C8, at the input where the code departs from it: the run of
    [--srt subs.srt --reference voice.wav] over a file of two entries has
    begun processing, the header of the first entry is printed, and it ends
    there with the [TypeError] of the lookup; no summary is printed. *)
Theorem summary_is_lost_with_the_first_entry :
  let run := process_batch_mode single_reference_args example_engine
               (world_of two_entry_store) in
  run.1 = Raise (TypeError "expected str, bytes or os.PathLike object, not NoneType") /\
  stdout run.2
  = banner
    ++ [ParsingSrt "subs.srt"; ParsedCount 2; Processing 2; Dashes;
        EntryHeader 1 2 1; EntryText "Hello" false] /\
  SummaryTitle ∉ stdout run.2.
Proof.
  vm_compute. split_and!; try reflexivity.
  intros Hin. split_member Hin.
Qed.

(** The end-to-end run: two entries, both synthesised, with the seeds 43 and
    44, into [clone_001.wav] and [clone_002.wav]. *)
Example two_entries_end_to_end :
  let run := process_batch_mode example_args example_engine
               (world_of two_entry_store) in
  run.1 = Ok tt /\
  seeds (calls run.2) = [43; 44] /\
  (fs run.2 !! "out/clone_001.wav", fs run.2 !! "out/clone_002.wav")
  = (Some (AudioFile [1] 24000), Some (AudioFile [2] 24000)) /\
  drop 13 (stdout run.2)
  = [Separator true; SummaryTitle; Separator false; SummaryTotal 2;
     SummarySuccess 2; SummarySkipped 0; SummaryErrors 0; SummaryRate 2 2].
Proof. vm_compute. repeat split; reflexivity. Qed.

(** ** The checks before the loop *)

(** Where the run does stop early: it prints one error after the banner (the
    parser's lines before it in the third case) and does nothing else. *)
Lemma preflight_stops a cosyvoice w :
  (path_exists (fs w) (srt a) = false ->
   process_batch_mode a cosyvoice w
   = (Ok tt, emit w (banner ++ [ErrSrtMissing (srt a)]))) /\
  (path_exists (fs w) (srt a) = true ->
   reference_missing a (fs w) = true ->
   process_batch_mode a cosyvoice w
   = (Ok tt, emit w (banner
                     ++ [ErrReferenceMissing (audio_path a) (reference_dir a)]))) /\
  (forall raw,
      fs w !! srt a = Some (TextFile raw) ->
      reference_missing a (fs w) = false ->
      subtitles_of raw = [] ->
      process_batch_mode a cosyvoice w
      = (Ok tt, emit w (banner ++ [ParsingSrt (srt a)] ++ warnings_of raw
                        ++ [ParsedCount 0; ErrNoSubtitles]))).
Proof.
  split_and!.
  - intros Hsrt. unfold process_batch_mode.
    unfold bind at 1 2 3. unfold print at 1 2 3. rewrite !emit_emit. cbn [app].
    unfold bind at 1. unfold os_path_exists at 1. cbn [fs emit].
    rewrite Hsrt. cbn [negb]. unfold print. now rewrite emit_emit.
  - intros Hsrt Hcheck. unfold process_batch_mode.
    unfold bind at 1 2 3. unfold print at 1 2 3. rewrite !emit_emit. cbn [app].
    unfold bind at 1. unfold os_path_exists at 1. cbn [fs emit].
    rewrite Hsrt. cbn [negb].
    unfold bind at 1. cbn beta. cbn [fs emit]. rewrite Hcheck.
    unfold print. now rewrite emit_emit.
  - intros raw Hfile Hcheck Hnone.
    rewrite (process_batch_mode_run a cosyvoice w raw Hfile Hcheck).
    cbv zeta. rewrite Hnone. rewrite emit_emit. cbn [length].
    now rewrite <- !app_assoc.
Qed.

(** C6, at the input where the code departs from it: no reference directory
    is given and the shared reference audio does not exist, yet no error is
    reported before the loop; the entry is processed, the engine is asked to
    load the missing file, and the failure is counted as the entry's. *)
Theorem missing_shared_audio_is_not_checked :
  reference_dir shared_audio_args = None /\
  path_exists one_entry_store "missing.wav" = false /\
  reference_missing shared_audio_args one_entry_store = false /\
  (process_batch_mode shared_audio_args example_engine
     (world_of one_entry_store)).1 = Ok tt /\
  calls (process_batch_mode shared_audio_args example_engine
           (world_of one_entry_store)).2
  = [LoadWav "missing.wav" 16000] /\
  stdout (process_batch_mode shared_audio_args example_engine
            (world_of one_entry_store)).2
  = banner
    ++ [ParsingSrt "subs.srt"; ParsedCount 1; Processing 1; Dashes;
        EntryHeader 1 1 1; EntryText "Hello" false;
        ErrEntry 1 (OSError "cannot open the reference")]
    ++ summary_lines 1 {| success_count := 0; skip_count := 0; error_count := 1 |}.
Proof. vm_compute. repeat split; reflexivity. Qed.

(** With no reference source at all the checks pass as well, and the lookup
    for the first entry raises out of the loop. *)
Example no_reference_source_raises :
  (process_batch_mode single_reference_args example_engine
     (world_of one_entry_store)).1
  = Raise (TypeError "expected str, bytes or os.PathLike object, not NoneType").
Proof. vm_compute. reflexivity. Qed.

(** ** Entries with the same id *)

(** C10. The parser accepts a document with a repeated id and with an id
    below 1. The output path of an entry is made of the output directory,
    the output prefix and the id, so two entries with the same id have the
    same output path. When the later one is synthesised, that is, its
    reference is usable, it is not skipped, the reference loads, the
    generator yields a first result for the text of the later entry and the
    save goes through, the entry is counted as a success and that result is
    what the path holds afterwards, whatever was there, and no other path
    changes; every save of the pass goes to that path. With [skip_existing]
    set, a usable reference and the file already there, the later one is
    recorded as skipped and nothing is written. *)
Theorem same_id_same_output_file
    (a : args) (cosyvoice : engine) (total : nat) (u : bool) (idx : nat)
    (s1 s2 : Subtitle.t) (c : counters) (w : world) :
  Subtitle.id s1 = Subtitle.id s2 ->
  let out1 := output_path_of a (Subtitle.id s1) in
  let run := process_subtitle a cosyvoice total u (idx, s2) c w in
  Subtitle.id <$> subtitles_of repeated_id_document = [1; 1; -3] /\
  out1 = Py.path_join (output a)
           (output_prefix a +:+ "_" +:+ Py.format_03d (Subtitle.id s2) +:+ ".wav") /\
  (exists cs,
      calls run.2 = calls w ++ cs /\
      forall p t r,
        Save p t r ∈ cs ->
        p = out1 /\
        (run.1 = Ok (add_success c) ->
         fs run.2 !! out1 = Some (AudioFile t r))) /\
  (forall p t,
      (reference_for a u (Subtitle.id s2) w).1 = Ok (Some p) ->
      Py.truthy p = true ->
      skip_existing a && path_exists (fs w) out1 = false ->
      synthesises_to cosyvoice (Subtitle.text s2) (prompt_text a) p out1
        (instruct a) (seed a + Subtitle.id s2)
        (emit w (entry_lines total idx s2)) t ->
      run.1 = Ok (add_success c) /\
      fs run.2 !! out1 = Some (AudioFile t (sample_rate cosyvoice)) /\
      forall q, q <> out1 -> fs run.2 !! q = fs w !! q) /\
  (skip_existing a = true ->
   resolves a u (Subtitle.id s2) (fs w) ->
   path_exists (fs w) out1 = true ->
   run.1 = Ok (add_skip c) /\ fs run.2 = fs w /\ calls run.2 = calls w).
Proof.
  intros Hid out1 run. split_and!.
  - vm_compute. reflexivity.
  - unfold out1. now rewrite Hid.
  - destruct (process_subtitle_step a cosyvoice total u idx s2 c w)
      as (ms & cs & _ & Hcalls & _ & Hsave & _).
    cbv zeta in Hcalls, Hsave. fold run in Hcalls, Hsave.
    exists cs. split; [exact Hcalls|]. intros p t r Hin.
    destruct (Hsave p t r Hin) as [-> Hfs]. unfold out1. rewrite Hid.
    split; [reflexivity|]. intros Hok. rewrite (Hfs Hok).
    apply lookup_insert_eq.
  - intros p t Href Hp Hskip Hsyn. unfold out1 in Hskip, Hsyn.
    rewrite Hid in Hskip, Hsyn. unfold run, out1. rewrite Hid.
    rewrite (process_subtitle_saves a cosyvoice total u idx s2 c w p t
               Href Hp Hskip Hsyn).
    cbn [fst snd fs emit world_saved world_at_inference]. split_and!.
    + reflexivity.
    + apply lookup_insert_eq.
    + intros q Hq. now rewrite lookup_insert_ne by congruence.
  - intros Hskip Hres Hthere.
    destruct (for_each_all_skipped a cosyvoice total u [(idx, s2)] c w Hskip)
      as (w' & Hrun & Hfs & Hcalls & _).
    { intros item Hin. apply list_elem_of_singleton in Hin as ->.
      cbn [snd]. split; [exact Hres|]. unfold out1 in Hthere.
      now rewrite <- Hid. }
    cbn [for_each] in Hrun. unfold bind in Hrun. fold run in Hrun.
    destruct run as [[c1|e] w1]; [|discriminate Hrun].
    cbn in Hrun. injection Hrun as -> ->. cbn [fst snd]. auto.
Qed.

Lemma same_id_same_output_file_witness :
  Subtitle.id (example_subtitle 1) = Subtitle.id later_subtitle /\
  first_output_present !! output_path_of overwriting_args 1
  = Some (AudioFile [1] 24000) /\
  fs (process_subtitle overwriting_args text_length_engine 2 false
        (2%nat, later_subtitle) no_counts (world_of first_output_present)).2
    !! output_path_of overwriting_args 1
  = Some (AudioFile [9] 24000) /\
  skip_existing example_args = true /\
  path_exists first_output_present (output_path_of example_args 1) = true /\
  (process_subtitle example_args example_engine 2 false (2%nat, later_subtitle)
     no_counts (world_of first_output_present)).1
  = Ok (add_skip no_counts).
Proof.
  split; [reflexivity|]. split; [vm_compute; reflexivity|].
  split.
  - destruct (same_id_same_output_file overwriting_args text_length_engine 2
                false 2 (example_subtitle 1) later_subtitle no_counts
                (world_of first_output_present) eq_refl)
      as (_ & _ & _ & Hover & _).
    apply (Hover "refs/segment_001.wav" [9]).
    + vm_compute. reflexivity.
    + reflexivity.
    + reflexivity.
    + exists []. split_and!; vm_compute; reflexivity.
  - split; [reflexivity|]. split; [reflexivity|].
    destruct (same_id_same_output_file example_args example_engine 2 false 2
                (example_subtitle 1) later_subtitle no_counts
                (world_of first_output_present) eq_refl)
      as (_ & _ & _ & _ & Hskip).
    apply Hskip.
    + reflexivity.
    + exists "refs/segment_001.wav". split; reflexivity.
    + reflexivity.
Defined.

(** Two entries with the id 1, one after the other: without [skip_existing]
    both are saved to the same path, which ends up with the audio of the
    second; with [skip_existing] the second is skipped and the audio of the
    first stays. *)
Example later_entry_overwrites :
  let run := process_subtitles overwriting_args text_length_engine
               [example_subtitle 1; later_subtitle] no_counts
               (world_of example_store) in
  run.1 = Ok {| success_count := 2; skip_count := 0; error_count := 0 |} /\
  fs run.2 !! "out/clone_001.wav" = Some (AudioFile [9] 24000).
Proof. vm_compute. split; reflexivity. Qed.

Example later_entry_is_skipped :
  let run := process_subtitles example_args text_length_engine
               [example_subtitle 1; later_subtitle] no_counts
               (world_of example_store) in
  run.1 = Ok {| success_count := 1; skip_count := 1; error_count := 0 |} /\
  fs run.2 !! "out/clone_001.wav" = Some (AudioFile [5] 24000).
Proof. vm_compute. split; reflexivity. Qed.

(** * Further properties *)

(** ** Printed integers read back *)

Lemma of_uint_acc_value d acc :
  Z.pos (Pos.of_uint_acc d acc) = uint_value (Z.pos acc) d.
Proof.
  revert acc. induction d; intros acc; cbn [Pos.of_uint_acc uint_value];
    rewrite ?IHd; f_equal; lia.
Qed.

Lemma of_uint_value d : Z.of_N (Pos.of_uint d) = uint_value 0 d.
Proof.
  induction d; cbn [Pos.of_uint uint_value Z.of_N];
    rewrite ?of_uint_acc_value; try exact IHd; reflexivity.
Qed.

Lemma int_digits_cons acc u c s :
  Py.int_digits acc u (String c s)
  = if Ascii.eqb c Py.underscore then
      if u then None else Py.int_digits acc true s
    else
      match Py.digit_of c with
      | Some d => Py.int_digits (10 * acc + d) false s
      | None => None
      end.
Proof. reflexivity. Qed.

Lemma int_digits_of_uint d acc rest :
  Py.int_digits acc false (NilEmpty.string_of_uint d +:+ rest)
  = Py.int_digits (uint_value acc d) false rest.
Proof.
  revert acc. induction d; intros acc;
    cbn [NilEmpty.string_of_uint uint_value String.append];
    [reflexivity|..].
  all: change (String ?c ?s +:+ ?r) with (String c (s +:+ r)).
  all: rewrite int_digits_cons.
  all: match goal with
       | |- context [Ascii.eqb ?c Py.underscore] =>
           change (Ascii.eqb c Py.underscore) with false
       end.
  all: match goal with
       | |- context [Py.digit_of ?c] =>
           let v := eval vm_compute in (Py.digit_of c) in
           change (Py.digit_of c) with v
       end.
  all: cbv iota; rewrite ?Z.add_0_r; apply IHd.
Qed.

Lemma lstrip_starts_nonspace s : starts_nonspace s = true -> Py.lstrip s = s.
Proof. destruct s as [|c s]; cbn; [discriminate|]. now destruct (Py.is_space c). Qed.

Lemma rstrip_cons c s :
  Py.rstrip (String c s)
  = match Py.rstrip s with
    | EmptyString =>
        if Py.is_space c then EmptyString else String c EmptyString
    | r => String c r
    end.
Proof. reflexivity. Qed.

Lemma rstrip_last_nonspace s : last_nonspace s = true -> Py.rstrip s = s.
Proof.
  induction s as [|c s IH]; [discriminate|].
  destruct s as [|c' s'].
  - cbn. now destruct (Py.is_space c).
  - intros H. change (last_nonspace (String c' s') = true) in H.
    rewrite rstrip_cons, (IH H). reflexivity.
Qed.

Lemma strip_clean s :
  starts_nonspace s = true -> last_nonspace s = true -> Py.strip s = s.
Proof.
  intros Hs Hl. unfold Py.strip. rewrite lstrip_starts_nonspace by exact Hs.
  now apply rstrip_last_nonspace.
Qed.

Lemma no_space_edges s :
  no_space s = true -> s <> EmptyString ->
  starts_nonspace s = true /\ last_nonspace s = true.
Proof.
  induction s as [|c s IH]; [congruence|]. cbn [no_space]. intros H _.
  apply andb_true_iff in H as [Hc Hs]. split; [exact Hc|].
  destruct s as [|c' s']; [exact Hc|].
  change (last_nonspace (String c' s') = true). now apply IH.
Qed.

Lemma no_space_uint d : no_space (NilEmpty.string_of_uint d) = true.
Proof. induction d; cbn [NilEmpty.string_of_uint no_space]; auto. Qed.

Lemma no_space_app s1 s2 :
  no_space (s1 +:+ s2) = no_space s1 && no_space s2.
Proof.
  induction s1 as [|c s1 IH]; [reflexivity|].
  change (String c s1 +:+ s2) with (String c (s1 +:+ s2)). cbn [no_space].
  now rewrite IH, andb_assoc.
Qed.

Lemma no_space_zeros n : no_space (Py.zeros n) = true.
Proof. induction n; cbn; auto. Qed.

Lemma nilzero_uint d :
  NilZero.string_of_uint d
  = match d with Decimal.Nil => "0" | _ => NilEmpty.string_of_uint d end.
Proof. now destruct d. Qed.

Lemma append_empty_r s : s +:+ "" = s.
Proof.
  induction s as [|c s IH]; [reflexivity|].
  change (String c s +:+ "") with (String c (s +:+ "")). now rewrite IH.
Qed.

(** The digits that [str] prints for a magnitude: no white space, not empty,
    and they read back as the magnitude, also behind leading zeros. *)
Lemma digits_spec d :
  let s := NilZero.string_of_uint d in
  no_space s = true /\ s <> EmptyString /\
  forall k, Py.int_unsigned (Py.zeros k +:+ s) = Some (Z.of_N (Pos.of_uint d)).
Proof.
  cbv zeta. rewrite nilzero_uint. split_and!.
  - destruct d; try reflexivity; apply (no_space_uint (_ d)).
  - now destruct d.
  - intros k. rewrite of_uint_value.
    assert (Hz : forall acc s, acc = 0 ->
               Py.int_digits acc false (Py.zeros k +:+ s)
               = Py.int_digits 0 false s).
    { induction k as [|k IHk]; intros acc s ->; [reflexivity|].
      cbn [Py.zeros]. change (String ?c ?x +:+ ?r) with (String c (x +:+ r)).
      rewrite int_digits_cons. cbn. now apply IHk. }
    assert (Hu : forall s c, Py.int_unsigned (String c s)
               = if Ascii.eqb c Py.underscore then None
                 else Py.int_digits 0 false (String c s)) by reflexivity.
    assert (Hd : forall d', Py.int_digits 0 false (NilEmpty.string_of_uint d')
                 = Some (uint_value 0 d')).
    { intros d'. pose proof (int_digits_of_uint d' 0 EmptyString) as H.
      rewrite append_empty_r in H. exact H. }
    set (s := match d with Decimal.Nil => "0" | _ => NilEmpty.string_of_uint d end).
    assert (Hs : Py.int_digits 0 false s = Some (uint_value 0 d)).
    { unfold s. destruct d; try apply Hd. reflexivity. }
    assert (Hfirst : exists c r, Py.zeros k +:+ s = String c r /\
                                 Ascii.eqb c Py.underscore = false).
    { destruct k as [|k]; [|exists "0"%char; eexists; split; reflexivity].
      unfold s. destruct d; cbn; eauto. }
    destruct Hfirst as (c & r & Heq & Hc).
    rewrite Heq, Hu, Hc, <- Heq, (Hz 0 s eq_refl). exact Hs.
Qed.

Lemma int_sign_zeros_digits (negative : bool) k d :
  Py.int ((if negative then "-" else "") +:+ Py.zeros k
          +:+ NilZero.string_of_uint d)
  = Some (if negative then - Z.of_N (Pos.of_uint d)
          else Z.of_N (Pos.of_uint d)).
Proof.
  destruct (digits_spec d) as (Hns & Hne & Hval). cbv zeta in *.
  set (s := NilZero.string_of_uint d) in *.
  assert (Hbody : no_space (Py.zeros k +:+ s) = true).
  { now rewrite no_space_app, no_space_zeros, Hns. }
  assert (Hbody_ne : Py.zeros k +:+ s <> EmptyString).
  { destruct k; [|discriminate]. exact Hne. }
  unfold Py.int. destruct negative.
  - change ("-" +:+ ?x) with (String "-" x).
    rewrite strip_clean; [|reflexivity|].
    + now rewrite Hval.
    + destruct (Py.zeros k +:+ s) as [|c r] eqn:E; [congruence|].
      change (last_nonspace (String c r) = true).
      now apply no_space_edges.
  - change ("" +:+ ?x) with x.
    destruct (no_space_edges _ Hbody Hbody_ne) as [H1 H2].
    rewrite strip_clean by assumption.
    destruct (Py.zeros k +:+ s) as [|c r] eqn:E; [congruence|].
    assert (Hc : c <> "+"%char /\ c <> "-"%char).
    { destruct k as [|k].
      - cbn in E. unfold s in E. rewrite nilzero_uint in E.
        destruct d; cbn in E; injection E as <- _; split; discriminate.
      - cbn in E. injection E as <- _. split; discriminate. }
    destruct Hc as [Hp Hm]. rewrite <- (Hval k), E.
    destruct c as [[] [] [] [] [] [] [] []]; try reflexivity; congruence.
Qed.

Lemma to_int_cases z :
  exists d, Z.of_N (Pos.of_uint d) = Z.abs z /\
            Z.to_int z = if (z <? 0)%Z then Decimal.Neg d else Decimal.Pos d.
Proof.
  destruct z as [|p|p]; cbn [Z.to_int Z.ltb Z.compare Z.abs].
  - now exists (Decimal.D0 Decimal.Nil).
  - exists (Pos.to_uint p). now rewrite DecimalPos.Unsigned.of_to.
  - exists (Pos.to_uint p). now rewrite DecimalPos.Unsigned.of_to.
Qed.

Lemma int_str_of_int z : Py.int (Py.str_of_int z) = Some z.
Proof.
  unfold Py.str_of_int. destruct (to_int_cases z) as (d & Hd & ->).
  destruct (z <? 0)%Z eqn:Hz.
  - apply Z.ltb_lt in Hz. cbn [NilZero.string_of_int].
    replace z with (- Z.of_N (Pos.of_uint d)) at 1 by lia.
    exact (int_sign_zeros_digits true 0 d).
  - apply Z.ltb_ge in Hz. cbn [NilZero.string_of_int].
    replace z with (Z.of_N (Pos.of_uint d)) at 1 by lia.
    exact (int_sign_zeros_digits false 0 d).
Qed.

Lemma str_of_abs z :
  exists d, Z.of_N (Pos.of_uint d) = Z.abs z /\
            Py.str_of_int (Z.abs z) = NilZero.string_of_uint d.
Proof.
  unfold Py.str_of_int. destruct (to_int_cases (Z.abs z)) as (d & Hd & ->).
  exists d. split; [lia|].
  destruct (Z.abs z <? 0)%Z eqn:Hz; [apply Z.ltb_lt in Hz; lia|reflexivity].
Qed.

Lemma int_format_03d z : Py.int (Py.format_03d z) = Some z.
Proof.
  unfold Py.format_03d. destruct (str_of_abs z) as (d & Hd & ->).
  destruct (z <? 0)%Z eqn:Hz.
  - apply Z.ltb_lt in Hz.
    replace z with (- Z.of_N (Pos.of_uint d)) at 1 by lia.
    apply (int_sign_zeros_digits true).
  - apply Z.ltb_ge in Hz.
    replace z with (Z.of_N (Pos.of_uint d)) at 1 by lia.
    apply (int_sign_zeros_digits false).
Qed.

(** ** Documents made of well-formed blocks *)

Lemma rev_app_rev_app b c acc :
  String.rev_app (String.rev_app b c) acc = String.rev_app c (b +:+ acc).
Proof.
  revert c. induction b as [|x b IH]; intros c; [reflexivity|].
  cbn [String.rev_app]. rewrite IH. reflexivity.
Qed.

Lemma rev_rev_app b : String.rev (String.rev_app b EmptyString) = b.
Proof.
  unfold String.rev. rewrite rev_app_rev_app. cbn. apply append_empty_r.
Qed.

Lemma append_assoc (s1 s2 s3 : string) : (s1 +:+ s2) +:+ s3 = s1 +:+ s2 +:+ s3.
Proof.
  induction s1 as [|c s1 IH]; [reflexivity|].
  change ((String c s1 +:+ s2) +:+ s3) with (String c ((s1 +:+ s2) +:+ s3)).
  now rewrite IH.
Qed.

Lemma match_blank_tail_nonspace s :
  starts_nonspace s = false \/ Py.match_blank_tail s = None.
Proof.
  destruct s as [|c s]; [now left|]. cbn.
  destruct (Py.is_space c); [now left|now right].
Qed.

(** Behind a newline, white space up to another newline and then a block
    that starts with something else: the separator ends right before the
    block. *)
Lemma match_blank_tail_gap ws rest :
  all_space ws = true -> starts_nonspace rest = true ->
  Py.match_blank_tail (ws +:+ nl +:+ rest) = Some rest.
Proof.
  intros Hws Hrest.
  assert (Hnone : Py.match_blank_tail rest = None).
  { destruct (match_blank_tail_nonspace rest) as [H|H]; congruence. }
  assert (Hcons : forall c s,
             Py.match_blank_tail (String c s)
             = if Py.is_space c then
                 match Py.match_blank_tail s with
                 | Some r => Some r
                 | None => if Ascii.eqb c Py.newline then Some s else None
                 end
               else None) by reflexivity.
  induction ws as [|c ws IH].
  - change ("" +:+ nl +:+ rest) with (String Py.newline rest).
    rewrite Hcons, Hnone. reflexivity.
  - cbn [all_space] in Hws. apply andb_true_iff in Hws as [Hc Hws].
    change (String c ws +:+ ?x) with (String c (ws +:+ x)).
    now rewrite Hcons, Hc, (IH Hws).
Qed.

Lemma starts_nonspace_app s1 s2 :
  starts_nonspace s1 = true -> starts_nonspace (s1 +:+ s2) = true.
Proof. destruct s1; [discriminate|auto]. Qed.

(** A tight stretch of text is scanned without a cut. *)
Lemma re_split_scan_tight b cur rest :
  tight b = true ->
  Py.re_split_scan 0 cur (b +:+ rest)
  = Py.re_split_scan 0 (String.rev_app b cur) rest.
Proof.
  revert cur. induction b as [|c b IH]; intros cur Ht; [reflexivity|].
  change (String c b +:+ rest) with (String c (b +:+ rest)) in *.
  cbn [tight] in Ht. apply andb_true_iff in Ht as [Hc Ht].
  rewrite re_split_scan_step. cbn [String.rev_app].
  destruct (Ascii.eqb c Py.newline).
  - destruct (match_blank_tail_nonspace (b +:+ rest)) as [H|H].
    + rewrite starts_nonspace_app in H by exact Hc. discriminate.
    + rewrite H. now apply IH.
  - now apply IH.
Qed.

Lemma re_split_scan_blocks b rest cur :
  tight b = true -> forallb separated rest = true ->
  Py.re_split_scan 0 cur (b +:+ glue rest)
  = String.rev (String.rev_app b cur) :: rest.*2.
Proof.
  revert b cur. induction rest as [|[ws b'] rest IH]; intros b cur Hb Hrest.
  - cbn [glue]. rewrite re_split_scan_tight by exact Hb. reflexivity.
  - cbn [forallb] in Hrest. apply andb_true_iff in Hrest as [H1 Hrest].
    unfold separated in H1. cbn [fst snd] in H1.
    apply andb_true_iff in H1 as [H1 Hs].
    apply andb_true_iff in H1 as [Hws Ht].
    cbn [glue]. rewrite re_split_scan_tight by exact Hb.
    change (nl +:+ ?x) with (String Py.newline x).
    rewrite re_split_scan_step. change (Ascii.eqb Py.newline Py.newline) with true.
    cbv iota.
    rewrite (match_blank_tail_gap ws (b' +:+ glue rest) Hws
               (starts_nonspace_app _ _ Hs)).
    rewrite (IH b' EmptyString Ht Hrest). cbn [fmap list_fmap snd].
    now rewrite rev_rev_app.
Qed.

Lemma last_nonspace_app a b :
  last_nonspace b = true -> last_nonspace (a +:+ b) = true.
Proof.
  intros Hb. induction a as [|c a IH]; [exact Hb|].
  change (String c a +:+ b) with (String c (a +:+ b)).
  destruct (a +:+ b) as [|c' x] eqn:E; [discriminate IH|exact IH].
Qed.

Lemma no_space_no_newline s : no_space s = true -> no_newline s = true.
Proof.
  induction s as [|c s IH]; [reflexivity|]. cbn [no_space no_newline].
  intros H. apply andb_true_iff in H as [Hc Hs]. rewrite (IH Hs), andb_true_r.
  destruct (Ascii.eqb_spec c Py.newline) as [->|]; [discriminate Hc|reflexivity].
Qed.

Lemma no_newline_tight s : no_newline s = true -> tight s = true.
Proof.
  induction s as [|c s IH]; [reflexivity|]. cbn [no_newline tight].
  intros H. apply andb_true_iff in H as [Hc Hs]. rewrite (IH Hs), andb_true_r.
  now destruct (Ascii.eqb c Py.newline).
Qed.

Lemma tight_app_line l s :
  no_newline l = true -> starts_nonspace s = true -> tight s = true ->
  tight (l +:+ nl +:+ s) = true.
Proof.
  intros Hl Hs Ht. induction l as [|c l IH].
  - change ("" +:+ nl +:+ s) with (String Py.newline s). cbn [tight].
    change (Ascii.eqb Py.newline Py.newline) with true. now rewrite Hs, Ht.
  - cbn [no_newline] in Hl. apply andb_true_iff in Hl as [Hc Hl].
    change (String c l +:+ ?x) with (String c (l +:+ x)). cbn [tight].
    rewrite (IH Hl), andb_true_r. now destruct (Ascii.eqb c Py.newline).
Qed.

Lemma split_app_line l s :
  no_newline l = true ->
  Py.split Py.newline (l +:+ nl +:+ s) = l :: Py.split Py.newline s.
Proof.
  intros Hl. induction l as [|c l IH].
  - reflexivity.
  - cbn [no_newline] in Hl. apply andb_true_iff in Hl as [Hc Hl].
    change (String c l +:+ ?x) with (String c (l +:+ x)). cbn [Py.split].
    rewrite (IH Hl). now destruct (Ascii.eqb c Py.newline).
Qed.

Lemma split_line l : no_newline l = true -> Py.split Py.newline l = [l].
Proof.
  induction l as [|c l IH]; [reflexivity|]. cbn [no_newline Py.split].
  intros H. apply andb_true_iff in H as [Hc Hl]. rewrite (IH Hl).
  now destruct (Ascii.eqb c Py.newline).
Qed.

Lemma join_cons sep l l' ls :
  Py.join sep (l :: l' :: ls) = l +:+ sep +:+ Py.join sep (l' :: ls).
Proof. reflexivity. Qed.

(** Lines without a newline, joined by newlines, split back into the same
    lines. *)
Lemma split_join_lines ls :
  ls <> [] -> forallb no_newline ls = true ->
  Py.split Py.newline (Py.join nl ls) = ls.
Proof.
  induction ls as [|l ls IH]; [congruence|]. intros _ H.
  cbn [forallb] in H. apply andb_true_iff in H as [Hl Hls].
  destruct ls as [|l' ls]; [now apply split_line|].
  rewrite join_cons, split_app_line by exact Hl. f_equal.
  apply IH; [discriminate|exact Hls].
Qed.

Lemma join_starts sep l ls :
  starts_nonspace l = true -> starts_nonspace (Py.join sep (l :: ls)) = true.
Proof.
  intros H. destruct ls; [exact H|]. rewrite join_cons.
  now apply starts_nonspace_app.
Qed.

Lemma join_last sep ls :
  ls <> [] -> forallb last_nonspace ls = true ->
  last_nonspace (Py.join sep ls) = true.
Proof.
  induction ls as [|l ls IH]; [congruence|]. intros _ H.
  cbn [forallb] in H. apply andb_true_iff in H as [Hl Hls].
  destruct ls as [|l' ls]; [exact Hl|].
  rewrite join_cons. apply last_nonspace_app, last_nonspace_app.
  apply IH; [discriminate|exact Hls].
Qed.

Lemma join_tight ls :
  forallb no_newline ls = true -> forallb starts_nonspace (tail ls) = true ->
  tight (Py.join nl ls) = true.
Proof.
  induction ls as [|l ls IH]; [reflexivity|]. intros H Hs.
  cbn [forallb] in H. apply andb_true_iff in H as [Hl Hls].
  destruct ls as [|l' ls]; [now apply no_newline_tight|].
  cbn [tail forallb] in Hs. apply andb_true_iff in Hs as [Hs1 Hs2].
  rewrite join_cons. apply tight_app_line; [exact Hl| |].
  - now apply join_starts.
  - apply IH; [exact Hls|].
    destruct ls as [|l'' ls]; [reflexivity|]. exact Hs2.
Qed.

Lemma str_of_int_no_space n :
  no_space (Py.str_of_int n) = true /\ Py.str_of_int n <> EmptyString.
Proof.
  unfold Py.str_of_int. destruct (to_int_cases n) as (d & _ & ->).
  destruct (digits_spec d) as (Hns & Hne & _). cbv zeta in *.
  destruct (n <? 0)%Z; cbn [NilZero.string_of_int]; [|now split].
  split; [|discriminate]. cbn [no_space]. now rewrite Hns.
Qed.

Lemma forallb_clean ls :
  forallb clean ls = true ->
  forallb starts_nonspace ls = true /\ forallb last_nonspace ls = true /\
  forallb no_newline ls = true.
Proof.
  induction ls as [|l ls IH]; [auto|]. cbn [forallb]. intros H.
  apply andb_true_iff in H as [Hl Hls]. destruct (IH Hls) as (H1 & H2 & H3).
  unfold clean in Hl. apply andb_true_iff in Hl as [Hl Hn].
  apply andb_true_iff in Hl as [Hs Hla].
  now rewrite Hs, Hla, Hn, H1, H2, H3.
Qed.

Lemma cue_block_spec c :
  cue_ok c = true ->
  tight (cue_block c) = true /\ starts_nonspace (cue_block c) = true /\
  last_nonspace (cue_block c) = true /\
  entry_of_block (cue_block c) = Some (cue_entry c) /\
  warning_of_block (cue_block c) = None.
Proof.
  unfold cue_ok. intros H. apply andb_true_iff in H as [H Hne].
  apply andb_true_iff in H as [Ht Hl]. apply negb_true_iff in Hne.
  apply bool_decide_eq_false in Hne.
  destruct (forallb_clean _ Hl) as (Hl1 & Hl2 & Hl3).
  destruct (forallb_clean [cue_time c]) as (Ht1 & Ht2 & Ht3).
  { cbn. now rewrite Ht. }
  cbn [forallb] in Ht1, Ht2, Ht3. rewrite andb_true_r in Ht1, Ht2, Ht3.
  destruct (str_of_int_no_space (cue_id c)) as [Hid Hid_ne].
  destruct (no_space_edges _ Hid Hid_ne) as [Hid1 Hid2].
  pose proof (no_space_no_newline _ Hid) as Hid3.
  destruct (cue_lines c) as [|l ls] eqn:Hlines; [congruence|].
  cbn [forallb] in Hl1, Hl2, Hl3.
  assert (Htight : tight (cue_block c) = true).
  { unfold cue_block. rewrite Hlines. apply join_tight.
    - cbn [forallb]. now rewrite Hid3, Ht3, Hl3.
    - cbn [tail forallb]. now rewrite Ht1, Hl1. }
  assert (Hstart : starts_nonspace (cue_block c) = true).
  { unfold cue_block. now apply join_starts. }
  assert (Hlast : last_nonspace (cue_block c) = true).
  { unfold cue_block. rewrite Hlines. apply join_last; [discriminate|].
    cbn [forallb]. now rewrite Hid2, Ht2, Hl2. }
  assert (Hsplit : Py.split Py.newline (Py.strip (cue_block c))
                   = Py.str_of_int (cue_id c) :: cue_time c :: l :: ls).
  { rewrite strip_clean by assumption. unfold cue_block. rewrite Hlines.
    apply split_join_lines; [discriminate|].
    cbn [forallb]. now rewrite Hid3, Ht3, Hl3. }
  assert (Hint : Py.int (Py.strip (Py.str_of_int (cue_id c))) = Some (cue_id c)).
  { rewrite strip_clean by assumption. apply int_str_of_int. }
  split_and!; try assumption.
  - unfold entry_of_block. rewrite Hsplit, Hint. unfold cue_entry.
    rewrite Hlines. f_equal. f_equal.
    + now apply strip_clean.
    + apply strip_clean.
      * apply andb_true_iff in Hl1 as [Hl1 _]. now apply join_starts.
      * apply join_last; [discriminate|exact Hl2].
  - unfold warning_of_block. now rewrite Hsplit, Hint.
Qed.

Lemma last_nonspace_glue b rest :
  last_nonspace b = true -> forallb (fun p => last_nonspace p.2) rest = true ->
  last_nonspace (b +:+ glue rest) = true.
Proof.
  revert b. induction rest as [|[ws b'] rest IH]; intros b Hb Hrest.
  - cbn [glue]. now rewrite append_empty_r.
  - cbn [forallb snd] in Hrest. apply andb_true_iff in Hrest as [Hb' Hrest].
    cbn [glue]. do 4 apply last_nonspace_app. now apply IH.
Qed.

Lemma blocks_of_srt_text c0 more :
  cue_ok c0 = true -> forallb gap_and_cue_ok more = true ->
  blocks_of (srt_text c0 more) = cue_block <$> (c0 :: more.*2).
Proof.
  intros H0 Hmore.
  destruct (cue_block_spec c0 H0) as (Ht0 & Hs0 & Hl0 & _).
  assert (Hsep : forallb separated (prod_map id cue_block <$> more) = true
                 /\ forallb (fun p => last_nonspace p.2)
                      (prod_map id cue_block <$> more) = true
                 /\ (prod_map id cue_block <$> more).*2 = cue_block <$> more.*2).
  { induction more as [|[ws c] more IH]; [auto|].
    cbn [forallb] in Hmore. apply andb_true_iff in Hmore as [Hc Hmore].
    unfold gap_and_cue_ok in Hc. cbn [fst snd] in Hc.
    apply andb_true_iff in Hc as [Hws Hc].
    destruct (cue_block_spec c Hc) as (Ht & Hs & Hl & _).
    destruct (IH Hmore) as (IH1 & IH2 & IH3).
    cbn [fmap list_fmap forallb prod_map fst snd id]. unfold separated at 1.
    cbn [fst snd]. rewrite Hws, Ht, Hs, Hl. cbn [andb]. split_and!; auto.
    f_equal. exact IH3. }
  destruct Hsep as (Hsep & Hlast & Hsnd).
  unfold blocks_of, srt_text. rewrite strip_clean.
  - unfold Py.re_split_blank. rewrite re_split_scan_blocks by assumption.
    rewrite rev_rev_app, Hsnd. reflexivity.
  - now apply starts_nonspace_app.
  - now apply last_nonspace_glue.
Qed.

Lemma entries_of_cue_blocks cs :
  forallb cue_ok cs = true ->
  omap entry_of_block (cue_block <$> cs) = cue_entry <$> cs /\
  omap warning_of_block (cue_block <$> cs) = [].
Proof.
  induction cs as [|c cs IH]; [auto|]. cbn [forallb]. intros H.
  apply andb_true_iff in H as [Hc Hcs].
  destruct (cue_block_spec c Hc) as (_ & _ & _ & He & Hw).
  destruct (IH Hcs) as [IH1 IH2].
  cbn [fmap list_fmap omap list_omap]. rewrite He, Hw.
  split; [f_equal; exact IH1|exact IH2].
Qed.

Lemma universal_newlines_cons c s :
  universal_newlines (String c s)
  = if Ascii.eqb c "013" then
      match s with
      | String c' s'' =>
          if Ascii.eqb c' Py.newline then String Py.newline (universal_newlines s'')
          else String Py.newline (universal_newlines s)
      | EmptyString => String Py.newline EmptyString
      end
    else String c (universal_newlines s).
Proof. reflexivity. Qed.

Lemma universal_newlines_id s :
  no_return s = true -> universal_newlines s = s.
Proof.
  induction s as [|c s IH]; [reflexivity|]. cbn [no_return]. intros H.
  apply andb_true_iff in H as [Hc Hs]. apply negb_true_iff in Hc.
  now rewrite universal_newlines_cons, Hc, (IH Hs).
Qed.

Lemma universal_newlines_crlf s :
  no_return s = true -> universal_newlines (to_crlf s) = s.
Proof.
  induction s as [|c s IH]; [reflexivity|]. cbn [no_return to_crlf]. intros H.
  apply andb_true_iff in H as [Hc Hs]. apply negb_true_iff in Hc.
  destruct (Ascii.eqb_spec c Py.newline) as [->|Hn].
  - rewrite universal_newlines_cons.
    change (Ascii.eqb "013" "013") with true. cbv iota.
    change (Ascii.eqb Py.newline Py.newline) with true. cbv iota.
    now rewrite (IH Hs).
  - now rewrite universal_newlines_cons, Hc, (IH Hs).
Qed.

(** X1. Round trip through a well-formed file. Take a file made of cues,
    each written as its id, its timestamp line and one or more lines of
    text, where the timestamp and the text lines are not empty, have no
    newline and no white space at either end; one cue is separated from the
    next by a newline, any run of white space and another newline; the line
    endings are LF or CRLF. [parse_srt] returns exactly these cues in their
    order: the id read back from its decimal form, the timestamp as
    written, the text lines joined by single spaces. It prints no warning,
    and the count it prints is the number of cues. *)
Theorem parse_srt_well_formed_file
    (path : string) (c0 : cue) (more : list (string * cue)) (crlf : bool)
    (w : world) :
  cue_ok c0 = true ->
  forallb gap_and_cue_ok more = true ->
  no_return (srt_text c0 more) = true ->
  fs w !! path
  = Some (TextFile (if crlf then to_crlf (srt_text c0 more)
                    else srt_text c0 more)) ->
  parse_srt path w
  = (Ok (cue_entry <$> c0 :: more.*2),
     emit w [ParsingSrt path; ParsedCount (S (length more))]).
Proof.
  intros H0 Hmore Hret Hfile.
  rewrite (parse_srt_run _ _ _ Hfile). unfold subtitles_of, warnings_of.
  assert (Hraw : universal_newlines
                   (if crlf then to_crlf (srt_text c0 more) else srt_text c0 more)
                 = srt_text c0 more).
  { destruct crlf; [now apply universal_newlines_crlf|
                    now apply universal_newlines_id]. }
  rewrite Hraw, (blocks_of_srt_text c0 more H0 Hmore).
  destruct (entries_of_cue_blocks (c0 :: more.*2)) as [He Hw].
  { cbn [forallb]. rewrite H0. cbn [andb]. clear -Hmore.
    induction more as [|[ws c] more IH]; [reflexivity|].
    cbn [forallb] in Hmore. apply andb_true_iff in Hmore as [Hc Hmore].
    unfold gap_and_cue_ok in Hc. apply andb_true_iff in Hc as [_ Hc].
    cbn [fmap list_fmap forallb snd] in *. now rewrite Hc, (IH Hmore). }
  rewrite He, Hw. cbn [app]. do 3 f_equal.
  cbn [fmap list_fmap length]. now rewrite !length_fmap.
Qed.

Lemma parse_srt_well_formed_file_witness :
  parse_srt "subs.srt" (world_of crlf_store)
  = (Ok [Subtitle.mk 1 "00:00:01,000 --> 00:00:02,000" "Hello there";
         Subtitle.mk 12 "00:00:02,000 --> 00:00:03,000" "World"],
     emit (world_of crlf_store) [ParsingSrt "subs.srt"; ParsedCount 2]).
Proof.
  apply (parse_srt_well_formed_file "subs.srt" hello_cue [(" ", world_cue)]
           true (world_of crlf_store)).
  - vm_compute. reflexivity.
  - vm_compute. reflexivity.
  - vm_compute. reflexivity.
  - vm_compute. reflexivity.
Defined.

(** ** The fields of a parsed entry *)

Lemma lstrip_shape s :
  Py.lstrip s = EmptyString \/ starts_nonspace (Py.lstrip s) = true.
Proof.
  induction s as [|c s IH]; [now left|]. cbn [Py.lstrip].
  destruct (Py.is_space c) eqn:E; [exact IH|]. right. cbn. now rewrite E.
Qed.

Lemma rstrip_shape s :
  Py.rstrip s = EmptyString \/ last_nonspace (Py.rstrip s) = true.
Proof.
  induction s as [|c s IH]; [now left|]. rewrite rstrip_cons.
  destruct (Py.rstrip s) as [|c' r].
  - destruct (Py.is_space c) eqn:E; [now left|]. right. cbn. now rewrite E.
  - right. destruct IH as [IH|IH]; [discriminate IH|exact IH].
Qed.

Lemma rstrip_starts s :
  starts_nonspace s = true -> starts_nonspace (Py.rstrip s) = true.
Proof.
  destruct s as [|c s]; [discriminate|]. intros H. rewrite rstrip_cons.
  cbn [starts_nonspace] in H. destruct (Py.rstrip s).
  - apply negb_true_iff in H. rewrite H. cbn. now rewrite H.
  - exact H.
Qed.

Lemma strip_shape s :
  Py.strip s = EmptyString \/
  starts_nonspace (Py.strip s) = true /\ last_nonspace (Py.strip s) = true.
Proof.
  unfold Py.strip. destruct (rstrip_shape (Py.lstrip s)) as [H|H]; [now left|].
  right. split; [|exact H]. apply rstrip_starts.
  destruct (lstrip_shape s) as [E|E]; [|exact E].
  rewrite E in H. discriminate H.
Qed.

Lemma strip_strip s : Py.strip (Py.strip s) = Py.strip s.
Proof.
  destruct (strip_shape s) as [->|[Hs Hl]]; [reflexivity|].
  now apply strip_clean.
Qed.

Lemma no_newline_lstrip s : no_newline s = true -> no_newline (Py.lstrip s) = true.
Proof.
  induction s as [|c s IH]; [auto|]. intros H. cbn [Py.lstrip].
  destruct (Py.is_space c); [|exact H]. cbn [no_newline] in H.
  apply andb_true_iff in H as [_ H]. auto.
Qed.

Lemma no_newline_rstrip s : no_newline s = true -> no_newline (Py.rstrip s) = true.
Proof.
  induction s as [|c s IH]; [auto|]. intros H. cbn [no_newline] in H.
  apply andb_true_iff in H as [Hc H]. rewrite rstrip_cons.
  specialize (IH H). destruct (Py.rstrip s) as [|c' r].
  - destruct (Py.is_space c); [reflexivity|]. cbn [no_newline]. now rewrite Hc.
  - cbn [no_newline] in *. now rewrite Hc, IH.
Qed.

Lemma no_newline_strip s : no_newline s = true -> no_newline (Py.strip s) = true.
Proof. intros H. now apply no_newline_rstrip, no_newline_lstrip. Qed.

Lemma no_newline_app s1 s2 :
  no_newline (s1 +:+ s2) = no_newline s1 && no_newline s2.
Proof.
  induction s1 as [|c s1 IH]; [reflexivity|].
  change (String c s1 +:+ s2) with (String c (s1 +:+ s2)). cbn [no_newline].
  now rewrite IH, andb_assoc.
Qed.

(** The pieces of a split at newlines have no newline. *)
Lemma split_no_newline s : Forall (fun l => no_newline l = true) (Py.split Py.newline s).
Proof.
  induction s as [|c s IH]; [repeat constructor|]. cbn [Py.split].
  destruct (Ascii.eqb c Py.newline) eqn:E.
  - constructor; [reflexivity|exact IH].
  - destruct (Py.split Py.newline s) as [|l ls]; [repeat constructor|].
    + cbn. now rewrite E.
    + inversion IH as [|? ? Hl Hls]; subst. constructor; [|exact Hls].
      cbn [no_newline]. now rewrite E, Hl.
Qed.

Lemma join_no_newline ls :
  Forall (fun l => no_newline l = true) ls -> no_newline (Py.join " " ls) = true.
Proof.
  induction ls as [|l ls IH]; [reflexivity|]. intros H.
  inversion H as [|? ? Hl Hls]; subst. destruct ls as [|l' ls]; [exact Hl|].
  rewrite join_cons, !no_newline_app, Hl, (IH Hls). reflexivity.
Qed.

(** A string that ends in a character that is no white space: so does the
    last piece of its split. *)
Lemma split_last_nonspace s :
  last_nonspace s = true ->
  exists ls l, Py.split Py.newline s = ls ++ [l] /\ last_nonspace l = true.
Proof.
  induction s as [|c s IH]; [discriminate|]. intros H.
  destruct s as [|c' s'].
  - exists [], (String c ""). split; [|exact H]. cbn [Py.split].
    destruct (Ascii.eqb_spec c Py.newline) as [->|]; [discriminate H|reflexivity].
  - change (last_nonspace (String c' s') = true) in H.
    destruct (IH H) as (ls & l & Hsplit & Hl).
    change (Py.split Py.newline (String c (String c' s')))
      with (if Ascii.eqb c Py.newline
            then EmptyString :: Py.split Py.newline (String c' s')
            else match Py.split Py.newline (String c' s') with
                 | [] => [String c EmptyString]
                 | l :: ls => String c l :: ls
                 end).
    rewrite Hsplit. destruct (Ascii.eqb c Py.newline).
    + exists (EmptyString :: ls), l. now split.
    + destruct ls as [|l0 ls]; cbn [app].
      * exists [], (String c l). split; [reflexivity|].
        destruct l; [discriminate Hl|exact Hl].
      * exists (String c l0 :: ls), l. now split.
Qed.

Lemma join_snoc_last sep ls l :
  last_nonspace l = true -> last_nonspace (Py.join sep (ls ++ [l])) = true.
Proof.
  intros Hl. induction ls as [|x ls IH]; [exact Hl|]. cbn [app].
  destruct (ls ++ [l]) as [|y ys] eqn:E; [now destruct ls|].
  rewrite join_cons. now apply last_nonspace_app, last_nonspace_app.
Qed.

Lemma last_nonspace_lstrip s :
  last_nonspace s = true -> last_nonspace (Py.lstrip s) = true.
Proof.
  induction s as [|c s IH]; [discriminate|]. intros H. cbn [Py.lstrip].
  destruct (Py.is_space c) eqn:E; [|exact H].
  destruct s as [|c' s']; [cbn in H; now rewrite E in H|]. now apply IH.
Qed.

Lemma strip_last_nonspace s :
  last_nonspace s = true -> Py.strip s <> EmptyString.
Proof.
  intros H. unfold Py.strip.
  rewrite rstrip_last_nonspace by now apply last_nonspace_lstrip.
  apply last_nonspace_lstrip in H. now destruct (Py.lstrip s).
Qed.

(** X2. Whatever the document, [parse_content] returns, and in every entry
    it returns the timestamp and the text are on one line and have no white
    space at either end, and the text is not empty: a text of several lines
    is flattened, and a block never yields an entry without text. *)
Theorem parsed_fields_are_trimmed (content : string) (w : world) :
  exists subtitles w',
    parse_content content w = (Ok subtitles, w') /\
    Forall (fun e => trimmed_line (Subtitle.timestamp e) /\
                     trimmed_line (Subtitle.text e) /\
                     Subtitle.text e <> EmptyString) subtitles.
Proof.
  eexists _, _. split; [apply parse_content_run|].
  apply Forall_forall. intros e He.
  apply list_elem_of_omap in He as (block & _ & He).
  unfold entry_of_block in He.
  pose proof (split_no_newline (Py.strip block)) as Hlines.
  destruct (Py.split Py.newline (Py.strip block))
    as [|first [|second [|third more]]] eqn:Hsplit; try discriminate He.
  destruct (Py.int (Py.strip first)) as [n|]; [|discriminate He].
  replace e with (Subtitle.mk n (Py.strip second)
                    (Py.strip (Py.join " " (third :: more)))) by congruence.
  clear He. cbn [Subtitle.timestamp Subtitle.text].
  inversion Hlines as [|? ? _ H1]; subst.
  inversion H1 as [|? ? Hsecond H2]; subst.
  unfold trimmed_line. split_and!.
  - apply strip_strip.
  - now apply no_newline_strip.
  - apply strip_strip.
  - now apply no_newline_strip, join_no_newline.
  - apply strip_last_nonspace.
    destruct (strip_shape block) as [E|[_ Hlast]].
    { rewrite E in Hsplit. discriminate Hsplit. }
    destruct (split_last_nonspace _ Hlast) as (ls & l & Hls & Hl).
    rewrite Hsplit in Hls.
    destruct ls as [|x [|y ls]]; try discriminate Hls.
    injection Hls as _ _ ->. now apply join_snoc_last.
Qed.

(** ** White space around the document *)

Lemma lstrip_pad lead s :
  all_space lead = true -> Py.lstrip (lead +:+ s) = Py.lstrip s.
Proof.
  induction lead as [|c lead IH]; [reflexivity|]. cbn [all_space].
  intros H. apply andb_true_iff in H as [Hc H].
  change (String c lead +:+ s) with (String c (lead +:+ s)). cbn [Py.lstrip].
  rewrite Hc. auto.
Qed.

Lemma rstrip_all_space trail :
  all_space trail = true -> Py.rstrip trail = EmptyString.
Proof.
  induction trail as [|c trail IH]; [reflexivity|]. cbn [all_space].
  intros H. apply andb_true_iff in H as [Hc H].
  now rewrite rstrip_cons, (IH H), Hc.
Qed.

Lemma rstrip_pad s trail :
  all_space trail = true -> Py.rstrip (s +:+ trail) = Py.rstrip s.
Proof.
  intros H. induction s as [|c s IH]; [now apply rstrip_all_space|].
  change (String c s +:+ trail) with (String c (s +:+ trail)).
  now rewrite !rstrip_cons, IH.
Qed.

Lemma strip_pad lead s trail :
  all_space lead = true -> all_space trail = true ->
  Py.strip (lead +:+ s +:+ trail) = Py.strip s.
Proof.
  intros Hlead Htrail. unfold Py.strip. rewrite lstrip_pad by exact Hlead.
  induction s as [|c s IH].
  - change ("" +:+ trail) with trail.
    assert (Hl : Py.lstrip trail = EmptyString).
    { clear -Htrail. induction trail as [|c t IH]; [reflexivity|].
      cbn [all_space] in Htrail. apply andb_true_iff in Htrail as [Hc Ht].
      cbn [Py.lstrip]. rewrite Hc. auto. }
    now rewrite Hl.
  - change (String c s +:+ trail) with (String c (s +:+ trail)).
    cbn [Py.lstrip]. destruct (Py.is_space c); [exact IH|].
    change (String c (s +:+ trail)) with (String c s +:+ trail).
    now apply rstrip_pad.
Qed.

(** X3. White space before and after the document makes no difference: the
    parser returns the same entries and prints the same lines as for the
    document without it. *)
Theorem parse_ignores_outer_space (lead content trail : string) (w : world) :
  all_space lead = true -> all_space trail = true ->
  parse_content (lead +:+ content +:+ trail) w = parse_content content w.
Proof.
  intros Hlead Htrail. rewrite !parse_content_run. cbv zeta.
  unfold blocks_of. now rewrite strip_pad.
Qed.

Lemma parse_ignores_outer_space_witness :
  parse_content (nl +:+ two_entry_document +:+ " " +:+ nl) empty_world
  = parse_content two_entry_document empty_world.
Proof.
  apply (parse_ignores_outer_space nl two_entry_document (" " +:+ nl)
           empty_world).
  - vm_compute. reflexivity.
  - vm_compute. reflexivity.
Defined.

(** ** File names made from an id *)

Lemma numeral_uint d : numeral (NilEmpty.string_of_uint d) = true.
Proof. induction d; cbn [NilEmpty.string_of_uint numeral]; auto. Qed.

Lemma numeral_app s1 s2 : numeral (s1 +:+ s2) = numeral s1 && numeral s2.
Proof.
  induction s1 as [|c s1 IH]; [reflexivity|].
  change (String c s1 +:+ s2) with (String c (s1 +:+ s2)). cbn [numeral].
  now rewrite IH, andb_assoc.
Qed.

Lemma numeral_zeros n : numeral (Py.zeros n) = true.
Proof. induction n; cbn [Py.zeros numeral]; auto. Qed.

Lemma numeral_nilzero d : numeral (NilZero.string_of_uint d) = true.
Proof. rewrite nilzero_uint. destruct d; try apply numeral_uint. reflexivity. Qed.

Lemma numeral_str_of_int z : numeral (Py.str_of_int z) = true.
Proof.
  unfold Py.str_of_int. destruct (Z.to_int z) as [d|d];
    cbn [NilZero.string_of_int].
  - apply numeral_nilzero.
  - cbn [numeral]. now rewrite numeral_nilzero.
Qed.

Lemma numeral_format_03d z : numeral (Py.format_03d z) = true.
Proof.
  unfold Py.format_03d. rewrite !numeral_app, numeral_zeros, numeral_str_of_int.
  now destruct (z <? 0)%Z.
Qed.

(** Two numerals followed by a dot: the dot ends the numeral. *)
Lemma numeral_cut s1 s2 e1 e2 :
  numeral s1 = true -> numeral s2 = true ->
  s1 +:+ String "." e1 = s2 +:+ String "." e2 -> s1 = s2.
Proof.
  revert s2. induction s1 as [|c s1 IH]; intros [|c2 s2] H1 H2 Heq.
  - reflexivity.
  - change (String c2 s2 +:+ ?r) with (String c2 (s2 +:+ r)) in Heq.
    injection Heq as <- _. discriminate H2.
  - change (String c s1 +:+ ?r) with (String c (s1 +:+ r)) in Heq.
    injection Heq as -> _. discriminate H1.
  - change (String c s1 +:+ ?r) with (String c (s1 +:+ r)) in Heq.
    change (String c2 s2 +:+ ?r) with (String c2 (s2 +:+ r)) in Heq.
    injection Heq as <- Heq. cbn [numeral] in H1, H2.
    apply andb_true_iff in H1 as [_ H1]. apply andb_true_iff in H2 as [_ H2].
    f_equal. now apply IH.
Qed.

Lemma append_cancel_l s t1 t2 : s +:+ t1 = s +:+ t2 -> t1 = t2.
Proof.
  induction s as [|c s IH]; [auto|].
  change (String c s +:+ ?r) with (String c (s +:+ r)). intros [= H]. auto.
Qed.

(** Names that carry ids are equal only for equal ids. *)
Lemma carries_id_inj n1 n2 name :
  carries_id n1 name -> carries_id n2 name -> n1 = n2.
Proof.
  intros (u1 & d1 & e1 & -> & Hn1 & Hi1) (u2 & d2 & e2 & Heq & Hn2 & Hi2).
  assert (Hhead : forall d (n : Z) r r', numeral d = true -> Py.int d = Some n ->
                    String "_" r <> d +:+ r').
  { intros [|c d] n r r' Hd Hi; [discriminate Hi|].
    change (String c d +:+ r') with (String c (d +:+ r')). intros [= <- _].
    discriminate Hd. }
  destruct u1, u2.
  - change ("_" +:+ ?r) with (String "_" r) in Heq. injection Heq as Heq.
    apply numeral_cut in Heq; auto. congruence.
  - exfalso. change ("_" +:+ ?r) with (String "_" r) in Heq.
    change ("" +:+ ?r) with r in Heq. now apply (Hhead d2 n2) in Heq.
  - exfalso. change ("_" +:+ ?r) with (String "_" r) in Heq.
    change ("" +:+ ?r) with r in Heq. symmetry in Heq.
    now apply (Hhead d1 n1) in Heq.
  - change ("" +:+ ?r) with r in Heq.
    apply numeral_cut in Heq; auto. congruence.
Qed.

Lemma numbered_tails_carry n name :
  name ∈ numbered_tails n -> carries_id n name /\ Py.starts_with_sep name = false.
Proof.
  intros Hin. unfold numbered_tails in Hin.
  assert (Hf : carries_id n ("_" +:+ Py.format_03d n +:+ ".wav") /\
               carries_id n ("_" +:+ Py.format_03d n +:+ ".mp3") /\
               carries_id n ("_" +:+ Py.format_03d n +:+ ".mp4") /\
               carries_id n ("_" +:+ Py.format_03d n +:+ ".m4a") /\
               carries_id n ("_" +:+ Py.str_of_int n +:+ ".wav") /\
               carries_id n ("_" +:+ Py.str_of_int n +:+ ".mp3") /\
               carries_id n (Py.format_03d n +:+ ".wav") /\
               carries_id n (Py.format_03d n +:+ ".mp3") /\
               carries_id n (Py.str_of_int n +:+ ".wav") /\
               carries_id n (Py.str_of_int n +:+ ".mp3")).
  { split_and!.
    1-4: exists true, (Py.format_03d n); eexists; split_and!;
      [reflexivity|apply numeral_format_03d|apply int_format_03d].
    1-2: exists true, (Py.str_of_int n); eexists; split_and!;
      [reflexivity|apply numeral_str_of_int|apply int_str_of_int].
    1-2: exists false, (Py.format_03d n); eexists; split_and!;
      [reflexivity|apply numeral_format_03d|apply int_format_03d].
    1-2: exists false, (Py.str_of_int n); eexists; split_and!;
      [reflexivity|apply numeral_str_of_int|apply int_str_of_int]. }
  assert (Hsep : forall d r, numeral d = true -> Py.int d = Some n ->
                   Py.starts_with_sep (d +:+ r) = false).
  { intros [|c d] r Hd Hi; [discriminate Hi|].
    change (String c d +:+ r) with (String c (d +:+ r)). cbn [numeral] in Hd.
    apply andb_true_iff in Hd as [Hc _]. unfold Py.starts_with_sep.
    destruct (Ascii.eqb_spec c "/") as [->|Hne]; [discriminate Hc|].
    destruct c as [[] [] [] [] [] [] [] []]; try reflexivity. congruence. }
  destruct Hf as (H1 & H2 & H3 & H4 & H5 & H6 & H7 & H8 & H9 & H10).
  repeat (apply elem_of_cons in Hin as [->|Hin]); [..|now apply elem_of_nil in Hin].
  all: split; [assumption|];
    first [reflexivity
          |apply (Hsep _ _ (numeral_format_03d n) (int_format_03d n))
          |apply (Hsep _ _ (numeral_str_of_int n) (int_str_of_int n))].
Qed.

(** [os.path.join] puts what leads up to the name in front of it. *)
Lemma path_join_append d prefix name :
  Py.starts_with_sep name = false ->
  Py.path_join d (prefix +:+ name) = Py.path_join d prefix +:+ name.
Proof.
  intros Hname. unfold Py.path_join.
  assert (Hs : Py.starts_with_sep (prefix +:+ name) = Py.starts_with_sep prefix).
  { destruct prefix as [|c r]; [exact Hname|reflexivity]. }
  rewrite Hs. destruct (Py.starts_with_sep prefix); [reflexivity|].
  destruct (negb (Py.truthy d) || Py.ends_with_sep d).
  - now rewrite append_assoc.
  - now rewrite !append_assoc.
Qed.

(** X4. The output path of an entry determines its id: two entries with
    different ids never share an output file, whatever the output directory
    and the output prefix are. With C10 this makes the output files
    correspond one to one to the ids. *)
Theorem distinct_ids_distinct_output_files (a : args) (i j : Z) :
  i <> j -> output_path_of a i <> output_path_of a j.
Proof.
  unfold output_path_of, output_filename_of. intros Hij Heq. apply Hij.
  assert (Hc : forall n, carries_id n ("_" +:+ Py.format_03d n +:+ ".wav")).
  { intros n. exists true, (Py.format_03d n), "wav". split_and!;
      [reflexivity|apply numeral_format_03d|apply int_format_03d]. }
  rewrite !path_join_append in Heq by reflexivity.
  apply append_cancel_l in Heq.
  apply (carries_id_inj i j ("_" +:+ Py.format_03d i +:+ ".wav")); [apply Hc|].
  rewrite Heq. apply Hc.
Qed.

Lemma distinct_ids_distinct_output_files_witness :
  output_path_of example_args 1 <> output_path_of example_args 1001.
Proof.
  apply (distinct_ids_distinct_output_files example_args 1 1001). lia.
Defined.

(** X5. A file that [find_reference_audio] returns for one id is never
    returned for another id, whatever the directory, the prefix and the
    files on disk are: each of the ten candidate names carries the id, in
    three digits or as it is, between the prefix and the extension. *)
Theorem reference_file_determines_the_id
    (d prefix : string) (i j : Z) (p : string) (w1 w2 : world) :
  i <> j ->
  (find_reference_audio (Some d) i prefix w1).1 = Ok (Some p) ->
  (find_reference_audio (Some d) j prefix w2).1 <> Ok (Some p).
Proof.
  unfold find_reference_audio. rewrite !first_existing_head. cbn [fst].
  intros Hij [= H1] [= H2]. apply Hij.
  apply head_filter_Some in H1 as (k1 & H1 & _).
  apply head_filter_Some in H2 as (k2 & H2 & _).
  change (((fun t => Py.path_join d (prefix +:+ t)) <$> numbered_tails i) !! k1
          = Some p) in H1.
  change (((fun t => Py.path_join d (prefix +:+ t)) <$> numbered_tails j) !! k2
          = Some p) in H2.
  apply list_lookup_fmap_Some in H1 as (t1 & -> & H1).
  apply list_lookup_fmap_Some in H2 as (t2 & Heq & H2).
  apply list_elem_of_lookup_2, numbered_tails_carry in H1 as [Hc1 Hs1].
  apply list_elem_of_lookup_2, numbered_tails_carry in H2 as [Hc2 Hs2].
  rewrite !path_join_append in Heq by assumption.
  apply append_cancel_l in Heq. subst t2.
  exact (carries_id_inj i j t1 Hc1 Hc2).
Qed.

Lemma reference_file_determines_the_id_witness :
  (find_reference_audio (Some "refs") 2 "segment" (world_of example_store)).1
  <> Ok (Some "refs/segment_001.wav").
Proof.
  apply (reference_file_determines_the_id "refs" "segment" 1 2
           "refs/segment_001.wav" (world_of example_store)
           (world_of example_store)).
  - lia.
  - vm_compute. reflexivity.
Defined.

(** ** The calls of one synthesis *)

(** X6. One [synthesize_with_cosyvoice], step by step. The reference is
    loaded at 16 kHz, with nothing changed but the call; when the load
    raises, the synthesis raises that exception there. Otherwise the seed
    is installed and one inference call is made with it, in instruct mode,
    after the instruct line, when the instruction is not empty and
    zero-shot otherwise, on the loaded reference. When the generator
    raises, the synthesis raises that exception; when it yields nothing,
    the synthesis returns with no save. Otherwise its first result is what
    is saved, to the output path at the sample rate of the model: when the
    save raises, the synthesis raises that exception and the store is as it
    was; when it does not, those samples are at the output path and nothing
    else has changed in the store. *)
Theorem synthesize_protocol
    (cosyvoice : engine) (text prompt ref_path out ins : string) (sd : Z)
    (w : world) :
  let run := synthesize_with_cosyvoice cosyvoice text prompt ref_path out ins sd w in
  let loading := world_at_load ref_path w in
  let asked := world_at_inference text prompt ref_path ins sd w in
  let rate := sample_rate cosyvoice in
  (forall e,
      load_wav cosyvoice loading ref_path 16000 = inl e ->
      run = (Raise e, loading)) /\
  (forall speech,
      load_wav cosyvoice loading ref_path 16000 = inr speech ->
      (forall e,
          first_result cosyvoice text prompt ins speech asked = GenRaise e ->
          run = (Raise e, asked)) /\
      (first_result cosyvoice text prompt ins speech asked = GenStop ->
       run = (Ok tt, asked)) /\
      (forall t,
          first_result cosyvoice text prompt ins speech asked = GenYield t ->
          (forall e,
              save_error cosyvoice (world_at_save out t rate asked) out t rate
              = Some e ->
              run = (Raise e, world_at_save out t rate asked)) /\
          (save_error cosyvoice (world_at_save out t rate asked) out t rate
           = None ->
           run = (Ok tt, world_saved out t rate asked)))).
Proof.
  cbv zeta. rewrite synthesize_run. cbv zeta. split.
  - intros e Hload. now rewrite Hload.
  - intros speech Hload. rewrite Hload. split_and!.
    + intros e Hgen. now rewrite Hgen.
    + intros Hgen. now rewrite Hgen.
    + intros t Hgen. rewrite Hgen. split.
      * intros e Hsave. now rewrite Hsave.
      * intros Hsave. now rewrite Hsave.
Qed.

Lemma loads_app cs1 cs2 : loads (cs1 ++ cs2) = loads cs1 ++ loads cs2.
Proof. apply omap_app. Qed.

(** The calls of one synthesis load the reference once, at 16 kHz, and the
    store afterwards is the one before or has the audio at the output
    path. *)
Lemma synthesize_loads cosyvoice text prompt ref_path out ins sd w :
  let run := synthesize_with_cosyvoice cosyvoice text prompt ref_path out ins sd w in
  exists cs,
    calls run.2 = calls w ++ cs /\
    loads cs = [(ref_path, 16000)] /\
    (fs run.2 = fs w \/
     exists t, fs run.2 = <[out := AudioFile t (sample_rate cosyvoice)]> (fs w)).
Proof.
  cbv zeta.
  unfold synthesize_with_cosyvoice, call_load_wav, set_all_random_seed,
    torchaudio_save, record_call, bind, ret, raise, print, emit.
  cbn.
  destruct (load_wav cosyvoice _ ref_path 16000) as [e|speech]; cbn.
  { exists [LoadWav ref_path 16000]. auto. }
  destruct (Py.truthy ins); cbn.
  - destruct (inference_instruct2 cosyvoice _ text ins speech) as [t| |e]; cbn.
    + destruct (save_error cosyvoice _ out t (sample_rate cosyvoice)) as [e|];
        cbn; rewrite <- ?app_assoc; cbn; eexists; split_and!; eauto.
    + rewrite <- ?app_assoc; cbn; eexists; split_and!; eauto.
    + rewrite <- ?app_assoc; cbn; eexists; split_and!; eauto.
  - destruct (inference_zero_shot cosyvoice _ text prompt speech) as [t| |e]; cbn.
    + destruct (save_error cosyvoice _ out t (sample_rate cosyvoice)) as [e|];
        cbn; rewrite <- ?app_assoc; cbn; eexists; split_and!; eauto.
    + rewrite <- ?app_assoc; cbn; eexists; split_and!; eauto.
    + rewrite <- ?app_assoc; cbn; eexists; split_and!; eauto.
Qed.

Section Trace.

Variables (a : args) (cosyvoice : engine) (total : nat) (u : bool).

(** One pass loads at most one reference, the one the lookup gave, and
    touches no path but the output path of the entry. *)
Lemma process_subtitle_trace idx s c w :
  let run := process_subtitle a cosyvoice total u (idx, s) c w in
  let out := output_path_of a (Subtitle.id s) in
  exists cs,
    calls run.2 = calls w ++ cs /\
    (loads cs = [] \/
     exists p, (reference_for a u (Subtitle.id s) w).1 = Ok (Some p) /\
               loads cs = [(p, 16000)]) /\
    (forall q, q <> out -> fs run.2 !! q = fs w !! q) /\
    (forall q, fs run.2 !! q = fs w !! q \/
               exists t, fs run.2 !! q = Some (AudioFile t (sample_rate cosyvoice))) /\
    keeps_paths (fs w) (fs run.2).
Proof.
  cbv zeta. rewrite process_subtitle_eq. cbv zeta.
  set (w0 := emit w (entry_lines total idx s)).
  pose proof (reference_for_world a u (Subtitle.id s) w0) as Hw.
  pose proof (reference_for_store a u (Subtitle.id s) w0) as Hr.
  change (fs w0) with (fs w) in Hr.
  rewrite <- (reference_for_store a u (Subtitle.id s) w) in Hr.
  destruct (reference_for a u (Subtitle.id s) w0) as [[[p|]|e] w1];
    cbn [fst snd] in Hw, Hr; subst w1.
  2-3: exists []; cbn; rewrite app_nil_r; split_and!; auto using keeps_paths_refl.
  destruct (Py.truthy p).
  2: exists []; cbn; rewrite app_nil_r; split_and!; auto using keeps_paths_refl.
  destruct (skip_existing a && path_exists (fs w0) _).
  1: exists []; cbn; rewrite app_nil_r; split_and!; auto using keeps_paths_refl.
  destruct (synthesize_loads cosyvoice (Subtitle.text s) (prompt_text a) p
              (output_path_of a (Subtitle.id s)) (instruct a)
              (seed a + Subtitle.id s) w0) as (cs & Hc & Hl & Hfs).
  cbv zeta in *.
  destruct (synthesize_with_cosyvoice _ _ _ _ _ _ _ _) as [r w2];
    cbn [fst snd] in *.
  assert (Hdone : exists cs0,
             calls w2 = calls w ++ cs0 /\
             (loads cs0 = [] \/
              exists p0, (reference_for a u (Subtitle.id s) w).1 = Ok (Some p0) /\
                         loads cs0 = [(p0, 16000)]) /\
             (forall q, q <> output_path_of a (Subtitle.id s) ->
                        fs w2 !! q = fs w !! q) /\
             (forall q, fs w2 !! q = fs w !! q \/
                        exists t, fs w2 !! q
                                  = Some (AudioFile t (sample_rate cosyvoice))) /\
             keeps_paths (fs w) (fs w2)).
  { exists cs. split_and!.
    - exact Hc.
    - right. exists p. split; [now symmetry|exact Hl].
    - intros q Hq. destruct Hfs as [->|(t & ->)]; [reflexivity|].
      now rewrite lookup_insert_ne by congruence.
    - intros q. destruct Hfs as [->|(t & ->)]; [now left|].
      destruct (decide (q = output_path_of a (Subtitle.id s))) as [->|Hne].
      + right. exists t. now rewrite lookup_insert_eq.
      + left. now rewrite lookup_insert_ne by congruence.
    - destruct Hfs as [->|(t & ->)]; [apply keeps_paths_refl|].
      intros q Hq. now apply path_exists_insert_mono. }
  destruct r as [[]|e]; exact Hdone.
Qed.

Let body := process_subtitle a cosyvoice total u.

(** The loop: which references it loads, which paths it leaves alone and
    what it leaves at the others. *)
Lemma for_each_trace items c w :
  let run := for_each body items c w in
  exists ps,
    loads (calls run.2) = loads (calls w) ++ ps /\
    Forall (fun pr => pr.2 = 16000 /\
              exists s w0, s ∈ items.*2 /\ keeps_paths (fs w0) (fs run.2) /\
                (reference_for a u (Subtitle.id s) w0).1 = Ok (Some pr.1)) ps /\
    (forall q, (forall s, s ∈ items.*2 -> q <> output_path_of a (Subtitle.id s)) ->
               fs run.2 !! q = fs w !! q) /\
    (forall q, fs run.2 !! q = fs w !! q \/
               exists t, fs run.2 !! q = Some (AudioFile t (sample_rate cosyvoice))) /\
    keeps_paths (fs w) (fs run.2).
Proof.
  cbv zeta. revert c w. induction items as [|[idx s] items IH]; intros c w.
  - exists []. cbn. rewrite app_nil_r. split_and!; auto using keeps_paths_refl.
  - cbn [for_each]. unfold bind.
    destruct (process_subtitle_trace idx s c w)
      as (cs & Hc & Hl & Hfs & Hwr & Hk).
    cbv zeta in *. fold body in Hc, Hl, Hfs, Hwr, Hk.
    destruct (body (idx, s) c w) as [[c1|e] w1]; cbn [fst snd] in *.
    + destruct (IH c1 w1) as (ps & Hps & Hall & Hframe & Hwritten & Hkeep).
      set (w' := (for_each body items c1 w1).2) in *.
      assert (Hkw : keeps_paths (fs w) (fs w'))
        by (eapply keeps_paths_trans; eauto).
      exists (loads cs ++ ps). split_and!.
      * now rewrite Hps, Hc, loads_app, app_assoc.
      * apply Forall_app. split.
        -- destruct Hl as [-> | (p & Hp & ->)]; [constructor|].
           repeat constructor. exists s, w. split_and!; auto. left.
        -- eapply Forall_impl; [exact Hall|]. cbn.
           intros pr (Hr & s' & w0 & Hin & Hk0 & Href). split; [exact Hr|].
           exists s', w0. split_and!; auto. now right.
      * intros q Hq. rewrite Hframe.
        -- apply Hfs. apply Hq. left.
        -- intros s' Hin. apply Hq. now right.
      * intros q. destruct (Hwritten q) as [Hq|Hq]; [|now right].
        rewrite Hq. apply Hwr.
      * exact Hkw.
    + exists (loads cs). split_and!.
      * now rewrite Hc, loads_app.
      * destruct Hl as [-> | (p & Hp & ->)]; [constructor|].
        repeat constructor. exists s, w. split_and!; auto. left.
      * intros q Hq. apply Hfs. apply Hq. left.
      * exact Hwr.
      * exact Hk.
Qed.

End Trace.

(** ** Single mode *)

(** X7. Single mode with a reference path never raises. It ends with the
    line for a missing reference, in which case no call is made, or with
    the line for the saved file, or with the line for an error, in which
    case the traceback of that error goes to the error stream. It touches
    no path but [output_single.wav] in the output directory, loads the
    reference once at 16 kHz, and installs the seed of the command line as
    it is. *)
Theorem single_mode_contains_failures
    (a : single_args) (cosyvoice : engine) (t : session) (r : string) :
  reference a = Some r ->
  let run := process_single_mode a cosyvoice t in
  run.1 = Ok tt /\
  verdict a r t run.2 /\
  (forall q, q <> single_output_path a ->
             fs (inner run.2) !! q = fs (inner t) !! q) /\
  exists cs,
    calls (inner run.2) = calls (inner t) ++ cs /\
    (path_exists (fs (inner t)) r = false /\ cs = [] \/
     path_exists (fs (inner t)) r = true /\
     loads cs = [(r, 16000)] /\
     (seeds cs = [] \/ seeds cs = [seed (common a)])).
Proof.
  intros Href. cbv zeta. unfold process_single_mode, verdict. rewrite Href.
  cbn [inner display].
  destruct (path_exists (fs (inner t)) r) eqn:Hr; cbn [negb].
  2: { cbn [fst snd inner shown stderr display]. split_and!; auto.
       - left. split; [now rewrite last_snoc|reflexivity].
       - exists []. rewrite app_nil_r. auto. }
  destruct (synthesize_loads cosyvoice (text a) (prompt_text (common a)) r
              (Py.path_join (output (common a)) "output_single.wav")
              (instruct (common a)) (seed (common a)) (inner t))
    as (cs & Hc & Hl & Hfs).
  destruct (synthesize_effect cosyvoice (text a) (prompt_text (common a)) r
              (Py.path_join (output (common a)) "output_single.wav")
              (instruct (common a)) (seed (common a)) (inner t))
    as (ms & cs' & _ & _ & Hc' & Hseeds & _).
  cbv zeta in *. rewrite Hc in Hc'. apply app_inv_head in Hc'. subst cs'.
  fold (single_output_path a) in *.
  destruct (synthesize_with_cosyvoice _ _ _ _ _ _ _ _) as [[[]|e] w2];
    cbn [fst snd inner shown stderr display after_call print_exc] in *.
  - split_and!; auto.
    + right. left. split; [now rewrite last_snoc|reflexivity].
    + intros q Hq. destruct Hfs as [->|(x & ->)]; [reflexivity|].
      now rewrite lookup_insert_ne by congruence.
    + exists cs. split; [exact Hc|]. right. split_and!; auto.
      destruct Hseeds as [[-> _]|[-> _]]; auto.
  - split_and!; auto.
    + right. right. exists e. split; [now rewrite last_snoc|reflexivity].
    + intros q Hq. destruct Hfs as [->|(x & ->)]; [reflexivity|].
      now rewrite lookup_insert_ne by congruence.
    + exists cs. split; [exact Hc|]. right. split_and!; auto.
      destruct Hseeds as [[-> _]|[-> _]]; auto.
Qed.

Lemma single_mode_contains_failures_witness :
  (process_single_mode single_example example_engine
     (fresh_session example_store)).1 = Ok tt.
Proof.
  apply (single_mode_contains_failures single_example example_engine
           (fresh_session example_store) "refs/segment_001.wav").
  reflexivity.
Defined.

(** Single mode with a reference path returns normally. *)
Lemma single_mode_returns a cosyvoice t r :
  reference a = Some r -> (process_single_mode a cosyvoice t).1 = Ok tt.
Proof.
  intros Href. unfold process_single_mode. rewrite Href.
  destruct (negb (path_exists _ r)); [reflexivity|]. cbv zeta.
  now destruct (synthesize_with_cosyvoice _ _ _ _ _ _ _ _) as [[[]|e] w].
Qed.

(** X8. The only exception that leaves single mode is the [TypeError] of the
    existence check, and it does so exactly when there is no reference
    path (the option [--reference] has no default): the error comes after
    the three lines of the banner and before anything else is done. *)
Theorem single_mode_raises_only_without_reference
    (a : single_args) (cosyvoice : engine) (t : session) :
  let run := process_single_mode a cosyvoice t in
  (forall e, run.1 = Raise e ->
     reference a = None /\ (exists detail, e = TypeError detail) /\
     inner run.2 = inner t /\ stderr run.2 = stderr t /\
     shown run.2
     = shown t ++ [inl (Separator true); inr SingleTitle;
                   inl (Separator false)]) /\
  (reference a = None -> exists e, run.1 = Raise e).
Proof.
  cbv zeta. destruct (reference a) as [r|] eqn:Href.
  - rewrite (single_mode_returns a cosyvoice t r Href).
    split; [intros e He|intros He]; discriminate He.
  - unfold process_single_mode. rewrite Href.
    cbn [fst snd inner shown stderr display]. split.
    + intros e [= <-]. split_and!; eauto.
    + eauto.
Qed.

(** A single-mode run from start to end, and one whose reference cannot be
    loaded: the error is shown, its traceback goes to the error stream, and
    the run returns normally. *)
Example single_mode_end_to_end :
  let run := process_single_mode single_example example_engine
               (fresh_session example_store) in
  run.1 = Ok tt /\
  shown run.2
  = [inl (Separator true); inr SingleTitle; inl (Separator false);
     inr (TextLine "Hello"); inr (ReferenceLine "refs/segment_001.wav");
     inr (SavedPath "out/output_single.wav")] /\
  calls (inner run.2)
  = [LoadWav "refs/segment_001.wav" 16000; SetSeed 42;
     ZeroShot (Some 42) "Hello" ""; Save "out/output_single.wav" [1] 24000] /\
  fs (inner run.2) !! "out/output_single.wav" = Some (AudioFile [1] 24000).
Proof. vm_compute. split_and!; reflexivity. Qed.

Example single_mode_failed_load :
  let run := process_single_mode
               {| common := example_args; text := "Hello";
                  reference := Some "refs" |}
               example_engine (fresh_session example_store) in
  run.1 = Ok tt /\
  last (shown run.2) = Some (inr (ErrSingle (OSError "cannot open the reference"))) /\
  stderr run.2 = [OSError "cannot open the reference"] /\
  calls (inner run.2) = [LoadWav "refs" 16000].
Proof. vm_compute. split_and!; reflexivity. Qed.

Example single_mode_without_reference :
  (process_single_mode no_reference_example example_engine
     (fresh_session example_store)).1
  = Raise (TypeError "stat: path should be string, bytes, os.PathLike or integer, not NoneType").
Proof. vm_compute. reflexivity. Qed.

(** ** A run that ends before the loop *)

(** X9. A batch run that stops at a check (the subtitle file is missing, the
    reference check fails, or the file yields no entry) returns normally,
    makes no call, changes no file and leaves the seed alone, attempts no
    entry and prints no summary. *)
Theorem early_stop_does_nothing
    (a : args) (cosyvoice : engine) (w : world) :
  path_exists (fs w) (srt a) = false \/
  reference_missing a (fs w) = true \/
  (exists raw, fs w !! srt a = Some (TextFile raw) /\ subtitles_of raw = []) ->
  let run := process_batch_mode a cosyvoice w in
  run.1 = Ok tt /\ fs run.2 = fs w /\ calls run.2 = calls w /\
  rng run.2 = rng w /\
  events (stdout run.2) = events (stdout w) /\
  exists ms, stdout run.2 = stdout w ++ ms /\ SummaryTitle ∉ ms.
Proof.
  intros Hstop. cbv zeta.
  destruct (preflight_stops a cosyvoice w) as (Hsrt & Href & Hempty).
  destruct (path_exists (fs w) (srt a)) eqn:Hp.
  2: { rewrite (Hsrt eq_refl). cbn [fst snd fs calls rng stdout emit].
       split_and!; auto.
       - rewrite events_app. cbn. now rewrite app_nil_r.
       - eexists. split; [reflexivity|]. intros Hin. split_member Hin. }
  destruct (reference_missing a (fs w)) eqn:Hm.
  { rewrite (Href eq_refl eq_refl). cbn [fst snd fs calls rng stdout emit].
    split_and!; auto.
    - rewrite events_app. cbn. now rewrite app_nil_r.
    - eexists. split; [reflexivity|]. intros Hin. split_member Hin. }
  destruct Hstop as [Hstop|[Hstop|(raw & Hfile & Hnone)]]; try discriminate.
  rewrite (Hempty raw Hfile eq_refl Hnone).
  cbn [fst snd fs calls rng stdout emit]. split_and!; auto.
  - rewrite !events_app. unfold warnings_of. rewrite events_warnings. cbn.
    now rewrite app_nil_r.
  - eexists. split; [reflexivity|]. intros Hin.
    apply elem_of_app in Hin as [Hin|Hin]; [split_member Hin|].
    apply elem_of_cons in Hin as [Hin|Hin]; [discriminate Hin|].
    apply elem_of_app in Hin as [Hin|Hin]; [|split_member Hin].
    unfold warnings_of in Hin. apply list_elem_of_omap in Hin as (b & _ & Hb).
    unfold warning_of_block in Hb.
    destruct (Py.split Py.newline (Py.strip b)) as [|? [|? [|? ?]]];
      try discriminate.
    destruct (Py.int _); discriminate.
Qed.

Lemma early_stop_does_nothing_witness :
  (process_batch_mode example_args example_engine empty_world).1 = Ok tt.
Proof.
  apply (early_stop_does_nothing example_args example_engine empty_world).
  left. reflexivity.
Defined.

(** ** A batch without a reference source *)

(** With no reference source the run gets as far as the lookup for the
    first entry. *)
Lemma process_batch_mode_unreferenced a cosyvoice w raw s rest :
  reference_given a = false ->
  fs w !! srt a = Some (TextFile raw) ->
  subtitles_of raw = s :: rest ->
  process_batch_mode a cosyvoice w
  = (Raise (TypeError "expected str, bytes or os.PathLike object, not NoneType"),
     emit w (banner ++ [ParsingSrt (srt a)] ++ warnings_of raw
             ++ [ParsedCount (length (s :: rest));
                 Processing (length (s :: rest)); Dashes]
             ++ entry_lines (length (s :: rest)) 1 s)).
Proof.
  intros Hgiven Hfile Hs.
  unfold reference_given in Hgiven. apply orb_false_iff in Hgiven as [Hd Ha].
  destruct (reference_dir a) as [d|] eqn:Hdir; [discriminate Hd|].
  destruct (audio_path a) as [p|] eqn:Haudio; [discriminate Ha|].
  assert (Hcheck : reference_missing a (fs w) = false)
    by (unfold reference_missing; now rewrite Hdir).
  rewrite (process_batch_mode_run a cosyvoice w raw Hfile Hcheck). cbv zeta.
  rewrite Hs. unfold process_subtitles. cbn [enumerate for_each].
  unfold bind at 1. rewrite process_subtitle_eq. cbv zeta.
  rewrite Haudio. cbn [Py.is_not_none]. unfold reference_for.
  unfold find_reference_audio. rewrite Hdir. unfold patterns.
  cbn [first_existing]. unfold bind at 1. unfold os_path_join, raise.
  rewrite !emit_emit, <- !app_assoc. reflexivity.
Qed.

(** X10. A batch run with neither a reference directory nor a shared
    reference audio passes the checks, and when the file has an entry it
    raises a [TypeError] at the lookup for the first entry: the header of
    that entry is the last thing printed, no call is made, no file is
    changed and no summary is printed. *)
Theorem batch_without_reference_source_raises
    (a : args) (cosyvoice : engine) (w : world) (raw : string) :
  reference_given a = false ->
  fs w !! srt a = Some (TextFile raw) ->
  subtitles_of raw <> [] ->
  let run := process_batch_mode a cosyvoice w in
  let n := length (subtitles_of raw) in
  run.1 = Raise (TypeError "expected str, bytes or os.PathLike object, not NoneType") /\
  fs run.2 = fs w /\ calls run.2 = calls w /\
  exists first,
    head (subtitles_of raw) = Some first /\
    stdout run.2
    = stdout w ++ banner ++ [ParsingSrt (srt a)] ++ warnings_of raw
      ++ [ParsedCount n; Processing n; Dashes] ++ entry_lines n 1 first.
Proof.
  intros Hgiven Hfile Hsome. cbv zeta.
  destruct (subtitles_of raw) as [|s rest] eqn:Hs; [congruence|].
  rewrite (process_batch_mode_unreferenced a cosyvoice w raw s rest
             Hgiven Hfile Hs).
  cbn [fst snd fs calls stdout emit head]. split_and!; auto.
  exists s. split; reflexivity.
Qed.

Lemma batch_without_reference_source_raises_witness :
  (process_batch_mode single_reference_args example_engine
     (world_of one_entry_store)).1
  = Raise (TypeError "expected str, bytes or os.PathLike object, not NoneType").
Proof.
  apply (batch_without_reference_source_raises single_reference_args
           example_engine (world_of one_entry_store)
           (document ["1"; "00:00:01,000 --> 00:00:02,000"; "Hello"])).
  - reflexivity.
  - reflexivity.
  - vm_compute. discriminate.
Defined.

(** ** What escapes a batch run *)

(** Something that exists at the path of the subtitle file and cannot be
    read as text passes the existence check and stops the parser. *)
Lemma process_batch_mode_unreadable a cosyvoice w n e :
  fs w !! srt a = Some n -> read_error n = Some e ->
  reference_missing a (fs w) = false ->
  process_batch_mode a cosyvoice w
  = (Raise e, emit w (banner ++ [ParsingSrt (srt a)])).
Proof.
  intros Hnode Herr Hcheck. unfold process_batch_mode.
  unfold bind at 1 2 3. unfold print at 1 2 3. rewrite !emit_emit. cbn [app].
  unfold bind at 1. unfold os_path_exists at 1. cbn [fs emit].
  assert (Hex : path_exists (fs w) (srt a) = true).
  { unfold path_exists. rewrite Hnode. apply bool_decide_eq_true. eauto. }
  rewrite Hex. cbn [negb]. unfold bind at 1. cbn beta. cbn [fs emit].
  rewrite Hcheck. unfold bind at 1. unfold parse_srt.
  unfold bind at 1. unfold print at 1. unfold bind at 1. unfold read_text.
  cbn [fs emit]. rewrite Hnode, emit_emit.
  destruct n; cbn in Herr; [injection Herr as <-|discriminate Herr
                           |injection Herr as <-]; reflexivity.
Qed.

(** When a run started with a subtitle path raises: behind the checks, at
    the read of the file or at the lookup for the first entry. *)
Lemma process_batch_mode_raises
    (a : args) (cosyvoice : engine) (w : world) (e : exn) :
  (process_batch_mode a cosyvoice w).1 = Raise e <->
  reference_missing a (fs w) = false /\
  ((exists n, fs w !! srt a = Some n /\ read_error n = Some e) \/
   (exists raw,
       fs w !! srt a = Some (TextFile raw) /\ subtitles_of raw <> [] /\
       reference_given a = false /\
       e = TypeError "expected str, bytes or os.PathLike object, not NoneType")).
Proof.
  destruct (preflight_stops a cosyvoice w) as (Hsrt & Href & Hempty).
  split.
  - intros Hraise.
    destruct (path_exists (fs w) (srt a)) eqn:Hex;
      [|rewrite (Hsrt eq_refl) in Hraise; discriminate Hraise].
    destruct (reference_missing a (fs w)) eqn:Hcheck;
      [rewrite (Href eq_refl eq_refl) in Hraise; discriminate Hraise|].
    split; [reflexivity|].
    unfold path_exists in Hex. apply bool_decide_eq_true in Hex as [n Hn].
    destruct (read_error n) as [e'|] eqn:Herr.
    { rewrite (process_batch_mode_unreadable a cosyvoice w n e' Hn Herr Hcheck)
        in Hraise.
      injection Hraise as <-. left. now exists n. }
    destruct n as [|raw|t r]; try discriminate Herr.
    right. exists raw. split; [exact Hn|].
    destruct (subtitles_of raw) as [|s rest] eqn:Hs.
    { rewrite (Hempty raw Hn eq_refl Hs) in Hraise. discriminate Hraise. }
    split; [discriminate|].
    destruct (reference_given a) eqn:Hgiven.
    + exfalso.
      rewrite (process_batch_mode_run a cosyvoice w raw Hn Hcheck) in Hraise.
      cbv zeta in Hraise. rewrite Hs in Hraise.
      destruct (process_subtitles_outcomes a cosyvoice (s :: rest) no_counts
                  (emit (emit w (banner ++ [ParsingSrt (srt a)]
                                 ++ warnings_of raw
                                 ++ [ParsedCount (length (s :: rest))]))
                     [Processing (length (s :: rest)); Dashes]) Hgiven)
        as (os & w' & Hrun & _).
      rewrite Hrun in Hraise. discriminate Hraise.
    + rewrite (process_batch_mode_unreferenced a cosyvoice w raw s rest
                 Hgiven Hn Hs) in Hraise.
      injection Hraise as <-. auto.
  - intros [Hcheck [(n & Hn & Herr)|(raw & Hn & Hsome & Hgiven & ->)]].
    + now rewrite (process_batch_mode_unreadable a cosyvoice w n e Hn Herr Hcheck).
    + destruct (subtitles_of raw) as [|s rest] eqn:Hs; [congruence|].
      now rewrite (process_batch_mode_unreferenced a cosyvoice w raw s rest
                     Hgiven Hn Hs).
Qed.

(** X11. What escapes a batch run. Every exception raised while an entry is
    synthesised is caught and counted. The run raises in three situations
    only. There is no subtitle path, as when [main] takes the batch branch
    for an empty [--text]: the existence check raises a [TypeError]. Or the
    reference check has passed and what is at the path of the subtitle file
    exists and cannot be read as text (the check is an existence check, so
    a directory passes it): the error of the read escapes. Or the reference
    check has passed, there is neither a reference directory nor a shared
    reference audio, and the file has an entry: the [TypeError] of the
    lookup escapes. *)
Theorem what_escapes_a_batch_run
    (srt_option : option string) (a : args) (cosyvoice : engine) (w : world)
    (e : exn) :
  (process_batch_mode_from_main srt_option a cosyvoice w).1 = Raise e <->
  (srt_option = None /\
   e = TypeError "stat: path should be string, bytes, os.PathLike or integer, not NoneType") \/
  (exists p,
      srt_option = Some p /\ reference_missing a (fs w) = false /\
      ((exists n, fs w !! p = Some n /\ read_error n = Some e) \/
       (exists raw,
           fs w !! p = Some (TextFile raw) /\ subtitles_of raw <> [] /\
           reference_given a = false /\
           e = TypeError "expected str, bytes or os.PathLike object, not NoneType"))).
Proof.
  destruct srt_option as [p|]; cbn [process_batch_mode_from_main].
  - rewrite (process_batch_mode_raises (with_srt a p) cosyvoice w e).
    change (reference_missing (with_srt a p) (fs w))
      with (reference_missing a (fs w)).
    change (reference_given (with_srt a p)) with (reference_given a).
    change (srt (with_srt a p)) with p.
    split.
    + intros [Hcheck Hcases]. right. exists p. auto.
    + intros [[Hnone _]|(q & [= <-] & Hcheck & Hcases)]; [discriminate|auto].
  - unfold bind, print, raise. cbn [fst]. split.
    + intros [= <-]. now left.
    + intros [[_ ->]|(q & Hq & _)]; [reflexivity|discriminate].
Qed.

(** A directory where the subtitle file should be: the checks pass and the
    error of [open] comes out of the run. *)
Example directory_as_srt_raises :
  process_batch_mode example_args example_engine (world_of directory_store)
  = (Raise (OSError "IsADirectoryError"),
     emit (world_of directory_store) (banner ++ [ParsingSrt "subs.srt"])).
Proof. vm_compute. reflexivity. Qed.

(** ** The preview of the text *)

Lemma prefix_cons n c s : Py.prefix (S n) (String c s) = String c (Py.prefix n s).
Proof. reflexivity. Qed.

(** [s[:n]] is the whole of [s] when [s] has at most [n] characters, and its
    first [n] characters otherwise. *)
Lemma prefix_split n s :
  exists hidden,
    s = Py.prefix n s +:+ hidden /\
    (String.length s <= n -> hidden = EmptyString)%nat /\
    (n < String.length s -> String.length (Py.prefix n s) = n)%nat.
Proof.
  revert s. induction n as [|n IH]; intros s.
  - exists s. destruct s; cbn; split_and!; auto; lia.
  - destruct s as [|c s].
    + exists EmptyString. cbn. split_and!; auto; lia.
    + destruct (IH s) as (hidden & Hs & Hshort & Hlong). exists hidden.
      rewrite prefix_cons.
      change (String c (Py.prefix n s) +:+ hidden)
        with (String c (Py.prefix n s +:+ hidden)).
      cbn [String.length]. split_and!.
      * now rewrite <- Hs.
      * intros H. apply Hshort. lia.
      * intros H. rewrite Hlong; lia.
Qed.

(** X12. Every pass of the loop opens with the header of the entry, with
    its position, the total and the id, and with the preview of the text:
    the whole text and no ellipsis when the text has at most 80
    characters, the first 80 characters and the ellipsis otherwise. *)
Theorem entry_preview
    (a : args) (cosyvoice : engine) (total : nat) (u : bool) (idx : nat)
    (s : Subtitle.t) (c : counters) (w : world) :
  let run := process_subtitle a cosyvoice total u (idx, s) c w in
  exists preview hidden ellipsis rest,
    stdout run.2
    = stdout w ++ EntryHeader idx total (Subtitle.id s)
                  :: EntryText preview ellipsis :: rest /\
    Subtitle.text s = preview +:+ hidden /\
    ((String.length (Subtitle.text s) <= 80)%nat ->
     hidden = EmptyString /\ ellipsis = false) /\
    ((80 < String.length (Subtitle.text s))%nat ->
     String.length preview = 80%nat /\ ellipsis = true).
Proof.
  cbv zeta.
  destruct (process_subtitle_step a cosyvoice total u idx s c w)
    as (ms & cs & Hout & _).
  cbv zeta in Hout.
  destruct (prefix_split 80 (Subtitle.text s)) as (hidden & Hs & Hshort & Hlong).
  exists (Py.prefix 80 (Subtitle.text s)), hidden,
    (80 <? String.length (Subtitle.text s))%nat, ms.
  split_and!.
  - exact Hout.
  - exact Hs.
  - intros H. split; [now apply Hshort|]. apply Nat.ltb_ge. lia.
  - intros H. split; [now apply Hlong|]. now apply Nat.ltb_lt.
Qed.

(** ** A generator that yields nothing *)

(** X13. When the generator of the engine yields nothing, nothing is saved,
    and the entry is still reported as saved and counted as a success: the
    calls of the pass are the load, the seed and the inference call, the
    store is as before, and the last line is the one for a saved file. *)
Theorem empty_generator_is_reported_as_saved
    (a : args) (cosyvoice : engine) (total : nat) (u : bool) (idx : nat)
    (s : Subtitle.t) (c : counters) (w : world) (p : string) :
  (reference_for a u (Subtitle.id s) w).1 = Ok (Some p) ->
  Py.truthy p = true ->
  skip_existing a && path_exists (fs w) (output_path_of a (Subtitle.id s)) = false ->
  (forall w', exists speech, load_wav cosyvoice w' p 16000 = inr speech) ->
  (forall w' text other speech,
      inference_zero_shot cosyvoice w' text other speech = GenStop /\
      inference_instruct2 cosyvoice w' text other speech = GenStop) ->
  let run := process_subtitle a cosyvoice total u (idx, s) c w in
  run.1 = Ok (add_success c) /\
  fs run.2 = fs w /\
  last (stdout run.2) = Some (Saved (output_filename_of a (Subtitle.id s))) /\
  calls run.2
  = calls w ++ [LoadWav p 16000; SetSeed (seed a + Subtitle.id s);
                inference_call (Subtitle.text s) (prompt_text a) (instruct a)
                  (seed a + Subtitle.id s)].
Proof.
  intros Href Hp Hskip Hload Hgen. cbv zeta. rewrite process_subtitle_eq.
  cbv zeta. set (w0 := emit w (entry_lines total idx s)).
  pose proof (reference_for_world a u (Subtitle.id s) w0) as Hw.
  pose proof (reference_for_store a u (Subtitle.id s) w0) as Hr.
  change (fs w0) with (fs w) in Hr.
  rewrite <- (reference_for_store a u (Subtitle.id s) w), Href in Hr.
  destruct (reference_for a u (Subtitle.id s) w0) as [r w1].
  cbn [fst snd] in Hw, Hr. subst w1 r. rewrite Hp.
  change (fs w0) with (fs w). rewrite Hskip.
  unfold synthesize_with_cosyvoice, call_load_wav, set_all_random_seed,
    torchaudio_save, record_call, bind, ret, raise, print.
  cbn [fs stdout rng calls emit].
  match goal with |- context [load_wav cosyvoice ?w' p 16000] =>
    destruct (Hload w') as (speech & ->) end.
  unfold inference_call.
  destruct (Py.truthy (instruct a)); cbn [fs stdout rng calls emit fst snd].
  - match goal with |- context [inference_instruct2 cosyvoice ?w' ?x ?y ?z] =>
      destruct (Hgen w' x y z) as [_ ->] end.
    cbn [fs stdout rng calls emit fst snd]. split_and!; auto.
    + now rewrite last_snoc.
    + now rewrite <- !app_assoc.
  - match goal with |- context [inference_zero_shot cosyvoice ?w' ?x ?y ?z] =>
      destruct (Hgen w' x y z) as [-> _] end.
    cbn [fs stdout rng calls emit fst snd]. split_and!; auto.
    + now rewrite last_snoc.
    + now rewrite <- !app_assoc.
Qed.

Lemma empty_generator_is_reported_as_saved_witness :
  let run := process_subtitle overwriting_args silent_engine 1 false
               (1%nat, example_subtitle 1) no_counts (world_of example_store) in
  run.1 = Ok (add_success no_counts) /\
  fs run.2 = fs (world_of example_store).
Proof.
  destruct (empty_generator_is_reported_as_saved overwriting_args silent_engine
              1 false 1 (example_subtitle 1) no_counts (world_of example_store)
              "refs/segment_001.wav") as (Hres & Hfs & _).
  - vm_compute. reflexivity.
  - reflexivity.
  - reflexivity.
  - intros w'. exists []. reflexivity.
  - intros w' x y speech. split; reflexivity.
  - split; [exact Hres|exact Hfs].
Defined.

(** ** A generator that yields *)

(** X14. When the generators of the engine never come back empty, an entry
    that is counted as a success was synthesised: its reference was found
    and loaded, the generator yielded a first result for its text and the
    save went through; that result is what its output path holds, at the
    sample rate of the model, and the line for a saved file is the last one
    of the pass. *)
Theorem success_leaves_the_output_file
    (a : args) (cosyvoice : engine) (total : nat) (u : bool) (idx : nat)
    (s : Subtitle.t) (c c' : counters) (w : world) :
  (forall w' x y speech,
      inference_zero_shot cosyvoice w' x y speech <> GenStop /\
      inference_instruct2 cosyvoice w' x y speech <> GenStop) ->
  let run := process_subtitle a cosyvoice total u (idx, s) c w in
  let out := output_path_of a (Subtitle.id s) in
  let start := emit w (entry_lines total idx s) in
  run.1 = Ok c' ->
  success_count c' = S (success_count c) ->
  exists p t,
    (reference_for a u (Subtitle.id s) w).1 = Ok (Some p) /\
    synthesises_to cosyvoice (Subtitle.text s) (prompt_text a) p out
      (instruct a) (seed a + Subtitle.id s) start t /\
    fs run.2 !! out = Some (AudioFile t (sample_rate cosyvoice)) /\
    last (stdout run.2) = Some (Saved (output_filename_of a (Subtitle.id s))).
Proof.
  intros Hgen. cbv zeta. rewrite process_subtitle_eq. cbv zeta.
  set (start := emit w (entry_lines total idx s)).
  pose proof (reference_for_world a u (Subtitle.id s) start) as Hw.
  pose proof (reference_for_store a u (Subtitle.id s) start) as Hr.
  change (fs start) with (fs w) in Hr.
  rewrite <- (reference_for_store a u (Subtitle.id s) w) in Hr.
  destruct (reference_for a u (Subtitle.id s) start) as [[[p|]|e] w1];
    cbn [fst snd] in Hw, Hr; subst w1; cbn [fst snd].
  2: intros [= <-]; cbn; lia.
  2: discriminate.
  destruct (Py.truthy p); [|intros [= <-]; cbn; lia].
  destruct (skip_existing a && path_exists (fs start) _);
    [intros [= <-]; cbn; lia|].
  rewrite synthesize_run. cbv zeta.
  destruct (load_wav cosyvoice _ p 16000) as [e|speech] eqn:Hload;
    [intros [= <-]; cbn; lia|].
  destruct (first_result cosyvoice _ _ _ speech _) as [t| |e] eqn:Hfirst.
  - destruct (save_error cosyvoice _ _ t _) as [e|] eqn:Hsave;
      [intros [= <-]; cbn; lia|].
    intros _ _. exists p, t. split_and!.
    + now symmetry.
    + exists speech. now split_and!.
    + cbn [snd fs emit world_saved]. apply lookup_insert_eq.
    + cbn [snd stdout emit]. now rewrite last_snoc.
  - exfalso. unfold first_result in Hfirst.
    destruct (Py.truthy (instruct a));
      [now apply (Hgen _ _ _ _) in Hfirst|now apply (Hgen _ _ _ _) in Hfirst].
  - intros [= <-]; cbn; lia.
Qed.

Lemma success_leaves_the_output_file_witness :
  exists p t,
    (reference_for example_args false (Subtitle.id later_subtitle)
       (world_of example_store)).1 = Ok (Some p) /\
    synthesises_to text_length_engine (Subtitle.text later_subtitle)
      (prompt_text example_args) p
      (output_path_of example_args (Subtitle.id later_subtitle))
      (instruct example_args) (seed example_args + Subtitle.id later_subtitle)
      (emit (world_of example_store) (entry_lines 1 1 later_subtitle)) t /\
    fs (process_subtitle example_args text_length_engine 1 false
          (1%nat, later_subtitle) no_counts (world_of example_store)).2
      !! output_path_of example_args (Subtitle.id later_subtitle)
    = Some (AudioFile t (sample_rate text_length_engine)) /\
    last (stdout (process_subtitle example_args text_length_engine 1 false
                    (1%nat, later_subtitle) no_counts
                    (world_of example_store)).2)
    = Some (Saved (output_filename_of example_args (Subtitle.id later_subtitle))).
Proof.
  apply (success_leaves_the_output_file example_args text_length_engine 1 false
           1 later_subtitle no_counts (add_success no_counts)
           (world_of example_store)).
  - intros w' x y speech. split; discriminate.
  - vm_compute. reflexivity.
  - reflexivity.
Defined.

(** ** Without [skip_existing] *)

Lemma event_in_events m e ms :
  m ∈ ms -> event_of_msg m = Some e -> e ∈ events ms.
Proof.
  intros Hin He. unfold events. apply list_elem_of_omap. now exists m.
Qed.

Lemma process_subtitle_never_skips a cosyvoice total u idx s c w :
  skip_existing a = false ->
  let run := process_subtitle a cosyvoice total u (idx, s) c w in
  exists ms,
    stdout run.2 = stdout w ++ ms /\
    (forall fname, SkipExisting fname ∉ ms) /\
    (forall c', run.1 = Ok c' -> skip_count c' = skip_count c).
Proof.
  intros Hflag. cbv zeta. rewrite process_subtitle_eq. cbv zeta.
  set (w0 := emit w (entry_lines total idx s)).
  pose proof (reference_for_world a u (Subtitle.id s) w0) as Hw.
  assert (Hhead : forall fname tl,
             (forall m, m ∈ tl -> event_of_msg m <> Some (Recorded Skipped)) ->
             SkipExisting fname ∉ entry_lines total idx s ++ tl).
  { intros fname tl Htl Hin. apply elem_of_app in Hin as [Hin|Hin].
    - unfold entry_lines in Hin. split_member Hin.
    - now apply (Htl _ Hin). }
  destruct (reference_for a u (Subtitle.id s) w0) as [[[p|]|e] w1];
    cbn [fst snd] in Hw; subst w1.
  - destruct (Py.truthy p).
    + rewrite Hflag. cbn [andb].
      destruct (synthesize_effect cosyvoice (Subtitle.text s) (prompt_text a)
                  p (output_path_of a (Subtitle.id s)) (instruct a)
                  (seed a + Subtitle.id s) w0)
        as (ms & cs & Hout & Hev & _).
      cbv zeta in *.
      destruct (synthesize_with_cosyvoice _ _ _ _ _ _ _ _) as [[[]|e] w2];
        cbn [fst snd] in *.
      all: eexists; cbn [stdout emit]; rewrite Hout; unfold w0;
        cbn [stdout emit]; rewrite <- !app_assoc;
        (split; [reflexivity|]); split;
        [|intros c' [= <-]; reflexivity].
      all: intros fname; apply Hhead; intros m Hin He.
      all: apply elem_of_app in Hin as [Hin|Hin];
        [pose proof (event_in_events _ _ _ Hin He) as Hin';
         rewrite Hev in Hin'; now apply elem_of_nil in Hin'
        |apply list_elem_of_singleton in Hin; subst m; discriminate He].
    + eexists. cbn [stdout emit snd fst]. unfold w0. cbn [stdout emit].
      rewrite <- !app_assoc. split; [reflexivity|]. split.
      * intros fname. apply Hhead. intros m Hin He.
        apply list_elem_of_singleton in Hin. subst m. discriminate He.
      * intros c' [= <-]. reflexivity.
  - eexists. cbn [stdout emit snd fst]. unfold w0. cbn [stdout emit].
    rewrite <- !app_assoc. split; [reflexivity|]. split.
    + intros fname. apply Hhead. intros m Hin He.
      apply list_elem_of_singleton in Hin. subst m. discriminate He.
    + intros c' [= <-]. reflexivity.
  - exists (entry_lines total idx s). cbn [stdout emit snd fst]. split_and!; auto.
    + intros fname Hin. unfold entry_lines in Hin. split_member Hin.
    + discriminate.
Qed.

(** X15. Without [skip_existing] the loop skips nothing: it prints no skip
    line and leaves the skip counter where it was, whichever output files
    exist. *)
Theorem nothing_is_skipped_without_the_flag
    (a : args) (cosyvoice : engine) (subtitles : list Subtitle.t)
    (c : counters) (w : world) :
  skip_existing a = false ->
  let run := process_subtitles a cosyvoice subtitles c w in
  exists ms,
    stdout run.2 = stdout w ++ ms /\
    (forall fname, SkipExisting fname ∉ ms) /\
    (forall c', run.1 = Ok c' -> skip_count c' = skip_count c).
Proof.
  intros Hflag. cbv zeta. unfold process_subtitles.
  generalize (length subtitles) as total.
  generalize 1%nat as start. intros start total. revert start c w.
  induction subtitles as [|s rest IH]; intros start c w.
  - exists []. cbn. rewrite app_nil_r. split_and!; auto.
    + intros fname Hin. now apply elem_of_nil in Hin.
    + now intros c' [= <-].
  - cbn [enumerate for_each]. unfold bind.
    destruct (process_subtitle_never_skips a cosyvoice total
                (Py.is_not_none (audio_path a)) start s c w Hflag)
      as (ms & Hout & Hno & Hcount).
    cbv zeta in *.
    destruct (process_subtitle _ _ _ _ _ _ _) as [[c1|e] w1];
      cbn [fst snd] in *.
    + destruct (IH (S start) c1 w1) as (ms' & Hout' & Hno' & Hcount').
      exists (ms ++ ms'). rewrite Hout', Hout, app_assoc. split_and!; auto.
      * intros fname Hin. apply elem_of_app in Hin as [Hin|Hin].
        -- now apply (Hno fname).
        -- now apply (Hno' fname).
      * intros c' Hc'. rewrite (Hcount' c' Hc'). now apply Hcount.
    + exists ms. split_and!; auto; discriminate.
Qed.

Lemma nothing_is_skipped_without_the_flag_witness :
  let run := process_subtitles overwriting_args example_engine five_subtitles
               no_counts (world_of first_output_present) in
  exists ms,
    stdout run.2 = stdout (world_of first_output_present) ++ ms /\
    (forall fname, SkipExisting fname ∉ ms) /\
    (forall c', run.1 = Ok c' -> skip_count c' = skip_count no_counts).
Proof.
  apply (nothing_is_skipped_without_the_flag overwriting_args example_engine
           five_subtitles no_counts (world_of first_output_present)).
  reflexivity.
Defined.

(** ** Files that are there when a batch starts *)

Lemma process_subtitle_keeps_files a cosyvoice total u idx s c w :
  skip_existing a = true ->
  let run := process_subtitle a cosyvoice total u (idx, s) c w in
  forall q, path_exists (fs w) q = true -> fs run.2 !! q = fs w !! q.
Proof.
  intros Hflag. cbv zeta. rewrite process_subtitle_eq. cbv zeta.
  set (w0 := emit w (entry_lines total idx s)).
  pose proof (reference_for_world a u (Subtitle.id s) w0) as Hw.
  destruct (reference_for a u (Subtitle.id s) w0) as [[[p|]|e] w1];
    cbn [fst snd] in Hw; subst w1; try reflexivity.
  destruct (Py.truthy p); [|reflexivity].
  rewrite Hflag. cbn [andb]. change (fs w0) with (fs w).
  destruct (path_exists (fs w) (output_path_of a (Subtitle.id s))) eqn:Hout;
    [reflexivity|].
  destruct (synthesize_loads cosyvoice (Subtitle.text s) (prompt_text a) p
              (output_path_of a (Subtitle.id s)) (instruct a)
              (seed a + Subtitle.id s) w0) as (cs & _ & _ & Hfs).
  cbv zeta in Hfs. change (fs w0) with (fs w) in Hfs.
  intros q Hq.
  assert (Hne : q <> output_path_of a (Subtitle.id s)) by congruence.
  destruct (synthesize_with_cosyvoice _ _ _ _ _ _ _ _) as [[[]|e] w2];
    cbn [fst snd fs emit] in *.
  all: destruct Hfs as [->|(t & ->)]; [reflexivity|].
  all: now rewrite lookup_insert_ne by congruence.
Qed.

(** X16. With [skip_existing] the loop never writes to a path that exists
    when it starts: every file that was there holds what it held. *)
Theorem skip_existing_never_overwrites
    (a : args) (cosyvoice : engine) (subtitles : list Subtitle.t)
    (c : counters) (w : world) (q : string) :
  skip_existing a = true ->
  path_exists (fs w) q = true ->
  fs (process_subtitles a cosyvoice subtitles c w).2 !! q = fs w !! q.
Proof.
  intros Hflag. unfold process_subtitles.
  generalize (length subtitles) as total.
  generalize 1%nat as start. intros start total. revert start c w.
  induction subtitles as [|s rest IH]; intros start c w Hq; [reflexivity|].
  cbn [enumerate for_each]. unfold bind.
  pose proof (process_subtitle_keeps_files a cosyvoice total
                (Py.is_not_none (audio_path a)) start s c w Hflag q Hq) as Hstep.
  cbv zeta in Hstep.
  destruct (process_subtitle _ _ _ _ _ _ _) as [[c1|e] w1];
    cbn [fst snd] in *; [|exact Hstep].
  rewrite IH; [exact Hstep|].
  unfold path_exists in *. now rewrite Hstep.
Qed.

Lemma skip_existing_never_overwrites_witness :
  fs (process_subtitles example_args text_length_engine five_subtitles
        no_counts (world_of first_output_present)).2 !! "out/clone_001.wav"
  = fs (world_of first_output_present) !! "out/clone_001.wav".
Proof.
  apply (skip_existing_never_overwrites example_args text_length_engine
           five_subtitles no_counts (world_of first_output_present)
           "out/clone_001.wav").
  - reflexivity.
  - reflexivity.
Defined.

(** ** The references a batch loads *)

(** X17. The files the loop loads, in the order of the calls: every load is
    at 16 kHz; with a shared reference audio every load is of that path;
    without one, every load is of a candidate name of some entry of the
    list in the reference directory, and of a file that exists. *)
Theorem batch_loads_configured_references
    (a : args) (cosyvoice : engine) (subtitles : list Subtitle.t)
    (c : counters) (w : world) :
  let run := process_subtitles a cosyvoice subtitles c w in
  exists ps,
    loads (calls run.2) = loads (calls w) ++ ps /\
    Forall (fun pr =>
              pr.2 = 16000 /\
              match audio_path a with
              | Some shared => pr.1 = shared
              | None =>
                  exists d s,
                    reference_dir a = Some d /\ s ∈ subtitles /\
                    pr.1 ∈ map (Py.path_join d)
                             (patterns (audio_prefix a) (Subtitle.id s)) /\
                    path_exists (fs run.2) pr.1 = true
              end) ps.
Proof.
  cbv zeta. unfold process_subtitles.
  destruct (for_each_trace a cosyvoice (length subtitles)
              (Py.is_not_none (audio_path a)) (enumerate 1 subtitles) c w)
    as (ps & Hps & Hall & _ & _).
  cbv zeta in Hps, Hall. rewrite enumerate_subtitles in Hall.
  exists ps. split; [exact Hps|].
  eapply Forall_impl; [exact Hall|]. cbn beta.
  intros pr (Hrate & s & w0 & Hin & Hkeep & Href). split; [exact Hrate|].
  unfold reference_for in Href.
  destruct (audio_path a) as [shared|]; cbn [Py.is_not_none] in Href.
  - cbn in Href. congruence.
  - unfold find_reference_audio in Href.
    destruct (reference_dir a) as [d|].
    + rewrite first_existing_head in Href. cbn [fst] in Href.
      injection Href as Href.
      apply head_filter_Some in Href as (i & Hi & Hex & _).
      exists d, s. split_and!; auto.
      eapply list_elem_of_lookup_2. exact Hi.
    + unfold patterns in Href. cbn [first_existing] in Href.
      unfold bind, os_path_join, raise in Href. discriminate Href.
Qed.

(** ** What a batch run touches *)

Lemma parse_srt_frame path w :
  fs (parse_srt path w).2 = fs w /\ calls (parse_srt path w).2 = calls w /\
  (forall subtitles, (parse_srt path w).1 = Ok subtitles ->
     exists raw, fs w !! path = Some (TextFile raw) /\
                 subtitles = subtitles_of raw).
Proof.
  destruct (fs w !! path) as [[|raw|t r]|] eqn:E.
  2: { rewrite (parse_srt_run _ _ _ E). cbn. split_and!; auto.
       intros subtitles [= <-]. now exists raw. }
  all: unfold parse_srt, bind, print, read_text; cbn [fs emit];
    rewrite E; cbn; split_and!; auto; discriminate.
Qed.

(** The store after a batch run: the one before, or the one the loop over
    the parsed subtitles leaves. *)
Lemma process_batch_mode_store a cosyvoice w :
  fs (process_batch_mode a cosyvoice w).2 = fs w \/
  exists raw w3,
    fs w !! srt a = Some (TextFile raw) /\ fs w3 = fs w /\
    fs (process_batch_mode a cosyvoice w).2
    = fs (process_subtitles a cosyvoice (subtitles_of raw) no_counts w3).2.
Proof.
  remember (process_batch_mode a cosyvoice w) as run eqn:Hrun.
  unfold process_batch_mode in Hrun.
  unfold bind at 1 2 3 in Hrun. unfold print at 1 2 3 in Hrun.
  rewrite !emit_emit in Hrun. cbn [app] in Hrun.
  unfold bind at 1 in Hrun. unfold os_path_exists at 1 in Hrun.
  cbn [fs emit] in Hrun.
  destruct (path_exists (fs w) (srt a)); cbn [negb] in Hrun;
    [|subst run; now left].
  unfold bind at 1 in Hrun. cbn beta in Hrun. cbn [fs emit] in Hrun.
  destruct (reference_missing a (fs w)); [subst run; now left|].
  unfold bind at 1 in Hrun.
  set (w1 := emit w _) in Hrun.
  destruct (parse_srt_frame (srt a) w1) as (Hfs & _ & Hsub).
  destruct (parse_srt (srt a) w1) as [[subtitles|e] w2]; cbn [fst snd] in *;
    [|subst run; now left].
  destruct (Hsub subtitles eq_refl) as (raw & Hraw & ->).
  change (fs w1) with (fs w) in *.
  destruct (subtitles_of raw) as [|s0 rest] eqn:Hs; [subst run; now left|].
  right. unfold bind at 1 2 in Hrun. unfold print at 1 2 in Hrun.
  rewrite !emit_emit in Hrun. unfold bind at 1 in Hrun.
  set (w3 := emit w2 _) in Hrun.
  exists raw, w3. split_and!; [exact Hraw|exact Hfs|]. rewrite Hs.
  destruct (process_subtitles _ _ _ _ _) as [[c|e] w4]; subst run;
    cbn [fst snd]; [|reflexivity].
  now rewrite print_summary_run.
Qed.

(** X18. A batch run leaves every path alone that is not the output path of
    an entry of the subtitle file: the subtitle file, the references and
    everything else hold afterwards what they held before. *)
Theorem batch_run_touches_only_outputs
    (a : args) (cosyvoice : engine) (w : world) (q : string) :
  (forall raw s,
      fs w !! srt a = Some (TextFile raw) -> s ∈ subtitles_of raw ->
      q <> output_path_of a (Subtitle.id s)) ->
  fs (process_batch_mode a cosyvoice w).2 !! q = fs w !! q.
Proof.
  intros Hq.
  destruct (process_batch_mode_store a cosyvoice w)
    as [->|(raw & w3 & Hraw & Hfs & ->)]; [reflexivity|].
  unfold process_subtitles.
  destruct (for_each_trace a cosyvoice (length (subtitles_of raw))
              (Py.is_not_none (audio_path a))
              (enumerate 1 (subtitles_of raw)) no_counts w3)
    as (ps & _ & _ & Hframe & _).
  cbv zeta in Hframe. rewrite enumerate_subtitles in Hframe.
  rewrite Hframe, Hfs; [reflexivity|].
  intros s Hin. now apply (Hq raw).
Qed.

Lemma batch_run_touches_only_outputs_witness :
  fs (process_batch_mode example_args example_engine
        (world_of two_entry_store)).2 !! "refs/segment_001.wav"
  = fs (world_of two_entry_store) !! "refs/segment_001.wav".
Proof.
  apply (batch_run_touches_only_outputs example_args example_engine
           (world_of two_entry_store) "refs/segment_001.wav").
  intros raw s Hraw Hin. vm_compute in Hraw. injection Hraw as <-.
  vm_compute in Hin.
  apply elem_of_cons in Hin as [->|Hin]; [vm_compute; discriminate|].
  apply elem_of_cons in Hin as [->|Hin]; [vm_compute; discriminate|].
  now apply elem_of_nil in Hin.
Defined.

(** X19. A batch run deletes nothing, and a path that holds something else
    afterwards than before holds audio at the sample rate of the model. *)
Theorem batch_run_writes_audio_only
    (a : args) (cosyvoice : engine) (w : world) (q : string) :
  let after := fs (process_batch_mode a cosyvoice w).2 in
  (path_exists (fs w) q = true -> path_exists after q = true) /\
  (after !! q = fs w !! q \/
   exists t, after !! q = Some (AudioFile t (sample_rate cosyvoice))).
Proof.
  cbv zeta.
  destruct (process_batch_mode_store a cosyvoice w)
    as [->|(raw & w3 & Hraw & Hfs & ->)]; [auto|].
  unfold process_subtitles.
  destruct (for_each_trace a cosyvoice (length (subtitles_of raw))
              (Py.is_not_none (audio_path a))
              (enumerate 1 (subtitles_of raw)) no_counts w3)
    as (ps & _ & _ & _ & Hwritten & Hkeep).
  cbv zeta in Hwritten, Hkeep. rewrite Hfs in Hwritten, Hkeep.
  split; [apply Hkeep|apply Hwritten].
Qed.
